(** * Point-cloud aggregation: [transformPointCloud] and [combineClouds]

    A shallow embedding of [src/nodelets/point_cloud_aggregator.cpp].

    - [pcl_ros::transformPointCloud] is modelled on the packed byte buffer of
      a [sensor_msgs::msg::PointCloud2]: a float is the four bytes of its
      object representation, read with [*(float* )&data[k]] and written with
      [memcpy].
    - [PointCloudAggregator::combineClouds] is modelled as a computation in a
      small writer monad that records every call the C++ makes to a
      collaborator (transform lookup, point-cloud transform, concatenation,
      publication). *)

From Stdlib Require Import ZArith Lia Bool List.
From Stdlib Require Import Strings.Byte.
From Stdlib Require Import Floats.SpecFloat.
From stdpp Require Import base list strings.

Local Open Scope Z_scope.

(** ** Machine integers

    The C++ mixes [uint32_t] message members, [int] offsets and [size_t]
    indices.  They are modelled as [Z] with the wrap-around of each
    conversion written out. *)

Definition wrap_u32 (v : Z) : Z := v mod 2^32.
Definition wrap_i32 (v : Z) : Z := (v + 2^31) mod 2^32 - 2^31.
Definition wrap_size_t (v : Z) : Z := v mod 2^64.

(** ** Single-precision floats as stored in the buffer *)

Module F32.

(** The object representation of a [float]: four bytes, lowest address
    first.  The host is little-endian ([is_bigendian] is never consulted by
    the source). *)
Record float32 : Set := Float32 { byte0 : byte; byte1 : byte; byte2 : byte; byte3 : byte }.

Definition byte_val (b : byte) : Z := Z.of_N (Byte.to_N b).

Definition byte_of_Z (z : Z) : byte :=
  match Byte.of_N (Z.to_N (z mod 256)) with
  | Some b => b
  | None => x00
  end.

Definition bits (f : float32) : Z :=
  byte_val (byte0 f) + 2^8 * byte_val (byte1 f)
  + 2^16 * byte_val (byte2 f) + 2^24 * byte_val (byte3 f).

Definition of_bits (z : Z) : float32 :=
  Float32 (byte_of_Z z) (byte_of_Z (z / 2^8)) (byte_of_Z (z / 2^16)) (byte_of_Z (z / 2^24)).

Definition sign_bit (f : float32) : bool := (bits f / 2^31) =? 1.
Definition exponent_bits (f : float32) : Z := (bits f / 2^23) mod 2^8.
Definition mantissa_bits (f : float32) : Z := bits f mod 2^23.

(** [std::isfinite]: neither an infinity nor a NaN, i.e. the exponent field
    is not all ones. *)
Definition isfinite (f : float32) : bool := negb (exponent_bits f =? 255).

Definition isnan (f : float32) : bool :=
  (exponent_bits f =? 255) && negb (mantissa_bits f =? 0).

(** [std::numeric_limits<float>::quiet_NaN()] *)
Definition quiet_NaN : float32 := of_bits 0x7FC00000.

(** The literal [1] of the homogeneous coordinate, and [0]. *)
Definition one : float32 := of_bits 0x3F800000.
Definition zero : float32 := of_bits 0.

(** *** IEEE-754 binary32 arithmetic

    [SpecFloat] at precision 24 and maximal exponent 128 (round to nearest,
    ties to even).  NaN payloads are not tracked: every NaN result is the
    canonical quiet NaN. *)

Definition prec : Z := 24.
Definition emax : Z := 128.

Definition decode (f : float32) : spec_float :=
  let s := sign_bit f in
  let e := exponent_bits f in
  let m := mantissa_bits f in
  if e =? 0 then
    match m with
    | Zpos p => S754_finite s p (-149)
    | _ => S754_zero s
    end
  else if e =? 255 then
    if m =? 0 then S754_infinity s else S754_nan
  else
    match m + 2^23 with
    | Zpos p => S754_finite s p (e - 150)
    | _ => S754_nan
    end.

Definition sign_mask (s : bool) : Z := if s then 2^31 else 0.

Definition encode (x : spec_float) : float32 :=
  of_bits
    match x with
    | S754_zero s => sign_mask s
    | S754_infinity s => sign_mask s + 0x7F800000
    | S754_nan => 0x7FC00000
    | S754_finite s m e =>
        if 2^23 <=? Zpos m
        then sign_mask s + (e + 150) * 2^23 + (Zpos m - 2^23)
        else sign_mask s + Zpos m
    end.

Definition add (a b : float32) : float32 := encode (SFadd prec emax (decode a) (decode b)).
Definition mul (a b : float32) : float32 := encode (SFmul prec emax (decode a) (decode b)).

End F32.

Export F32(float32).

(** ** Eigen vectors and matrices *)

Record Vector4f : Set := Vec4 { v0 : float32; v1 : float32; v2 : float32; v3 : float32 }.

(** A [Matrix4f], given by its four rows. *)
Record Matrix4f : Set := Mat4 {
  row0 : Vector4f;
  row1 : Vector4f;
  row2 : Vector4f;
  row3 : Vector4f
}.

(** [Eigen::Array4i] *)
Record Array4i : Set := Arr4 { a0 : Z; a1 : Z; a2 : Z; a3 : Z }.

(** [xyz_offset += s]: coefficient-wise [int] addition. *)
Definition Array4i_add_scalar (a : Array4i) (s : Z) : Array4i :=
  Arr4 (wrap_i32 (a0 a + s)) (wrap_i32 (a1 a + s)) (wrap_i32 (a2 a + s)) (wrap_i32 (a3 a + s)).

Section MatVec.
(** Single-precision addition and multiplication.  The theorems hold for
    any pair of operations; [F32.add] and [F32.mul] are the IEEE ones. *)
Variables fadd fmul : float32 -> float32 -> float32.

Definition dot4 (r v : Vector4f) : float32 :=
  fadd (fadd (fadd (fmul (v0 r) (v0 v)) (fmul (v1 r) (v1 v))) (fmul (v2 r) (v2 v)))
       (fmul (v3 r) (v3 v)).

(** [transform * pt] *)
Definition matvec (m : Matrix4f) (v : Vector4f) : Vector4f :=
  Vec4 (dot4 (row0 m) v) (dot4 (row1 m) v) (dot4 (row2 m) v) (dot4 (row3 m) v).
End MatVec.

(** ** The byte buffer [std::vector<uint8_t> data]

    Indexing outside the vector is undefined behaviour in the source; the
    model reads [x00] there and drops the write.  The theorems below assume
    the buffer invariant, under which no such access happens. *)

Definition load_byte (d : list byte) (k : Z) : byte :=
  if 0 <=? k then default x00 (d !! Z.to_nat k) else x00.

Definition store_byte (d : list byte) (k : Z) (b : byte) : list byte :=
  if 0 <=? k then <[Z.to_nat k := b]> d else d.

(** [*(float* )&d[k]] *)
Definition load_float (d : list byte) (k : Z) : float32 :=
  F32.Float32 (load_byte d k) (load_byte d (k + 1)) (load_byte d (k + 2)) (load_byte d (k + 3)).

(** [memcpy (&d[k], &f, sizeof (float))] and [*(float* )&d[k] = f] *)
Definition store_float (d : list byte) (k : Z) (f : float32) : list byte :=
  store_byte (store_byte (store_byte (store_byte d k (F32.byte0 f))
                                     (k + 1) (F32.byte1 f))
                         (k + 2) (F32.byte2 f))
             (k + 3) (F32.byte3 f).

(** ** sensor_msgs *)

Record Time : Set := mkTime { sec : Z; nanosec : Z }.

Record Header : Set := mkHeader { stamp : Time; frame_id : string }.

Record PointField : Set := mkPointField {
  name : string;
  offset : Z;
  datatype : Z;
  count : Z
}.

(** [sensor_msgs::PointField::FLOAT32] *)
Definition FLOAT32 : Z := 7.

Record PointCloud2 : Set := mkPointCloud2 {
  header : Header;
  height : Z;
  width : Z;
  fields : list PointField;
  is_bigendian : bool;
  point_step : Z;
  row_step : Z;
  data : list byte;
  is_dense : bool
}.

(** A default-constructed message, as the local [tmp] and [tmp2] of
    [combineClouds] are before [transformPointCloud] fills them. *)
Definition empty_cloud : PointCloud2 :=
  mkPointCloud2 (mkHeader (mkTime 0 0) "") 0 0 [] false 0 0 [] false.

(** [pcl::getFieldIndex]: the position of the first field called [field_name],
    [-1] when there is none. *)
Fixpoint find_field (fs : list PointField) (field_name : string) (d : Z) : Z :=
  match fs with
  | [] => -1
  | f :: fs' => if String.eqb (name f) field_name then d else find_field fs' field_name (d + 1)
  end.

Definition getFieldIndex (cloud : PointCloud2) (field_name : string) : Z :=
  find_field (fields cloud) field_name 0.

(** [c] with its [data] member replaced. *)
Definition with_data (c : PointCloud2) (d : list byte) : PointCloud2 :=
  mkPointCloud2 (header c) (height c) (width c) (fields c) (is_bigendian c)
                (point_step c) (row_step c) d (is_dense c).

(** ** [pcl_ros::transformPointCloud]

    Every caller in the file passes a freshly constructed [out], so
    [&in != &out] holds and the copying branch of the source is the one
    modelled.  The function returns the final [out] together with the
    sequence of indices at which the field table ([in.fields[k]],
    [out.fields[k]]) was subscripted, in program order. *)

Section TransformPointCloud.
Variables fadd fmul : float32 -> float32 -> float32.

(** What a subscript outside the field table yields.  Such a subscript
    is undefined behaviour of [std::vector]; the model lets it produce an
    arbitrary field, so that what is proved holds whatever is read. *)
Variable stray : PointField.

Definition field_at (fs : list PointField) (idx : Z) : PointField :=
  if 0 <=? idx then default stray (fs !! Z.to_nat idx) else stray.

Record LoopState : Set := mkLoopState {
  out_data : list byte;
  xyz_offset : Array4i;
  field_reads : list Z
}.

(** Body of the loop over the points (source lines 88 to 125). *)
Definition transform_point (transform : Matrix4f) (in_ : PointCloud2) (dist_idx : Z)
    (i : Z) (st : LoopState) : LoopState :=
  let xyz := xyz_offset st in
  let pt := Vec4 (load_float (data in_) (a0 xyz)) (load_float (data in_) (a1 xyz))
                 (load_float (data in_) (a2 xyz)) F32.one in
  let distance_ptr_offset :=
    wrap_i32 (wrap_size_t (i * point_step in_ + offset (field_at (fields in_) dist_idx))) in
  let distance_ptr := if dist_idx <? 0 then None else Some distance_ptr_offset in
  let '(pt_out, max_range_point) :=
    if negb (F32.isfinite (v0 pt)) || negb (F32.isfinite (v1 pt)) || negb (F32.isfinite (v2 pt))
    then
      match distance_ptr with
      | None => (pt, false)
      | Some p =>
          if negb (F32.isfinite (load_float (data in_) p))
          then (pt, false)
          else
            let pt := Vec4 (load_float (data in_) p) (v1 pt) (v2 pt) (v3 pt) in
            (matvec fadd fmul transform pt, true)
      end
    else (matvec fadd fmul transform pt, false) in
  let out1 :=
    if max_range_point
    then store_float (out_data st) distance_ptr_offset (v0 pt_out)
    else out_data st in
  let pt_out :=
    if max_range_point
    then Vec4 F32.quiet_NaN (v1 pt_out) (v2 pt_out) (v3 pt_out)
    else pt_out in
  let out2 := store_float out1 (a0 xyz) (v0 pt_out) in
  let out3 := store_float out2 (a1 xyz) (v1 pt_out) in
  let out4 := store_float out3 (a2 xyz) (v2 pt_out) in
  mkLoopState out4 (Array4i_add_scalar xyz (wrap_i32 (point_step in_)))
              (field_reads st ++ [dist_idx]).

(** [for (size_t i = i0; i < i0 + n; ++i)] *)
Fixpoint points_loop (transform : Matrix4f) (in_ : PointCloud2) (dist_idx : Z)
    (n : nat) (i : Z) (st : LoopState) : LoopState :=
  match n with
  | O => st
  | S n' => points_loop transform in_ dist_idx n' (i + 1)
              (transform_point transform in_ dist_idx i st)
  end.

(** Body of the loop over the viewpoints (source lines 135 to 142);
    [out] carries the members copied from [in], [d] is [out.data]. *)
Definition transform_viewpoint (transform : Matrix4f) (out : PointCloud2) (vp_idx : Z)
    (i : Z) (st : list byte * list Z) : list byte * list Z :=
  let '(d, reads) := st in
  let pstep := wrap_size_t (i * point_step out + offset (field_at (fields out) vp_idx)) in
  let vp_in := Vec4 (load_float d pstep) (load_float d (pstep + 4))
                    (load_float d (pstep + 8)) F32.one in
  let vp_out := matvec fadd fmul transform vp_in in
  let d1 := store_float d pstep (v0 vp_out) in
  let d2 := store_float d1 (pstep + 4) (v1 vp_out) in
  let d3 := store_float d2 (pstep + 8) (v2 vp_out) in
  (d3, reads ++ [vp_idx]).

Fixpoint viewpoints_loop (transform : Matrix4f) (out : PointCloud2) (vp_idx : Z)
    (n : nat) (i : Z) (st : list byte * list Z) : list byte * list Z :=
  match n with
  | O => st
  | S n' => viewpoints_loop transform out vp_idx n' (i + 1)
              (transform_viewpoint transform out vp_idx i st)
  end.

Definition transformPointCloud (transform : Matrix4f) (in_ out : PointCloud2)
    : PointCloud2 * list Z :=
  let x_idx := getFieldIndex in_ "x" in
  let y_idx := getFieldIndex in_ "y" in
  let z_idx := getFieldIndex in_ "z" in
  if (x_idx =? -1) || (y_idx =? -1) || (z_idx =? -1)
  then (out, [])
  else
    let x_bad := negb (datatype (field_at (fields in_) x_idx) =? FLOAT32) in
    let y_bad := negb (datatype (field_at (fields in_) y_idx) =? FLOAT32) in
    let z_bad := negb (datatype (field_at (fields in_) z_idx) =? FLOAT32) in
    (* the operands of [||] are evaluated left to right, until one is true *)
    let reads := x_idx :: (if x_bad then [] else y_idx :: (if y_bad then [] else [z_idx])) in
    if x_bad || y_bad || z_bad
    then (out, reads)
    else
      let dist_idx := getFieldIndex in_ "distance" in
      (* [&in != &out]: every member of [in] is copied *)
      let out := in_ in
      let xyz_offset :=
        Arr4 (wrap_i32 (offset (field_at (fields in_) x_idx)))
             (wrap_i32 (offset (field_at (fields in_) y_idx)))
             (wrap_i32 (offset (field_at (fields in_) z_idx))) 0 in
      let reads := reads ++ [x_idx; y_idx; z_idx] in
      let st := points_loop transform in_ dist_idx
                  (Z.to_nat (wrap_u32 (width in_ * height in_))) 0
                  (mkLoopState (data out) xyz_offset reads) in
      let vp_idx := getFieldIndex in_ "vp_x" in
      if negb (vp_idx =? -1)
      then
        let '(d, reads) :=
          viewpoints_loop transform out vp_idx
            (Z.to_nat (wrap_u32 (width out * height out))) 0
            (out_data st, field_reads st) in
        (with_data out d, reads)
      else (with_data out (out_data st), field_reads st).

End TransformPointCloud.

(** ** Collaborators of [combineClouds]

    [rtabmap::Transform], [pcl::PCLPointCloud2], the conversions of
    [pcl_conversions] and [pcl::concatenatePointCloud] belong to other
    libraries.  [combineClouds] is modelled over their interface; what is
    proved about it holds for every implementation. *)

Class Platform : Type := mkPlatform {
  (** single-precision arithmetic, and what a stray read of the field table yields *)
  float_add : float32 -> float32 -> float32;
  float_mul : float32 -> float32 -> float32;
  stray_field : PointField;
  (** [rtabmap::Transform], its default constructor, [isNull()] and [toEigen4f()] *)
  Transform : Type;
  Transform_default : Transform;
  isNull : Transform -> bool;
  toEigen4f : Transform -> Matrix4f;
  (** [pcl::PCLPointCloud2], [pcl_conversions::toPCL] and [moveFromPCL] *)
  PCLPointCloud2 : Type;
  toPCL : PointCloud2 -> PCLPointCloud2;
  moveFromPCL : PCLPointCloud2 -> PointCloud2;
  (** [pcl::concatenatePointCloud (cloud1, cloud2, cloud_out)]: the value of
      [cloud_out] after the call on a default-constructed [cloud_out] (the
      returned [bool] is discarded by the source) *)
  concatenatePointCloud : PCLPointCloud2 -> PCLPointCloud2 -> PCLPointCloud2
}.

Section Aggregator.
Context {P : Platform}.

(** What the node's surroundings answer during one call of [combineClouds]:
    [cloudPub_->get_subscription_count()], and the two overloads of
    [rtabmap_ros::getTransform] on [*tfBuffer_] (the timeout of 0.1 s is part
    of the answer: a lookup that times out answers a null transform). *)
Record Env : Type := mkEnv {
  get_subscription_count : nat;
  getTransform : string -> string -> Time -> Transform;
  getTransformFixed : string -> string -> Time -> Time -> Transform
}.

(** The members of [PointCloudAggregator] that [combineClouds] uses. *)
Record Node : Set := mkNode {
  frameId_ : string;
  fixedFrameId_ : string;
  callbackCalled_ : bool
}.

(** The calls to collaborators, in program order. *)
Inductive Event : Type :=
| LookupTransform (target source : string) (t : Time)
| LookupDisplacement (frame fixedFrame : string) (stampSource stampTarget : Time)
| TransformCloud (transform : Matrix4f) (cloud : PointCloud2)
| Concatenate (cloud1 cloud2 : PCLPointCloud2)
| Publish (cloud : PointCloud2).

(** A computation that emits events and yields a value. *)
Definition M (A : Type) : Type := (list Event * A)%type.

Definition ret {A} (a : A) : M A := ([], a).

Definition bind {A B} (m : M A) (f : A -> M B) : M B :=
  let '(w, a) := m in
  let '(w', b) := f a in
  (w ++ w', b).

Definition emit (e : Event) : M unit := ([e], tt).

Definition events {A} (m : M A) : list Event := fst m.
Definition value {A} (m : M A) : A := snd m.

Notation "x <- m ;; k" := (bind m (fun x => k))
  (at level 100, m at next level, right associativity).
Notation "m ;;; k" := (bind m (fun _ => k))
  (at level 100, right associativity).

(** [rtabmap_ros::getTransform (target, source, stamp, *tfBuffer_, 0.1)] *)
Definition lookup (env : Env) (target source : string) (t : Time) : M Transform :=
  emit (LookupTransform target source t) ;;; ret (getTransform env target source t).

(** [rtabmap_ros::getTransform (frame, fixedFrame, stampSource, stampTarget, *tfBuffer_, 0.1)] *)
Definition lookup_displacement (env : Env) (frame fixedFrame : string)
    (stampSource stampTarget : Time) : M Transform :=
  emit (LookupDisplacement frame fixedFrame stampSource stampTarget) ;;;
  ret (getTransformFixed env frame fixedFrame stampSource stampTarget).

(** [sensor_msgs::msg::PointCloud2 tmp; pcl_ros::transformPointCloud (transform, cloud, tmp);]
    yields [tmp]. *)
Definition transform_cloud (transform : Matrix4f) (cloud : PointCloud2) : M PointCloud2 :=
  emit (TransformCloud transform cloud) ;;;
  ret (fst (transformPointCloud float_add float_mul stray_field transform cloud empty_cloud)).

(** [pcl::PCLPointCloud2 tmp_output; pcl::concatenatePointCloud (output, cloud2, tmp_output);]
    yields [tmp_output]. *)
Definition concatenate (output cloud2 : PCLPointCloud2) : M PCLPointCloud2 :=
  emit (Concatenate output cloud2) ;;; ret (concatenatePointCloud output cloud2).

Definition publish (cloud : PointCloud2) : M unit := emit (Publish cloud).

Definition string_empty (s : string) : bool := String.eqb s "".

Definition Time_eqb (a b : Time) : bool := (sec a =? sec b) && (nanosec a =? nanosec b).

(** Source lines 325 to 341: the first cloud.  [None] is the [return] of
    line 332; otherwise [output] and the local [frameId]. *)
Definition align_reference (env : Env) (node : Node) (cloud0 : PointCloud2)
    : M (option (PCLPointCloud2 * string)) :=
  let frameId := frameId_ node in
  if negb (string_empty frameId) && negb (String.eqb frameId (frame_id (header cloud0)))
  then
    t <- lookup env frameId (frame_id (header cloud0)) (stamp (header cloud0)) ;;
    if isNull t
    then ret None
    else
      tmp <- transform_cloud (toEigen4f t) cloud0 ;;
      ret (Some (toPCL tmp, frameId))
  else ret (Some (toPCL cloud0, frame_id (header cloud0))).

(** Source lines 345 to 391: [cloud2], the cloud of index [i] brought to
    [frameId]. *)
Definition align_cloud (env : Env) (node : Node) (frameId : string)
    (cloud0 cloud_i : PointCloud2) : M PCLPointCloud2 :=
  cloudDisplacement <-
    (if negb (string_empty (fixedFrameId_ node))
        && negb (Time_eqb (stamp (header cloud0)) (stamp (header cloud_i)))
     then lookup_displacement env frameId (fixedFrameId_ node)
            (stamp (header cloud_i)) (stamp (header cloud0))
     else ret Transform_default) ;;
  if negb (String.eqb frameId (frame_id (header cloud_i)))
  then
    t <- lookup env frameId (frame_id (header cloud_i)) (stamp (header cloud_i)) ;;
    tmp <- transform_cloud (toEigen4f t) cloud_i ;;
    if negb (isNull cloudDisplacement)
    then
      tmp2 <- transform_cloud (toEigen4f cloudDisplacement) tmp ;;
      ret (toPCL tmp2)
    else ret (toPCL tmp)
  else
    if negb (isNull cloudDisplacement)
    then
      tmp <- transform_cloud (toEigen4f cloudDisplacement) cloud_i ;;
      ret (toPCL tmp)
    else ret (toPCL cloud_i).

(** Body of the loop of source lines 343 to 396. *)
Definition combine_step (env : Env) (node : Node) (frameId : string)
    (cloud0 : PointCloud2) (output : PCLPointCloud2) (cloud_i : PointCloud2)
    : M PCLPointCloud2 :=
  cloud2 <- align_cloud env node frameId cloud0 cloud_i ;;
  concatenate output cloud2.

(** [for (unsigned int i = 1; i < cloudMsgs.size (); ++i)], over the clouds
    that follow the first. *)
Fixpoint combine_loop (env : Env) (node : Node) (frameId : string)
    (cloud0 : PointCloud2) (output : PCLPointCloud2) (rest : list PointCloud2)
    : M PCLPointCloud2 :=
  match rest with
  | [] => ret output
  | cloud_i :: rest' =>
      output' <- combine_step env node frameId cloud0 output cloud_i ;;
      combine_loop env node frameId cloud0 output' rest'
  end.

Definition with_header (c : PointCloud2) (h : Header) : PointCloud2 :=
  mkPointCloud2 h (height c) (width c) (fields c) (is_bigendian c)
                (point_step c) (row_step c) (data c) (is_dense c).

(** How a call of [combineClouds] ends: it returns, or [UASSERT] throws. *)
Inductive Outcome : Set := Returned | AssertionFailed.

Definition called (node : Node) : Node :=
  mkNode (frameId_ node) (fixedFrameId_ node) true.

Definition combineClouds (env : Env) (node : Node) (cloudMsgs : list PointCloud2)
    : M (Node * Outcome) :=
  let node := called node in
  match cloudMsgs with
  | cloud0 :: ((_ :: _) as rest) =>
      if negb (Nat.eqb (get_subscription_count env) 0)
      then
        r <- align_reference env node cloud0 ;;
        match r with
        | None => ret (node, Returned)
        | Some (output, frameId) =>
            output <- combine_loop env node frameId cloud0 output rest ;;
            let rosCloud := moveFromPCL output in
            let rosCloud :=
              with_header rosCloud (mkHeader (stamp (header cloud0)) frameId) in
            publish rosCloud ;;;
            ret (node, Returned)
        end
      else ret (node, Returned)
  | _ => ret (node, AssertionFailed)
  end.

Definition clouds4_callback (env : Env) (node : Node)
    (cloudMsg_1 cloudMsg_2 cloudMsg_3 cloudMsg_4 : PointCloud2) : M (Node * Outcome) :=
  combineClouds env node [cloudMsg_1; cloudMsg_2; cloudMsg_3; cloudMsg_4].

Definition clouds3_callback (env : Env) (node : Node)
    (cloudMsg_1 cloudMsg_2 cloudMsg_3 : PointCloud2) : M (Node * Outcome) :=
  combineClouds env node [cloudMsg_1; cloudMsg_2; cloudMsg_3].

Definition clouds2_callback (env : Env) (node : Node)
    (cloudMsg_1 cloudMsg_2 : PointCloud2) : M (Node * Outcome) :=
  combineClouds env node [cloudMsg_1; cloudMsg_2].

(** The synchronizer hands the matched tuples to the callback one after the
    other; each comes with the surroundings at the time of its delivery.  An
    exception of [UASSERT] ends the run. *)
Fixpoint deliver (node : Node) (tuples : list (Env * list PointCloud2)) : M (Node * Outcome) :=
  match tuples with
  | [] => ret (node, Returned)
  | (env, cloudMsgs) :: tuples' =>
      r <- combineClouds env node cloudMsgs ;;
      match r with
      | (node', Returned) => deliver node' tuples'
      | (node', AssertionFailed) => ret (node', AssertionFailed)
      end
  end.

(** The clouds handed to the publisher, in order. *)
Fixpoint published (evs : list Event) : list PointCloud2 :=
  match evs with
  | [] => []
  | Publish c :: evs' => c :: published evs'
  | _ :: evs' => published evs'
  end.

(** The calls that do fusion work: a cloud transformed or concatenated. *)
Definition is_fusion_work (e : Event) : bool :=
  match e with
  | TransformCloud _ _ | Concatenate _ _ => true
  | _ => false
  end.

End Aggregator.

(** ** The buffer invariant and the accessors used in the statements *)

(** The field called [nm], if the cloud has one. *)
Definition lookup_field (c : PointCloud2) (nm : string) : option PointField :=
  let idx := getFieldIndex c nm in
  if idx <? 0 then None else fields c !! Z.to_nat idx.

Definition is_float32_field (c : PointCloud2) (nm : string) : bool :=
  match lookup_field c nm with
  | Some f => datatype f =? FLOAT32
  | None => false
  end.

(** The cloud has fields [x], [y] and [z], all of datatype [FLOAT32]. *)
Definition has_xyz (c : PointCloud2) : bool :=
  is_float32_field c "x" && is_float32_field c "y" && is_float32_field c "z".

(** Number of points, [width * height]. *)
Definition point_count (c : PointCloud2) : Z := width c * height c.

(** The float stored in field [nm] of the point of index [i]. *)
Definition point_float (c : PointCloud2) (nm : string) (i : Z) : option float32 :=
  match lookup_field c nm with
  | Some f => Some (load_float (data c) (i * point_step c + offset f))
  | None => None
  end.

(** Byte [k] of the record of the point of index [i]. *)
Definition record_byte (c : PointCloud2) (i k : Z) : byte :=
  load_byte (data c) (i * point_step c + k).

(** The bytes of a record that [transformPointCloud] reads or writes: four
    for each of [x], [y], [z] and [distance], twelve from [vp_x] on, as
    (offset, size). *)
Definition extent (c : PointCloud2) (nm : string) (size : Z) : list (Z * Z) :=
  match lookup_field c nm with
  | Some f => [(offset f, size)]
  | None => []
  end.

Definition spatial_extents (c : PointCloud2) : list (Z * Z) :=
  extent c "x" 4 ++ extent c "y" 4 ++ extent c "z" 4
  ++ extent c "distance" 4 ++ extent c "vp_x" 12.

Definition inside_record (c : PointCloud2) (e : Z * Z) : bool :=
  (0 <=? fst e) && (fst e + snd e <=? point_step c).

Definition apart (e1 e2 : Z * Z) : bool :=
  (fst e1 + snd e1 <=? fst e2) || (fst e2 + snd e2 <=? fst e1).

Fixpoint pairwise_apart (l : list (Z * Z)) : bool :=
  match l with
  | [] => true
  | e :: l' => forallb (apart e) l' && pairwise_apart l'
  end.

(** The invariant of a point buffer: [data] holds [width * height] records of
    [point_step] bytes, below the 2 GiB that an [int] offset can address, and
    the fields above lie inside a record without overlapping. *)
Definition buffer_ok (c : PointCloud2) : bool :=
  (Z.of_nat (length (data c)) =? point_step c * point_count c)
  && (Z.of_nat (length (data c)) <? 2^31)
  && (0 <=? width c) && (0 <=? height c)
  && forallb (inside_record c) (spatial_extents c)
  && pairwise_apart (spatial_extents c).

(** Whether byte [k] of a record belongs to the viewpoint group. *)
Definition in_viewpoint (c : PointCloud2) (k : Z) : bool :=
  match lookup_field c "vp_x" with
  | Some f => (offset f <=? k) && (k <? offset f + 12)
  | None => false
  end.

(** A subscript of the field table of [c] is valid. *)
Definition valid_field_index (c : PointCloud2) (idx : Z) : bool :=
  (0 <=? idx) && (idx <? Z.of_nat (length (fields c))).

(** Offsets of the point of index [i], as [xyz_offset] holds them at the
    start of iteration [i]. *)
Definition offsets_at (xo yo zo ps i : Z) : Array4i :=
  Arr4 (wrap_i32 (xo + i * ps)) (wrap_i32 (yo + i * ps)) (wrap_i32 (zo + i * ps))
       (wrap_i32 (i * ps)).

(** A sequence of float stores. *)
Definition apply_stores (ws : list (Z * float32)) (d : list byte) : list byte :=
  fold_left (fun d w => store_float d (fst w) (snd w)) ws d.

(** The first cloud of a tuple is brought to the reference frame: no lookup is
    needed, or the lookup answers a transform that is not null. *)
Definition reference_resolved {P : Platform} (env : Env) (node : Node)
    (cloud0 : PointCloud2) : bool :=
  string_empty (frameId_ node)
  || String.eqb (frameId_ node) (frame_id (header cloud0))
  || negb (isNull (getTransform env (frameId_ node) (frame_id (header cloud0))
                                (stamp (header cloud0)))).

(** The frame the fused cloud is expressed in: [frame_id_] when it is set,
    the frame of the first cloud otherwise. *)
Definition reference_frame (node : Node) (cloud0 : PointCloud2) : string :=
  if string_empty (frameId_ node) then frame_id (header cloud0) else frameId_ node.

(** The invariant in the form the proofs use it: [xo], [yo], [zo] are the
    offsets of [x], [y], [z]; [od] and [ov] those of [distance] and [vp_x]
    when the cloud has them. *)
Record layout (c : PointCloud2) (xo yo zo : Z) (od ov : option Z) : Prop := mkLayout {
  lay_len : Z.of_nat (length (data c)) = point_step c * point_count c;
  lay_small : Z.of_nat (length (data c)) < 2^31;
  lay_width : 0 <= width c;
  lay_height : 0 <= height c;
  lay_x : 0 <= xo /\ xo + 4 <= point_step c;
  lay_y : 0 <= yo /\ yo + 4 <= point_step c;
  lay_z : 0 <= zo /\ zo + 4 <= point_step c;
  lay_xy : xo + 4 <= yo \/ yo + 4 <= xo;
  lay_xz : xo + 4 <= zo \/ zo + 4 <= xo;
  lay_yz : yo + 4 <= zo \/ zo + 4 <= yo;
  lay_d : forall o, od = Some o ->
          (0 <= o /\ o + 4 <= point_step c)
          /\ (xo + 4 <= o \/ o + 4 <= xo)
          /\ (yo + 4 <= o \/ o + 4 <= yo)
          /\ (zo + 4 <= o \/ o + 4 <= zo);
  lay_v : forall o, ov = Some o ->
          (0 <= o /\ o + 12 <= point_step c)
          /\ (xo + 4 <= o \/ o + 12 <= xo)
          /\ (yo + 4 <= o \/ o + 12 <= yo)
          /\ (zo + 4 <= o \/ o + 12 <= zo)
          /\ (forall o', od = Some o' -> o' + 4 <= o \/ o + 12 <= o')
}.

(** ** Further accessors *)

(** Whether byte [k] of a record belongs to one of the fields that
    [transformPointCloud] reads or writes. *)
Definition in_spatial_extent (c : PointCloud2) (k : Z) : bool :=
  existsb (fun e => (fst e <=? k) && (k <? fst e + snd e)) (spatial_extents c).

(** The three floats that start at the offset of [vp_x] in the record of
    the point of index [i], as a homogeneous vector. *)
Definition viewpoint (c : PointCloud2) (i : Z) : option Vector4f :=
  match lookup_field c "vp_x" with
  | Some f =>
      let o := i * point_step c + offset f in
      Some (Vec4 (load_float (data c) o) (load_float (data c) (o + 4))
                 (load_float (data c) (o + 8)) F32.one)
  | None => None
  end.

Definition is_lookup {P : Platform} (e : Event) : bool :=
  match e with
  | LookupTransform _ _ _ | LookupDisplacement _ _ _ _ => true
  | _ => false
  end.

Definition is_displacement_lookup {P : Platform} (e : Event) : bool :=
  match e with
  | LookupDisplacement _ _ _ _ => true
  | _ => false
  end.

Definition is_transform {P : Platform} (e : Event) : bool :=
  match e with
  | TransformCloud _ _ => true
  | _ => false
  end.

Definition is_concatenate {P : Platform} (e : Event) : bool :=
  match e with
  | Concatenate _ _ => true
  | _ => false
  end.

(** How many events of a trace satisfy [p]. *)
Definition count_if {A} (p : A -> bool) (l : list A) : nat := length (List.filter p l).

(** ** The constructor of [PointCloudAggregator]

    The constructor reads five parameters, subscribes to two, three or four
    topics and creates one [message_filters::Synchronizer] over the
    subscribers, with [clouds2_callback], [clouds3_callback] or
    [clouds4_callback] registered on it. *)

(** The values the node is started with, for the parameters that are set:
    [declare_parameter (name, default)] answers the value set, and the
    default otherwise. *)
Record Overrides : Set := mkOverrides {
  queue_size_override : option Z;
  frame_id_override : option string;
  fixed_frame_id_override : option string;
  approx_sync_override : option bool;
  count_override : option Z
}.

Definition declare_parameter {A} (override : option A) (default_value : A) : A :=
  default default_value override.

Inductive SyncPolicy : Set := ApproximateTime | ExactTime.

(** The subscriber members. *)
Inductive Subscriber : Set := cloudSub_1_ | cloudSub_2_ | cloudSub_3_ | cloudSub_4_.

(** The member function bound by [registerCallback]. *)
Inductive Callback : Set :=
  bound_clouds2_callback | bound_clouds3_callback | bound_clouds4_callback.

(** [new message_filters::Synchronizer<Policy> (Policy (queueSize), subs...)]
    followed by [registerCallback]. *)
Record Synchronizer : Set := mkSynchronizer {
  sync_policy : SyncPolicy;
  sync_queue_size : Z;
  sync_inputs : list Subscriber;
  sync_callback : Callback
}.

(** The members the constructor sets. *)
Record Aggregator : Set := mkAggregator {
  node_name : string;
  members : Node;
  publisher_topic : string;
  subscriptions : list (Subscriber * string);
  exactSync4_ : option Synchronizer;
  approxSync4_ : option Synchronizer;
  exactSync3_ : option Synchronizer;
  approxSync3_ : option Synchronizer;
  exactSync2_ : option Synchronizer;
  approxSync2_ : option Synchronizer
}.

Definition PointCloudAggregator (options : Overrides) : Aggregator :=
  let queueSize := 5 in
  let count := 2 in
  let approx := true in
  let queueSize := declare_parameter (queue_size_override options) queueSize in
  let frameId := declare_parameter (frame_id_override options) "" in
  let fixedFrameId := declare_parameter (fixed_frame_id_override options) "" in
  let approx := declare_parameter (approx_sync_override options) approx in
  let count := declare_parameter (count_override options) count in
  let node := mkNode frameId fixedFrameId false in
  let subs := [(cloudSub_1_, "cloud1"); (cloudSub_2_, "cloud2")] in
  if count =? 4
  then
    let subs := subs ++ [(cloudSub_3_, "cloud3"); (cloudSub_4_, "cloud4")] in
    let inputs := [cloudSub_1_; cloudSub_2_; cloudSub_3_; cloudSub_4_] in
    if approx
    then mkAggregator "pointcloud_to_depthimage" node "combined_cloud" subs
           None (Some (mkSynchronizer ApproximateTime queueSize inputs bound_clouds4_callback))
           None None None None
    else mkAggregator "pointcloud_to_depthimage" node "combined_cloud" subs
           (Some (mkSynchronizer ExactTime queueSize inputs bound_clouds4_callback)) None
           None None None None
  else if count =? 3
  then
    let subs := subs ++ [(cloudSub_3_, "cloud3")] in
    let inputs := [cloudSub_1_; cloudSub_2_; cloudSub_3_] in
    if approx
    then mkAggregator "pointcloud_to_depthimage" node "combined_cloud" subs
           None None
           None (Some (mkSynchronizer ApproximateTime queueSize inputs bound_clouds3_callback))
           None None
    else mkAggregator "pointcloud_to_depthimage" node "combined_cloud" subs
           None None
           (Some (mkSynchronizer ExactTime queueSize inputs bound_clouds3_callback)) None
           None None
  else
    let inputs := [cloudSub_1_; cloudSub_2_] in
    if approx
    then mkAggregator "pointcloud_to_depthimage" node "combined_cloud" subs
           None None None None
           None (Some (mkSynchronizer ApproximateTime queueSize inputs bound_clouds2_callback))
    else mkAggregator "pointcloud_to_depthimage" node "combined_cloud" subs
           None None None None
           (Some (mkSynchronizer ExactTime queueSize inputs bound_clouds2_callback)) None.

(** The six synchronizer members, in the order of their declaration in the
    initializer list, and those of them that are not null. *)
Definition sync_members (a : Aggregator) : list (option Synchronizer) :=
  [exactSync4_ a; approxSync4_ a; exactSync3_ a; approxSync3_ a; exactSync2_ a; approxSync2_ a].

Definition synchronizers (a : Aggregator) : list Synchronizer :=
  omap id (sync_members a).

(** A call of the bound member function with the messages of one tuple. *)
Definition invoke {P : Platform} (cb : Callback) (env : Env) (node : Node)
    (msgs : list PointCloud2) : option (M (Node * Outcome)) :=
  match cb, msgs with
  | bound_clouds2_callback, [m1; m2] => Some (clouds2_callback env node m1 m2)
  | bound_clouds3_callback, [m1; m2; m3] => Some (clouds3_callback env node m1 m2 m3)
  | bound_clouds4_callback, [m1; m2; m3; m4] => Some (clouds4_callback env node m1 m2 m3 m4)
  | _, _ => None
  end.

(** A synchronizer signals a tuple of one message for each of its inputs. *)
Definition signal {P : Platform} (s : Synchronizer) (env : Env) (node : Node)
    (msgs : list PointCloud2) : option (M (Node * Outcome)) :=
  if (length msgs =? length (sync_inputs s))%nat
  then invoke (sync_callback s) env node msgs
  else None.

(** ** A reference platform

    IEEE binary32 arithmetic, and the collaborators after the documentation
    of their libraries: a [rtabmap::Transform] is a 3x4 matrix, null when all
    its entries are zero or one of them is a NaN; a [pcl::PCLPointCloud2] has
    the members of the message, with a stamp in microseconds;
    [pcl::concatenatePointCloud] appends the records of the second cloud to
    those of the first when the field tables agree.  It serves to run the
    model on concrete inputs. *)

Module Reference.

Record Transform34 : Set := mkTransform34 {
  t_row0 : Vector4f;
  t_row1 : Vector4f;
  t_row2 : Vector4f
}.

Definition is_zero (f : float32) : bool := F32.bits f mod 2^31 =? 0.

Definition vec_forall (p : float32 -> bool) (v : Vector4f) : bool :=
  p (v0 v) && p (v1 v) && p (v2 v) && p (v3 v).

Definition vec_exists (p : float32 -> bool) (v : Vector4f) : bool :=
  p (v0 v) || p (v1 v) || p (v2 v) || p (v3 v).

Definition null34 : Transform34 :=
  let z := Vec4 F32.zero F32.zero F32.zero F32.zero in mkTransform34 z z z.

Definition isNull34 (t : Transform34) : bool :=
  (vec_forall is_zero (t_row0 t) && vec_forall is_zero (t_row1 t) && vec_forall is_zero (t_row2 t))
  || vec_exists F32.isnan (t_row0 t) || vec_exists F32.isnan (t_row1 t)
  || vec_exists F32.isnan (t_row2 t).

Definition toEigen4f34 (t : Transform34) : Matrix4f :=
  Mat4 (t_row0 t) (t_row1 t) (t_row2 t) (Vec4 F32.zero F32.zero F32.zero F32.one).

(** The translation by [(x, y, z)]. *)
Definition translation (x y z : float32) : Transform34 :=
  mkTransform34 (Vec4 F32.one F32.zero F32.zero x)
                (Vec4 F32.zero F32.one F32.zero y)
                (Vec4 F32.zero F32.zero F32.one z).

Definition to_microseconds (c : PointCloud2) : PointCloud2 :=
  with_header c (mkHeader (mkTime (sec (stamp (header c)))
                                  (nanosec (stamp (header c)) / 1000 * 1000))
                          (frame_id (header c))).

Definition same_names (c1 c2 : PointCloud2) : bool :=
  (length (fields c1) =? length (fields c2))%nat
  && forallb (fun p => String.eqb (name (fst p)) (name (snd p)))
             (combine (fields c1) (fields c2)).

Definition pcl_concatenate (cloud1 cloud2 : PointCloud2) : PointCloud2 :=
  if (point_count cloud1 =? 0) && (0 <? point_count cloud2) then cloud2
  else if (0 <? point_count cloud1) && (point_count cloud2 =? 0) then cloud1
  else if negb (same_names cloud1 cloud2) then empty_cloud
  else
    mkPointCloud2 (header cloud1) 1 (point_count cloud1 + point_count cloud2)
      (fields cloud1) (is_bigendian cloud1) (point_step cloud1) (row_step cloud1)
      (data cloud1 ++ data cloud2) (is_dense cloud1 && is_dense cloud2).

(** What a stray read of the field table yields on this platform. *)
Definition garbage : PointField := mkPointField "" 0 0 0.

Definition platform : Platform :=
  mkPlatform F32.add F32.mul garbage
             Transform34 null34 isNull34 toEigen4f34
             PointCloud2 to_microseconds (fun c => c) pcl_concatenate.

(** Floats and clouds to run the model on. *)
Definition f0 : float32 := F32.zero.
Definition f1 : float32 := F32.one.
Definition f2 : float32 := F32.of_bits 0x40000000.
Definition f3 : float32 := F32.of_bits 0x40400000.
Definition f5 : float32 := F32.of_bits 0x40A00000.
Definition f7 : float32 := F32.of_bits 0x40E00000.
Definition fNaN : float32 := F32.quiet_NaN.

Definition bytes_of (f : float32) : list byte :=
  [F32.byte0 f; F32.byte1 f; F32.byte2 f; F32.byte3 f].

Definition floats (l : list float32) : list byte := concat (map bytes_of l).

(** The field table of records made of the floats called [names], packed
    in this order. *)
Definition field_table (names : list string) : list PointField :=
  imap (fun k nm => mkPointField nm (4 * Z.of_nat k) FLOAT32 1) names.

(** The cloud in frame [frame], stamped [sec] seconds, whose points are the
    rows of [pts], one float for each name. *)
Definition cloud_of (frame : string) (sec : Z) (names : list string)
    (pts : list (list float32)) : PointCloud2 :=
  mkPointCloud2 (mkHeader (mkTime sec 0) frame) 1 (Z.of_nat (length pts))
    (field_table names) false (4 * Z.of_nat (length names))
    (4 * Z.of_nat (length names) * Z.of_nat (length pts))
    (floats (concat pts)) true.

Definition xyz : list string := ["x"; "y"; "z"].
Definition xyzd : list string := ["x"; "y"; "z"; "distance"].
Definition xyzd_vp : list string := ["x"; "y"; "z"; "distance"; "vp_x"; "vp_y"; "vp_z"].
Definition yz : list string := ["y"; "z"].

(** A cloud of one point [(v, v, v)] with [distance] 5. *)
Definition one_point (frame : string) (sec : Z) (v : float32) : PointCloud2 :=
  cloud_of frame sec xyzd [[v; v; v; f5]].

(** A max-range point: [x] is a NaN and [distance] is 5. *)
Definition max_range_cloud : PointCloud2 := cloud_of "A" 1 xyzd [[fNaN; f0; f0; f5]].

(** An invalid point: [x] and [distance] are NaNs. *)
Definition invalid_cloud : PointCloud2 := cloud_of "A" 1 xyzd [[fNaN; f1; f2; fNaN]].

(** An invalid point with the viewpoint [(0, 0, 0)]. *)
Definition invalid_cloud_vp : PointCloud2 :=
  cloud_of "A" 1 xyzd_vp [[fNaN; f0; f0; fNaN; f0; f0; f0]].

(** A cloud whose records have no [x], and one whose records have no
    [distance]. *)
Definition cloud_without_x : PointCloud2 := cloud_of "A" 1 yz [[f1; f1]].
Definition cloud_without_distance : PointCloud2 := cloud_of "A" 1 xyz [[f1; f1; f1]].

(** Surroundings with [n] subscribers where every lookup answers [t]. *)
Definition env_const (n : nat) (t : Transform34) : @Env platform :=
  @mkEnv platform n (fun _ _ _ => t) (fun _ _ _ _ => t).

(** Surroundings where the lookups between frames answer [t] and the
    displacement lookups answer [t']. *)
Definition env_of (n : nat) (t t' : Transform34) : @Env platform :=
  @mkEnv platform n (fun _ _ _ => t) (fun _ _ _ _ => t').

End Reference.


(** ** Reasoning about the byte buffer *)

Section Memory.
Implicit Types (d : list byte) (k : Z) (b : byte) (f : float32).

Lemma length_store_byte d k b : length (store_byte d k b) = length d.
Proof. unfold store_byte. destruct (0 <=? k); [apply length_insert | reflexivity]. Qed.

Lemma load_store_byte_eq d k b :
  0 <= k < Z.of_nat (length d) -> load_byte (store_byte d k b) k = b.
Proof.
  intros [Hlo Hhi]. unfold load_byte, store_byte.
  rewrite (proj2 (Z.leb_le 0 k) Hlo).
  rewrite list_lookup_insert_eq by lia. reflexivity.
Qed.

Lemma load_store_byte_ne d k k' b :
  k <> k' -> load_byte (store_byte d k b) k' = load_byte d k'.
Proof.
  intros Hne. unfold load_byte, store_byte.
  destruct (0 <=? k') eqn:Hk'; [|reflexivity].
  destruct (0 <=? k) eqn:Hk; [|reflexivity].
  apply Z.leb_le in Hk, Hk'.
  rewrite list_lookup_insert_ne by lia. reflexivity.
Qed.

Lemma store_byte_load d k : store_byte d k (load_byte d k) = d.
Proof.
  unfold load_byte, store_byte. destruct (0 <=? k); [|reflexivity].
  destruct (d !! Z.to_nat k) as [b|] eqn:E; simpl.
  - apply list_insert_id, E.
  - apply list_insert_ge. apply lookup_ge_None, E.
Qed.

Lemma load_store_byte_congr d d' k k' b :
  length d = length d' ->
  load_byte d k' = load_byte d' k' ->
  load_byte (store_byte d k b) k' = load_byte (store_byte d' k b) k'.
Proof.
  intros Hlen Hk'. destruct (Z.eq_dec k k') as [->|Hne].
  - unfold load_byte, store_byte in *. destruct (0 <=? k') eqn:E; [|reflexivity].
    apply Z.leb_le in E.
    destruct (decide (Z.to_nat k' < length d)%nat) as [Hin|Hout].
    + rewrite !list_lookup_insert_eq by lia. reflexivity.
    + rewrite !list_insert_ge by lia. exact Hk'.
  - rewrite !load_store_byte_ne by assumption. exact Hk'.
Qed.

Lemma length_store_float d k f : length (store_float d k f) = length d.
Proof. unfold store_float. rewrite !length_store_byte. reflexivity. Qed.

Lemma load_byte_store_float_out d k k' f :
  k' < k \/ k + 4 <= k' -> load_byte (store_float d k f) k' = load_byte d k'.
Proof.
  intros H. unfold store_float. rewrite !load_store_byte_ne by lia. reflexivity.
Qed.

Lemma load_byte_store_float_congr d d' k k' f :
  length d = length d' ->
  load_byte d k' = load_byte d' k' ->
  load_byte (store_float d k f) k' = load_byte (store_float d' k f) k'.
Proof.
  intros Hlen Hk'. unfold store_float.
  repeat (apply load_store_byte_congr; [rewrite ?length_store_byte; exact Hlen|]).
  exact Hk'.
Qed.

Lemma load_store_float_eq d k f :
  0 <= k -> k + 4 <= Z.of_nat (length d) -> load_float (store_float d k f) k = f.
Proof.
  intros Hlo Hhi. destruct f as [f0 f1 f2 f3]. unfold load_float, store_float; simpl.
  f_equal.
  - rewrite !load_store_byte_ne by lia. apply load_store_byte_eq. lia.
  - rewrite !load_store_byte_ne by lia. apply load_store_byte_eq.
    rewrite length_store_byte. lia.
  - rewrite !load_store_byte_ne by lia. apply load_store_byte_eq.
    rewrite !length_store_byte. lia.
  - apply load_store_byte_eq. rewrite !length_store_byte. lia.
Qed.

Lemma load_store_float_ne d k k' f :
  k' + 4 <= k \/ k + 4 <= k' -> load_float (store_float d k f) k' = load_float d k'.
Proof.
  intros H. unfold load_float. rewrite !load_byte_store_float_out by lia. reflexivity.
Qed.

Lemma store_float_load d k : store_float d k (load_float d k) = d.
Proof. unfold store_float, load_float; simpl. rewrite !store_byte_load. reflexivity. Qed.

(** Two buffers hold the same float where they hold the same four bytes. *)
Lemma load_float_ext d d' k :
  (forall k', k <= k' < k + 4 -> load_byte d k' = load_byte d' k') ->
  load_float d k = load_float d' k.
Proof. intros H. unfold load_float. rewrite !H by lia. reflexivity. Qed.
End Memory.

(** ** Machine integers *)

Lemma wrap_i32_small v : - 2^31 <= v < 2^31 -> wrap_i32 v = v.
Proof. intros H. unfold wrap_i32. rewrite Z.mod_small by lia. lia. Qed.

Lemma wrap_u32_small v : 0 <= v < 2^32 -> wrap_u32 v = v.
Proof. intros H. unfold wrap_u32. apply Z.mod_small. lia. Qed.

Lemma wrap_size_t_small v : 0 <= v < 2^64 -> wrap_size_t v = v.
Proof. intros H. unfold wrap_size_t. apply Z.mod_small. lia. Qed.

Lemma wrap_i32_add a b : wrap_i32 (wrap_i32 a + wrap_i32 b) = wrap_i32 (a + b).
Proof.
  unfold wrap_i32. f_equal.
  rewrite (Z.mod_eq (a + 2^31) (2^32)), (Z.mod_eq (b + 2^31) (2^32)) by lia.
  replace (a + 2 ^ 31 - 2 ^ 32 * ((a + 2 ^ 31) / 2 ^ 32) - 2 ^ 31
           + (b + 2 ^ 31 - 2 ^ 32 * ((b + 2 ^ 31) / 2 ^ 32) - 2 ^ 31) + 2 ^ 31)
    with (a + b + 2^31 + (- ((a + 2 ^ 31) / 2 ^ 32) - ((b + 2 ^ 31) / 2 ^ 32)) * 2^32) by ring.
  apply Z.mod_add. lia.
Qed.

Lemma offsets_at_0 xo yo zo ps :
  offsets_at xo yo zo ps 0 = Arr4 (wrap_i32 xo) (wrap_i32 yo) (wrap_i32 zo) 0.
Proof. unfold offsets_at. rewrite !Z.mul_0_l, !Z.add_0_r. reflexivity. Qed.

Lemma offsets_at_succ xo yo zo ps i :
  Array4i_add_scalar (offsets_at xo yo zo ps i) (wrap_i32 ps) = offsets_at xo yo zo ps (i + 1).
Proof.
  unfold Array4i_add_scalar, offsets_at; simpl.
  rewrite !wrap_i32_add. f_equal; f_equal; ring.
Qed.

(** ** The field table *)

Lemma find_field_range fs nm d :
  find_field fs nm d = -1 \/ d <= find_field fs nm d < d + Z.of_nat (length fs).
Proof.
  revert d. induction fs as [|f fs IH]; intros d; simpl.
  - left; reflexivity.
  - destruct (String.eqb (name f) nm).
    + right. lia.
    + destruct (IH (d + 1)) as [H|H]; [left; exact H | right; lia].
Qed.

Lemma find_field_lookup fs nm d :
  0 <= d -> find_field fs nm d <> -1 ->
  exists f, fs !! Z.to_nat (find_field fs nm d - d) = Some f /\ name f = nm.
Proof.
  revert d. induction fs as [|f fs IH]; intros d Hd Hne; simpl in *.
  - congruence.
  - destruct (String.eqb (name f) nm) eqn:E.
    + exists f. rewrite Z.sub_diag. split; [reflexivity | apply String.eqb_eq, E].
    + destruct (IH (d + 1) ltac:(lia) Hne) as (g & Hg & Hn).
      exists g. split; [|exact Hn].
      destruct (find_field_range fs nm (d + 1)) as [H|H]; [congruence|].
      replace (Z.to_nat (find_field fs nm (d + 1) - d))
        with (S (Z.to_nat (find_field fs nm (d + 1) - (d + 1)))) by lia.
      exact Hg.
Qed.

Lemma getFieldIndex_range c nm :
  getFieldIndex c nm = -1 \/ 0 <= getFieldIndex c nm < Z.of_nat (length (fields c)).
Proof. unfold getFieldIndex. destruct (find_field_range (fields c) nm 0); [left|right]; lia. Qed.

Lemma lookup_field_None c nm : lookup_field c nm = None -> getFieldIndex c nm = -1.
Proof.
  unfold lookup_field. intros H.
  destruct (getFieldIndex_range c nm) as [E|E]; [exact E|].
  destruct (getFieldIndex c nm <? 0) eqn:L; [apply Z.ltb_lt in L; lia|].
  apply lookup_ge_None in H. lia.
Qed.

Lemma lookup_field_Some c nm f :
  lookup_field c nm = Some f ->
  0 <= getFieldIndex c nm < Z.of_nat (length (fields c))
  /\ fields c !! Z.to_nat (getFieldIndex c nm) = Some f.
Proof.
  unfold lookup_field. intros H.
  destruct (getFieldIndex c nm <? 0) eqn:L; [discriminate|].
  apply Z.ltb_ge in L. split; [|exact H].
  destruct (getFieldIndex_range c nm); lia.
Qed.

Lemma field_at_lookup stray c nm f :
  lookup_field c nm = Some f -> field_at stray (fields c) (getFieldIndex c nm) = f.
Proof.
  intros H. apply lookup_field_Some in H as [[Hlo _] Hf].
  unfold field_at. rewrite (proj2 (Z.leb_le _ _) Hlo), Hf. reflexivity.
Qed.

Lemma lookup_field_fields c c' nm :
  fields c' = fields c -> lookup_field c' nm = lookup_field c nm.
Proof. intros H. unfold lookup_field, getFieldIndex. rewrite H. reflexivity. Qed.

Ltac split_Forall :=
  repeat match goal with
         | |- Forall _ (_ :: _) => constructor
         | |- Forall _ [] => constructor
         end.

(** ** Sequences of stores *)

Lemma length_apply_stores ws d : length (apply_stores ws d) = length d.
Proof.
  revert d. induction ws as [|w ws IH]; intros d; simpl; [reflexivity|].
  unfold apply_stores in *. simpl. rewrite IH. apply length_store_float.
Qed.

Lemma apply_stores_frame ws d k :
  Forall (fun w => k < fst w \/ fst w + 4 <= k) ws ->
  load_byte (apply_stores ws d) k = load_byte d k.
Proof.
  revert d. induction ws as [|w ws IH]; intros d H; [reflexivity|].
  inversion H as [|? ? Hw Hws]; subst.
  unfold apply_stores in *. simpl. rewrite IH by exact Hws.
  apply load_byte_store_float_out. exact Hw.
Qed.

Lemma apply_stores_congr ws d d' k :
  length d = length d' ->
  load_byte d k = load_byte d' k ->
  load_byte (apply_stores ws d) k = load_byte (apply_stores ws d') k.
Proof.
  revert d d'. induction ws as [|w ws IH]; intros d d' Hlen Hk; [exact Hk|].
  unfold apply_stores in *. simpl. apply IH.
  - rewrite !length_store_float. exact Hlen.
  - apply load_byte_store_float_congr; assumption.
Qed.

(** ** One iteration of the loop over the points *)

Section PointLoop.
Variables fadd fmul : float32 -> float32 -> float32.
Variable stray : PointField.
Variable transform : Matrix4f.
Variable in_ : PointCloud2.
Variable dist_idx : Z.

Abbreviation step := (transform_point fadd fmul stray transform in_ dist_idx).
Abbreviation loop := (points_loop fadd fmul stray transform in_ dist_idx).
Abbreviation dist_offset i :=
  (wrap_i32 (wrap_size_t (i * point_step in_
                          + offset (field_at stray (fields in_) dist_idx)))).

Lemma transform_point_offsets i st :
  xyz_offset (step i st) = Array4i_add_scalar (xyz_offset st) (wrap_i32 (point_step in_)).
Proof.
  unfold transform_point.
  repeat match goal with |- context [let '(_, _) := ?e in _] => destruct e end.
  reflexivity.
Qed.

Lemma transform_point_reads i st :
  field_reads (step i st) = field_reads st ++ [dist_idx].
Proof.
  unfold transform_point.
  repeat match goal with |- context [let '(_, _) := ?e in _] => destruct e end.
  reflexivity.
Qed.

(** The stores of an iteration are decided by [in_], the index and the
    offsets, not by the bytes of [out]. *)
Lemma transform_point_stores i xyz :
  exists ws,
    (forall d log, out_data (step i (mkLoopState d xyz log)) = apply_stores ws d)
    /\ Forall (fun w => fst w = a0 xyz \/ fst w = a1 xyz \/ fst w = a2 xyz
                        \/ (0 <= dist_idx /\ fst w = dist_offset i)) ws.
Proof.
  unfold transform_point. cbn [xyz_offset out_data field_reads].
  destruct (negb (F32.isfinite (v0 _)) || _ || _).
  - destruct (dist_idx <? 0) eqn:Hdi.
    + eexists [(_, _); (_, _); (_, _)]. split; [intros; reflexivity|].
      split_Forall; cbn [fst snd]; auto 7.
    + apply Z.ltb_ge in Hdi.
      destruct (negb (F32.isfinite (load_float _ _))).
      * eexists [(_, _); (_, _); (_, _)]. split; [intros; reflexivity|].
        split_Forall; cbn [fst snd]; auto 7.
      * eexists [(_, _); (_, _); (_, _); (_, _)]. split; [intros; reflexivity|].
        split_Forall; cbn [fst snd]; auto 7.
  - eexists [(_, _); (_, _); (_, _)]. split; [intros; reflexivity|].
    split_Forall; cbn [fst snd]; auto 7.
Qed.

Lemma transform_point_length i st :
  length (out_data (step i st)) = length (out_data st).
Proof.
  destruct st as [d xyz log].
  destruct (transform_point_stores i xyz) as (ws & Hws & _).
  rewrite Hws. apply length_apply_stores.
Qed.

Lemma transform_point_congr i xyz d d' log log' k :
  length d = length d' ->
  load_byte d k = load_byte d' k ->
  load_byte (out_data (step i (mkLoopState d xyz log))) k
  = load_byte (out_data (step i (mkLoopState d' xyz log'))) k.
Proof.
  intros Hlen Hk.
  destruct (transform_point_stores i xyz) as (ws & Hws & _).
  rewrite !Hws. apply apply_stores_congr; assumption.
Qed.

End PointLoop.

(** ** The loop over the points

    Under the buffer invariant, iteration [j] touches the bytes of record [j]
    only, and what it leaves there is decided by [in_]. *)

Section PointLoopInvariant.
Variables fadd fmul : float32 -> float32 -> float32.
Variable stray : PointField.
Variable transform : Matrix4f.
Variable in_ : PointCloud2.
Variable dist_idx : Z.
Variables xo yo zo N : Z.

Abbreviation ps := (point_step in_).
Abbreviation doff := (offset (field_at stray (fields in_) dist_idx)).
Abbreviation step := (transform_point fadd fmul stray transform in_ dist_idx).
Abbreviation loop := (points_loop fadd fmul stray transform in_ dist_idx).
Abbreviation offs := (offsets_at xo yo zo (point_step in_)).

Hypothesis Hx : 0 <= xo /\ xo + 4 <= ps.
Hypothesis Hy : 0 <= yo /\ yo + 4 <= ps.
Hypothesis Hz : 0 <= zo /\ zo + 4 <= ps.
Hypothesis Hd : 0 <= dist_idx -> 0 <= doff /\ doff + 4 <= ps.
Hypothesis Hsize : 0 <= N /\ N * ps < 2^31.

Lemma record_bounds j : 0 <= j < N -> 0 <= j * ps /\ (j + 1) * ps <= N * ps.
Proof. intros Hj. split; nia. Qed.

Lemma offsets_at_exact j :
  0 <= j < N ->
  offs j = Arr4 (xo + j * ps) (yo + j * ps) (zo + j * ps) (j * ps).
Proof.
  intros Hj. pose proof (record_bounds j Hj) as Hb.
  unfold offsets_at. rewrite !wrap_i32_small by lia. reflexivity.
Qed.

Lemma dist_offset_exact j :
  0 <= j < N -> 0 <= dist_idx ->
  wrap_i32 (wrap_size_t (j * ps + doff)) = j * ps + doff.
Proof.
  intros Hj Hdi. pose proof (record_bounds j Hj) as Hb. specialize (Hd Hdi).
  rewrite wrap_size_t_small by lia. apply wrap_i32_small. lia.
Qed.

Lemma transform_point_frame j d log k :
  0 <= j < N -> k < j * ps \/ (j + 1) * ps <= k ->
  load_byte (out_data (step j (mkLoopState d (offs j) log))) k = load_byte d k.
Proof.
  intros Hj Hk.
  destruct (transform_point_stores fadd fmul stray transform in_ dist_idx j (offs j))
    as (ws & Hws & Hoff).
  rewrite Hws. apply apply_stores_frame.
  rewrite offsets_at_exact in Hoff by exact Hj. cbn [a0 a1 a2] in Hoff.
  eapply Forall_impl; [exact Hoff|].
  intros w [E|[E|[E|[Hdi E]]]]; cbn beta in *.
  - lia.
  - lia.
  - lia.
  - rewrite dist_offset_exact in E by assumption. specialize (Hd Hdi). lia.
Qed.

Lemma points_loop_inv n : forall i st,
  0 <= i -> i + Z.of_nat n <= N -> xyz_offset st = offs i ->
  length (out_data (loop n i st)) = length (out_data st)
  /\ (forall k, k < i * ps \/ (i + Z.of_nat n) * ps <= k ->
        load_byte (out_data (loop n i st)) k = load_byte (out_data st) k)
  /\ (forall j k, i <= j < i + Z.of_nat n -> j * ps <= k < (j + 1) * ps ->
        load_byte (out_data (loop n i st)) k
        = load_byte (out_data (step j (mkLoopState (out_data st) (offs j) []))) k)
  /\ field_reads (loop n i st) = field_reads st ++ repeat dist_idx n.
Proof.
  induction n as [|n IH]; intros i st Hi Hn Hxyz.
  - cbn [points_loop repeat]. rewrite app_nil_r. repeat split; intros; try reflexivity; lia.
  - cbn [points_loop].
    assert (Hps : 0 < ps) by lia.
    assert (Hi' : 0 <= i < N) by lia.
    destruct st as [d xyz log]. cbn [xyz_offset out_data field_reads] in *. subst xyz.
    set (st1 := step i (mkLoopState d (offs i) log)).
    assert (Hxyz1 : xyz_offset st1 = offs (i + 1)).
    { unfold st1. rewrite transform_point_offsets. apply offsets_at_succ. }
    destruct (IH (i + 1) st1 ltac:(lia) ltac:(lia) Hxyz1) as (Hlen & Hframe & Hrec & Hreads).
    assert (Hlen1 : length (out_data st1) = length d).
    { unfold st1. apply transform_point_length. }
    repeat split.
    + rewrite Hlen. exact Hlen1.
    + intros k Hk. rewrite Hframe by nia.
      unfold st1. apply transform_point_frame; [exact Hi' | nia].
    + intros j k Hj Hk. destruct (Z.eq_dec j i) as [->|Hne].
      * rewrite Hframe by nia. unfold st1.
        apply transform_point_congr; reflexivity.
      * rewrite (Hrec j k) by (try lia; exact Hk).
        apply transform_point_congr; [exact Hlen1|].
        unfold st1. apply transform_point_frame; [exact Hi' | nia].
    + rewrite Hreads. unfold st1. rewrite transform_point_reads.
      cbn [field_reads repeat]. rewrite <- app_assoc. reflexivity.
Qed.

End PointLoopInvariant.

(** ** The loop over the viewpoints *)

Section ViewpointLoop.
Variables fadd fmul : float32 -> float32 -> float32.
Variable stray : PointField.
Variable transform : Matrix4f.
Variable out : PointCloud2.
Variable vp_idx : Z.
Variable N : Z.

Abbreviation vps := (point_step out).
Abbreviation voff := (offset (field_at stray (fields out) vp_idx)).
Abbreviation vstep := (transform_viewpoint fadd fmul stray transform out vp_idx).
Abbreviation vloop := (viewpoints_loop fadd fmul stray transform out vp_idx).

Hypothesis Hv : 0 <= voff /\ voff + 12 <= vps.
Hypothesis Hsize : 0 <= N /\ N * vps < 2^31.

Lemma transform_viewpoint_frame i st :
  0 <= i < N ->
  length (fst (vstep i st)) = length (fst st)
  /\ (forall k, k < i * vps + voff \/ i * vps + voff + 12 <= k ->
        load_byte (fst (vstep i st)) k = load_byte (fst st) k)
  /\ snd (vstep i st) = snd st ++ [vp_idx].
Proof.
  intros Hi. destruct st as [d reads]. unfold transform_viewpoint. cbn [fst snd].
  assert (Hb : 0 <= i * vps /\ (i + 1) * vps <= N * vps) by (split; nia).
  rewrite wrap_size_t_small by lia.
  repeat split.
  - rewrite !length_store_float. reflexivity.
  - intros k Hk. rewrite !load_byte_store_float_out by lia. reflexivity.
Qed.

Lemma viewpoints_loop_frame n : forall i st,
  0 <= i -> i + Z.of_nat n <= N ->
  length (fst (vloop n i st)) = length (fst st)
  /\ (forall k,
        (forall j, i <= j < i + Z.of_nat n ->
                   k < j * vps + voff \/ j * vps + voff + 12 <= k) ->
        load_byte (fst (vloop n i st)) k = load_byte (fst st) k)
  /\ snd (vloop n i st) = snd st ++ repeat vp_idx n.
Proof.
  induction n as [|n IH]; intros i st Hi Hn.
  - cbn [viewpoints_loop repeat]. rewrite app_nil_r. repeat split; reflexivity.
  - cbn [viewpoints_loop].
    destruct (transform_viewpoint_frame i st ltac:(lia)) as (Hlen1 & Hframe1 & Hreads1).
    destruct (IH (i + 1) (vstep i st) ltac:(lia) ltac:(lia)) as (Hlen & Hframe & Hreads).
    repeat split.
    + rewrite Hlen. exact Hlen1.
    + intros k Hk. rewrite Hframe by (intros j Hj; apply Hk; lia).
      apply Hframe1. apply Hk. lia.
    + rewrite Hreads, Hreads1. cbn [repeat]. rewrite <- app_assoc. reflexivity.
Qed.

End ViewpointLoop.

(** ** From the boolean invariant to the layout *)

Ltac bool_hyps :=
  repeat match goal with
         | H : _ && _ = true |- _ => apply andb_prop in H; destruct H
         | H : _ || _ = true |- _ => apply orb_prop in H
         | H : (_ <=? _) = true |- _ => apply Z.leb_le in H
         | H : (_ <? _) = true |- _ => apply Z.ltb_lt in H
         | H : (_ =? _) = true |- _ => apply Z.eqb_eq in H
         | H : (_ <=? _) = true \/ (_ <=? _) = true |- _ =>
             rewrite !Z.leb_le in H
         end.

Lemma has_xyz_fields c :
  has_xyz c = true ->
  exists fx fy fz,
    (lookup_field c "x" = Some fx /\ datatype fx = FLOAT32)
    /\ (lookup_field c "y" = Some fy /\ datatype fy = FLOAT32)
    /\ (lookup_field c "z" = Some fz /\ datatype fz = FLOAT32).
Proof.
  unfold has_xyz, is_float32_field. intros H.
  destruct (lookup_field c "x") as [fx|]; [|discriminate].
  destruct (lookup_field c "y") as [fy|]; [|rewrite andb_false_r in H; discriminate].
  destruct (lookup_field c "z") as [fz|]; [|rewrite andb_false_r in H; discriminate].
  bool_hyps. exists fx, fy, fz. repeat split; assumption.
Qed.

Lemma buffer_ok_layout c fx fy fz :
  buffer_ok c = true ->
  lookup_field c "x" = Some fx ->
  lookup_field c "y" = Some fy ->
  lookup_field c "z" = Some fz ->
  layout c (offset fx) (offset fy) (offset fz)
         (offset <$> lookup_field c "distance") (offset <$> lookup_field c "vp_x").
Proof.
  unfold buffer_ok, spatial_extents, extent. intros H Hx Hy Hz.
  rewrite Hx, Hy, Hz in H.
  destruct (lookup_field c "distance") as [fd|], (lookup_field c "vp_x") as [fv|];
    cbn [app forallb pairwise_apart inside_record apart fst snd fmap option_fmap option_map] in *;
    rewrite ?andb_true_r in H; bool_hyps;
    unfold inside_record, apart in *; cbn [fst snd] in *; bool_hyps;
    (constructor; try lia;
     intros o Ho; try discriminate; injection Ho as <-;
     repeat split; try lia;
     intros o' Ho'; try discriminate; injection Ho' as <-; lia).
Qed.

(** ** [transformPointCloud] as a whole *)

Section TransformSpec.
Variables fadd fmul : float32 -> float32 -> float32.
Variable stray : PointField.

Abbreviation tpc := (transformPointCloud fadd fmul stray).

Lemma getFieldIndex_eqb c nm :
  (getFieldIndex c nm =? -1) = match lookup_field c nm with Some _ => false | None => true end.
Proof.
  destruct (lookup_field c nm) as [f|] eqn:E.
  - apply lookup_field_Some in E as [E _]. apply Z.eqb_neq. lia.
  - apply lookup_field_None in E. rewrite E. reflexivity.
Qed.

Lemma getFieldIndex_nonneg c nm :
  0 <= getFieldIndex c nm -> exists f, lookup_field c nm = Some f.
Proof.
  intros H. destruct (lookup_field c nm) as [f|] eqn:E; [exists f; reflexivity|].
  apply lookup_field_None in E. lia.
Qed.

(** Without three float fields [x], [y], [z] the function returns before it
    touches [out]. *)
Lemma transformPointCloud_rejects transform in_ out :
  has_xyz in_ = false -> fst (tpc transform in_ out) = out.
Proof.
  intros H. unfold transformPointCloud. cbv zeta. rewrite !getFieldIndex_eqb.
  unfold has_xyz, is_float32_field in H.
  destruct (lookup_field in_ "x") as [fx|] eqn:Ex; [|reflexivity].
  destruct (lookup_field in_ "y") as [fy|] eqn:Ey; [|reflexivity].
  destruct (lookup_field in_ "z") as [fz|] eqn:Ez; [|reflexivity].
  cbn [orb].
  rewrite (field_at_lookup stray _ _ _ Ex), (field_at_lookup stray _ _ _ Ey),
          (field_at_lookup stray _ _ _ Ez).
  destruct (datatype fx =? FLOAT32); [|reflexivity].
  destruct (datatype fy =? FLOAT32); [|reflexivity].
  destruct (datatype fz =? FLOAT32); [discriminate|reflexivity].
Qed.

Lemma transformPointCloud_unfold transform in_ out fx fy fz :
  lookup_field in_ "x" = Some fx -> datatype fx = FLOAT32 ->
  lookup_field in_ "y" = Some fy -> datatype fy = FLOAT32 ->
  lookup_field in_ "z" = Some fz -> datatype fz = FLOAT32 ->
  tpc transform in_ out =
    let x_idx := getFieldIndex in_ "x" in
    let y_idx := getFieldIndex in_ "y" in
    let z_idx := getFieldIndex in_ "z" in
    let st := points_loop fadd fmul stray transform in_ (getFieldIndex in_ "distance")
                (Z.to_nat (wrap_u32 (width in_ * height in_))) 0
                (mkLoopState (data in_)
                   (Arr4 (wrap_i32 (offset fx)) (wrap_i32 (offset fy)) (wrap_i32 (offset fz)) 0)
                   [x_idx; y_idx; z_idx; x_idx; y_idx; z_idx]) in
    match lookup_field in_ "vp_x" with
    | Some _ =>
        let r := viewpoints_loop fadd fmul stray transform in_ (getFieldIndex in_ "vp_x")
                   (Z.to_nat (wrap_u32 (width in_ * height in_))) 0
                   (out_data st, field_reads st) in
        (with_data in_ (fst r), snd r)
    | None => (with_data in_ (out_data st), field_reads st)
    end.
Proof.
  intros Ex Dx Ey Dy Ez Dz. unfold transformPointCloud. cbv zeta.
  rewrite !getFieldIndex_eqb, Ex, Ey, Ez. cbn [orb].
  rewrite (field_at_lookup stray _ _ _ Ex), (field_at_lookup stray _ _ _ Ey),
          (field_at_lookup stray _ _ _ Ez), Dx, Dy, Dz.
  cbn [Z.eqb Pos.eqb FLOAT32 negb orb app].
  destruct (lookup_field in_ "vp_x"); cbn [negb].
  - destruct (viewpoints_loop _ _ _ _ _ _ _ _ _). reflexivity.
  - reflexivity.
Qed.

Lemma point_count_bounds c xo yo zo od ov :
  layout c xo yo zo od ov ->
  0 <= point_count c /\ point_count c * point_step c < 2^31
  /\ wrap_u32 (width c * height c) = point_count c.
Proof.
  intros L. destruct L. unfold point_count in *.
  assert (0 <= width c * height c) by nia.
  assert (width c * height c * point_step c < 2^31) by lia.
  repeat split; try lia.
  apply wrap_u32_small. nia.
Qed.

(** Outside the viewpoint group, record [j] of the result holds what
    iteration [j] of the first loop stores into the bytes of [in_]. *)
Lemma transformPointCloud_record transform in_ out fx fy fz :
  buffer_ok in_ = true ->
  lookup_field in_ "x" = Some fx -> datatype fx = FLOAT32 ->
  lookup_field in_ "y" = Some fy -> datatype fy = FLOAT32 ->
  lookup_field in_ "z" = Some fz -> datatype fz = FLOAT32 ->
  let r := fst (tpc transform in_ out) in
  r = with_data in_ (data r)
  /\ length (data r) = length (data in_)
  /\ forall j k,
       0 <= j < point_count in_ -> 0 <= k < point_step in_ ->
       in_viewpoint in_ k = false ->
       load_byte (data r) (j * point_step in_ + k)
       = load_byte
           (out_data
              (transform_point fadd fmul stray transform in_ (getFieldIndex in_ "distance") j
                 (mkLoopState (data in_)
                    (Arr4 (offset fx + j * point_step in_) (offset fy + j * point_step in_)
                          (offset fz + j * point_step in_) (j * point_step in_)) [])))
           (j * point_step in_ + k).
Proof.
  intros Hok Ex Dx Ey Dy Ez Dz.
  pose proof (buffer_ok_layout _ _ _ _ Hok Ex Ey Ez) as L.
  destruct (point_count_bounds _ _ _ _ _ _ L) as (HN0 & HNps & Hwrap).
  rewrite (transformPointCloud_unfold _ _ _ _ _ _ Ex Dx Ey Dy Ez Dz).
  cbv zeta. rewrite Hwrap.
  set (di := getFieldIndex in_ "distance").
  assert (Hd : 0 <= di ->
               0 <= offset (field_at stray (fields in_) di)
               /\ offset (field_at stray (fields in_) di) + 4 <= point_step in_).
  { intros Hdi. destruct (getFieldIndex_nonneg _ _ Hdi) as (fd & Ed).
    unfold di. rewrite (field_at_lookup stray _ _ _ Ed).
    apply (lay_d _ _ _ _ _ _ L). rewrite Ed. reflexivity. }
  pose proof (points_loop_inv fadd fmul stray transform in_ di
                (offset fx) (offset fy) (offset fz) (point_count in_)
                (lay_x _ _ _ _ _ _ L) (lay_y _ _ _ _ _ _ L) (lay_z _ _ _ _ _ _ L)
                Hd (conj HN0 HNps) (Z.to_nat (point_count in_)) 0
                (mkLoopState (data in_)
                   (Arr4 (wrap_i32 (offset fx)) (wrap_i32 (offset fy)) (wrap_i32 (offset fz)) 0)
                   [getFieldIndex in_ "x"; getFieldIndex in_ "y"; getFieldIndex in_ "z";
                    getFieldIndex in_ "x"; getFieldIndex in_ "y"; getFieldIndex in_ "z"])
                ltac:(lia) ltac:(lia) ltac:(symmetry; apply offsets_at_0))
    as (Hlen & _ & Hrec & _).
  set (st := points_loop _ _ _ _ _ _ _ _ _) in *.
  cbn [out_data] in Hlen, Hrec.
  assert (Hrec' : forall j k,
             0 <= j < point_count in_ -> 0 <= k < point_step in_ ->
             load_byte (out_data st) (j * point_step in_ + k)
             = load_byte
                 (out_data
                    (transform_point fadd fmul stray transform in_ di j
                       (mkLoopState (data in_)
                          (Arr4 (offset fx + j * point_step in_) (offset fy + j * point_step in_)
                                (offset fz + j * point_step in_) (j * point_step in_)) [])))
                 (j * point_step in_ + k)).
  { intros j k Hj Hk. rewrite (Hrec j) by lia.
    rewrite (offsets_at_exact in_ (offset fx) (offset fy) (offset fz) (point_count in_)
               (lay_x _ _ _ _ _ _ L) (lay_y _ _ _ _ _ _ L) (lay_z _ _ _ _ _ _ L)
               (conj HN0 HNps) j Hj).
    reflexivity. }
  destruct (lookup_field in_ "vp_x") as [fv|] eqn:Ev; cbn [fst].
  - assert (Hv : 0 <= offset (field_at stray (fields in_) (getFieldIndex in_ "vp_x"))
                 /\ offset (field_at stray (fields in_) (getFieldIndex in_ "vp_x")) + 12
                    <= point_step in_).
    { rewrite (field_at_lookup stray _ _ _ Ev).
      apply (lay_v _ _ _ _ _ _ L). reflexivity. }
    destruct (viewpoints_loop_frame fadd fmul stray transform in_ (getFieldIndex in_ "vp_x")
                (point_count in_) Hv (conj HN0 HNps) (Z.to_nat (point_count in_)) 0
                (out_data st, field_reads st) ltac:(lia) ltac:(lia))
      as (Hvlen & Hvframe & _).
    cbn [fst] in Hvlen, Hvframe.
    rewrite (field_at_lookup stray _ _ _ Ev) in Hvframe, Hv.
    repeat split.
    + cbn [data with_data]. rewrite Hvlen. exact Hlen.
    + intros j k Hj Hk Hvp. cbn [data with_data].
      unfold in_viewpoint in Hvp. rewrite Ev in Hvp.
      rewrite Hvframe; [apply Hrec'; assumption|].
      intros j' Hj'.
      assert (Hk' : k < offset fv \/ offset fv + 12 <= k).
      { destruct (offset fv <=? k) eqn:E1; [|apply Z.leb_gt in E1; lia].
        destruct (k <? offset fv + 12) eqn:E2; [discriminate|apply Z.ltb_ge in E2; lia]. }
      destruct (Z.lt_trichotomy j' j) as [Hlt|[->|Hgt]]; nia.
  - repeat split.
    + cbn [data with_data]. exact Hlen.
    + intros j k Hj Hk _. cbn [data with_data]. apply Hrec'; assumption.
Qed.

End TransformSpec.

(** ** The stray read of the field table is never used

    Whatever field a subscript outside the table yields, the function
    computes the same result: the only such subscript is the one at
    [dist_idx = -1], and its value is dropped. *)

Section StrayRead.
Variables fadd fmul : float32 -> float32 -> float32.
Variables s1 s2 : PointField.
Variable transform : Matrix4f.

Lemma field_at_valid fs idx :
  0 <= idx < Z.of_nat (length fs) -> field_at s1 fs idx = field_at s2 fs idx.
Proof.
  intros H. unfold field_at. rewrite (proj2 (Z.leb_le _ _) (proj1 H)).
  destruct (fs !! Z.to_nat idx) eqn:E; [reflexivity|].
  apply lookup_ge_None in E. lia.
Qed.

Lemma transform_point_stray in_ dist_idx i st :
  dist_idx = -1 \/ 0 <= dist_idx < Z.of_nat (length (fields in_)) ->
  transform_point fadd fmul s1 transform in_ dist_idx i st
  = transform_point fadd fmul s2 transform in_ dist_idx i st.
Proof.
  intros [->|H].
  - unfold transform_point. cbn [Z.ltb Z.compare].
    destruct (negb _ || _ || _); reflexivity.
  - unfold transform_point. rewrite (field_at_valid _ _ H). reflexivity.
Qed.

Lemma points_loop_stray in_ dist_idx n : forall i st,
  dist_idx = -1 \/ 0 <= dist_idx < Z.of_nat (length (fields in_)) ->
  points_loop fadd fmul s1 transform in_ dist_idx n i st
  = points_loop fadd fmul s2 transform in_ dist_idx n i st.
Proof.
  induction n as [|n IH]; intros i st H; cbn [points_loop]; [reflexivity|].
  rewrite (transform_point_stray _ _ _ _ H). apply IH, H.
Qed.

Lemma viewpoints_loop_stray out vp_idx n : forall i st,
  0 <= vp_idx < Z.of_nat (length (fields out)) ->
  viewpoints_loop fadd fmul s1 transform out vp_idx n i st
  = viewpoints_loop fadd fmul s2 transform out vp_idx n i st.
Proof.
  induction n as [|n IH]; intros i st H; cbn [viewpoints_loop]; [reflexivity|].
  assert (E : transform_viewpoint fadd fmul s1 transform out vp_idx i st
              = transform_viewpoint fadd fmul s2 transform out vp_idx i st).
  { unfold transform_viewpoint. rewrite (field_at_valid _ _ H). reflexivity. }
  rewrite E. apply IH, H.
Qed.

Lemma transformPointCloud_stray in_ out :
  transformPointCloud fadd fmul s1 transform in_ out
  = transformPointCloud fadd fmul s2 transform in_ out.
Proof.
  unfold transformPointCloud. cbv zeta.
  destruct (getFieldIndex_range in_ "x") as [Hx|Hx]; [rewrite Hx; reflexivity|].
  destruct (getFieldIndex_range in_ "y") as [Hy|Hy];
    [rewrite Hy; cbn [Z.eqb Pos.eqb]; rewrite orb_true_r; reflexivity|].
  destruct (getFieldIndex_range in_ "z") as [Hz|Hz];
    [rewrite Hz; cbn [Z.eqb Pos.eqb]; rewrite orb_true_r; reflexivity|].
  rewrite !(field_at_valid _ _ Hx), !(field_at_valid _ _ Hy), !(field_at_valid _ _ Hz).
  rewrite (points_loop_stray in_ _ _ _ _ (getFieldIndex_range in_ "distance")).
  destruct (getFieldIndex_range in_ "vp_x") as [Hv|Hv].
  - rewrite Hv. reflexivity.
  - rewrite (viewpoints_loop_stray in_ _ _ _ _ Hv). reflexivity.
Qed.

End StrayRead.

(** ** What one iteration stores, case by case *)

Section PointCases.
Variables fadd fmul : float32 -> float32 -> float32.
Variable stray : PointField.
Variable transform : Matrix4f.
Variable in_ : PointCloud2.
Variable dist_idx : Z.
Variables (i X Y Z' W : Z) (d : list byte) (log : list Z).

Abbreviation px := (load_float (data in_) X).
Abbreviation py := (load_float (data in_) Y).
Abbreviation pz := (load_float (data in_) Z').
Abbreviation dpo :=
  (wrap_i32 (wrap_size_t (i * point_step in_
                          + offset (field_at stray (fields in_) dist_idx)))).
Abbreviation iteration :=
  (out_data (transform_point fadd fmul stray transform in_ dist_idx i
               (mkLoopState d (Arr4 X Y Z' W) log))).

Lemma transform_point_finite :
  F32.isfinite px && F32.isfinite py && F32.isfinite pz = true ->
  let p := matvec fadd fmul transform (Vec4 px py pz F32.one) in
  iteration = store_float (store_float (store_float d X (v0 p)) Y (v1 p)) Z' (v2 p).
Proof.
  intros H. apply andb_prop in H as [H Hz]. apply andb_prop in H as [Hx Hy].
  unfold transform_point. cbn [xyz_offset out_data a0 a1 a2 v0 v1 v2].
  rewrite Hx, Hy, Hz. reflexivity.
Qed.

Lemma transform_point_invalid :
  F32.isfinite px && F32.isfinite py && F32.isfinite pz = false ->
  dist_idx < 0 \/ F32.isfinite (load_float (data in_) dpo) = false ->
  iteration = store_float (store_float (store_float d X px) Y py) Z' pz.
Proof.
  intros H Hd.
  assert (Hc : negb (F32.isfinite px) || negb (F32.isfinite py) || negb (F32.isfinite pz) = true).
  { destruct (F32.isfinite px), (F32.isfinite py), (F32.isfinite pz);
      try reflexivity; discriminate. }
  unfold transform_point. cbn [xyz_offset out_data a0 a1 a2 v0 v1 v2].
  rewrite Hc. destruct (dist_idx <? 0) eqn:E.
  - reflexivity.
  - apply Z.ltb_ge in E. destruct Hd as [Hd|Hd]; [lia|]. rewrite Hd. reflexivity.
Qed.

Lemma transform_point_max_range :
  F32.isfinite px && F32.isfinite py && F32.isfinite pz = false ->
  0 <= dist_idx -> F32.isfinite (load_float (data in_) dpo) = true ->
  let p := matvec fadd fmul transform (Vec4 (load_float (data in_) dpo) py pz F32.one) in
  iteration =
    store_float
      (store_float (store_float (store_float d dpo (v0 p)) X F32.quiet_NaN) Y (v1 p))
      Z' (v2 p).
Proof.
  intros H Hdi Hd.
  assert (Hc : negb (F32.isfinite px) || negb (F32.isfinite py) || negb (F32.isfinite pz) = true).
  { destruct (F32.isfinite px), (F32.isfinite py), (F32.isfinite pz);
      try reflexivity; discriminate. }
  unfold transform_point. cbn [xyz_offset out_data a0 a1 a2 v0 v1 v2].
  rewrite Hc, (proj2 (Z.ltb_ge _ _) Hdi), Hd. reflexivity.
Qed.

End PointCases.

(** ** The record of one point in the result *)

Section PointResult.
Variables fadd fmul : float32 -> float32 -> float32.
Variable stray : PointField.
Variable transform : Matrix4f.
Variables in_ out : PointCloud2.
Variables fx fy fz : PointField.
Variable i : Z.

Hypothesis Hok : buffer_ok in_ = true.
Hypothesis Ex : lookup_field in_ "x" = Some fx.
Hypothesis Dx : datatype fx = FLOAT32.
Hypothesis Ey : lookup_field in_ "y" = Some fy.
Hypothesis Dy : datatype fy = FLOAT32.
Hypothesis Ez : lookup_field in_ "z" = Some fz.
Hypothesis Dz : datatype fz = FLOAT32.
Hypothesis Hi : 0 <= i < point_count in_.

Abbreviation result := (fst (transformPointCloud fadd fmul stray transform in_ out)).
Abbreviation stored :=
  (out_data
     (transform_point fadd fmul stray transform in_ (getFieldIndex in_ "distance") i
        (mkLoopState (data in_)
           (Arr4 (offset fx + i * point_step in_) (offset fy + i * point_step in_)
                 (offset fz + i * point_step in_) (i * point_step in_)) []))).

Lemma result_fields : fields result = fields in_ /\ point_step result = point_step in_.
Proof.
  destruct (transformPointCloud_record fadd fmul stray transform in_ out fx fy fz
              Hok Ex Dx Ey Dy Ez Dz) as (Hr & _).
  rewrite Hr. split; reflexivity.
Qed.

Lemma result_lookup nm : lookup_field result nm = lookup_field in_ nm.
Proof. apply lookup_field_fields, result_fields. Qed.

Lemma result_byte k :
  0 <= k < point_step in_ -> in_viewpoint in_ k = false ->
  record_byte result i k = load_byte stored (i * point_step in_ + k).
Proof.
  intros Hk Hv.
  destruct (transformPointCloud_record fadd fmul stray transform in_ out fx fy fz
              Hok Ex Dx Ey Dy Ez Dz) as (_ & _ & Hrec).
  unfold record_byte. rewrite (proj2 result_fields). apply Hrec; assumption.
Qed.

Lemma in_viewpoint_outside o k :
  (forall fv, lookup_field in_ "vp_x" = Some fv -> o + 4 <= offset fv \/ offset fv + 12 <= o) ->
  o <= k < o + 4 -> in_viewpoint in_ k = false.
Proof.
  intros Hv Hk. unfold in_viewpoint.
  destruct (lookup_field in_ "vp_x") as [fv|]; [|reflexivity].
  specialize (Hv fv eq_refl).
  destruct (offset fv <=? k) eqn:E1; [|reflexivity].
  destruct (k <? offset fv + 12) eqn:E2; [|reflexivity].
  apply Z.leb_le in E1. apply Z.ltb_lt in E2. lia.
Qed.

(** A float of the record that lies outside the viewpoint group. *)
Lemma result_float o :
  0 <= o -> o + 4 <= point_step in_ ->
  (forall fv, lookup_field in_ "vp_x" = Some fv -> o + 4 <= offset fv \/ offset fv + 12 <= o) ->
  load_float (data result) (i * point_step result + o)
  = load_float stored (i * point_step in_ + o).
Proof.
  intros Ho1 Ho2 Hv. rewrite (proj2 result_fields).
  apply load_float_ext. intros k' Hk'.
  replace k' with (i * point_step in_ + (k' - i * point_step in_)) by lia.
  pose proof (result_byte (k' - i * point_step in_)) as H. unfold record_byte in H.
  rewrite (proj2 result_fields) in H. apply H; [lia|].
  apply (in_viewpoint_outside o); [exact Hv | lia].
Qed.

Lemma record_inside :
  0 <= i * point_step in_
  /\ (i + 1) * point_step in_ <= Z.of_nat (length (data in_)).
Proof.
  pose proof (buffer_ok_layout _ _ _ _ Hok Ex Ey Ez) as L.
  rewrite (lay_len _ _ _ _ _ _ L). pose proof (lay_x _ _ _ _ _ _ L).
  split; nia.
Qed.

End PointResult.

Ltac offsets_first i c :=
  repeat match goal with
         | |- context [i * point_step c + offset ?f] =>
             rewrite (Z.add_comm (i * point_step c) (offset f))
         | H : context [i * point_step c + offset ?f] |- _ =>
             rewrite (Z.add_comm (i * point_step c) (offset f)) in H
         end.

Ltac read_back :=
  repeat first
    [ rewrite load_store_float_eq by (rewrite ?length_store_float; lia)
    | rewrite load_store_float_ne by lia ].

(** ** Claims about [transformPointCloud] *)

(** C1. A point whose [x], [y], [z] are finite: the result holds, in the
    [x], [y], [z] of its record, the first three components of
    [transform * (x, y, z, 1)]. *)
Theorem transformPointCloud_finite_point
    (fadd fmul : float32 -> float32 -> float32) (stray : PointField)
    (transform : Matrix4f) (in_ out : PointCloud2) (i : Z) (x y z : float32) :
  buffer_ok in_ = true ->
  has_xyz in_ = true ->
  0 <= i < point_count in_ ->
  point_float in_ "x" i = Some x ->
  point_float in_ "y" i = Some y ->
  point_float in_ "z" i = Some z ->
  F32.isfinite x && F32.isfinite y && F32.isfinite z = true ->
  let out' := fst (transformPointCloud fadd fmul stray transform in_ out) in
  let p := matvec fadd fmul transform (Vec4 x y z F32.one) in
  point_float out' "x" i = Some (v0 p)
  /\ point_float out' "y" i = Some (v1 p)
  /\ point_float out' "z" i = Some (v2 p).
Proof.
  intros Hok Hxyz Hi Hx Hy Hz Hfin.
  destruct (has_xyz_fields _ Hxyz) as (fx & fy & fz & [Ex Dx] & [Ey Dy] & [Ez Dz]).
  pose proof (buffer_ok_layout _ _ _ _ Hok Ex Ey Ez) as L.
  pose proof (record_inside in_ fx fy fz i Hok Ex Ey Ez Hi) as Hin.
  destruct L as [_ _ _ _ Lx Ly Lz Lxy Lxz Lyz _ Lv].
  assert (Hv : forall fv, lookup_field in_ "vp_x" = Some fv ->
                 (offset fx + 4 <= offset fv \/ offset fv + 12 <= offset fx)
                 /\ (offset fy + 4 <= offset fv \/ offset fv + 12 <= offset fy)
                 /\ (offset fz + 4 <= offset fv \/ offset fv + 12 <= offset fz)).
  { intros fv Ev. rewrite Ev in Lv. specialize (Lv _ eq_refl). tauto. }
  unfold point_float in *. rewrite Ex in Hx. rewrite Ey in Hy. rewrite Ez in Hz.
  injection Hx as <-. injection Hy as <-. injection Hz as <-.
  cbv zeta.
  rewrite !(result_lookup fadd fmul stray transform in_ out fx fy fz Hok Ex Dx Ey Dy Ez Dz),
          Ex, Ey, Ez.
  rewrite !(result_float fadd fmul stray transform in_ out fx fy fz i
              Hok Ex Dx Ey Dy Ez Dz Hi) by (try lia; intros fv Ev; apply (Hv fv Ev)).
  offsets_first i in_.
  rewrite transform_point_finite by exact Hfin. cbv zeta.
  repeat split; f_equal; read_back; reflexivity.
Qed.

(** C2. A max-range point (some of [x], [y], [z] not finite, [distance]
    present and finite): in the result its [x] is a NaN, its [distance] is
    the first component of [transform * (distance, y, z, 1)], and its [y]
    and [z] are the second and the third. *)
Theorem transformPointCloud_max_range_point
    (fadd fmul : float32 -> float32 -> float32) (stray : PointField)
    (transform : Matrix4f) (in_ out : PointCloud2) (i : Z) (x y z d : float32) :
  buffer_ok in_ = true ->
  has_xyz in_ = true ->
  0 <= i < point_count in_ ->
  point_float in_ "x" i = Some x ->
  point_float in_ "y" i = Some y ->
  point_float in_ "z" i = Some z ->
  F32.isfinite x && F32.isfinite y && F32.isfinite z = false ->
  point_float in_ "distance" i = Some d ->
  F32.isfinite d = true ->
  let out' := fst (transformPointCloud fadd fmul stray transform in_ out) in
  let p := matvec fadd fmul transform (Vec4 d y z F32.one) in
  (exists x', point_float out' "x" i = Some x' /\ F32.isnan x' = true)
  /\ point_float out' "distance" i = Some (v0 p)
  /\ point_float out' "y" i = Some (v1 p)
  /\ point_float out' "z" i = Some (v2 p).
Proof.
  intros Hok Hxyz Hi Hx Hy Hz Hnf Hd Hdf.
  destruct (has_xyz_fields _ Hxyz) as (fx & fy & fz & [Ex Dx] & [Ey Dy] & [Ez Dz]).
  pose proof (buffer_ok_layout _ _ _ _ Hok Ex Ey Ez) as L.
  pose proof (record_inside in_ fx fy fz i Hok Ex Ey Ez Hi) as Hin.
  unfold point_float in Hd.
  destruct (lookup_field in_ "distance") as [fd|] eqn:Ed; [|discriminate].
  injection Hd as <-.
  destruct L as [_ Lsmall _ _ Lx Ly Lz Lxy Lxz Lyz Ld Lv].
  specialize (Ld _ eq_refl). destruct Ld as (Ld & Ldx & Ldy & Ldz).
  assert (Hv : forall fv, lookup_field in_ "vp_x" = Some fv ->
                 (offset fx + 4 <= offset fv \/ offset fv + 12 <= offset fx)
                 /\ (offset fy + 4 <= offset fv \/ offset fv + 12 <= offset fy)
                 /\ (offset fz + 4 <= offset fv \/ offset fv + 12 <= offset fz)
                 /\ (offset fd + 4 <= offset fv \/ offset fv + 12 <= offset fd)).
  { intros fv Ev. rewrite Ev in Lv. specialize (Lv _ eq_refl).
    destruct Lv as (_ & ? & ? & ? & Lvd). specialize (Lvd _ eq_refl). tauto. }
  pose proof (lookup_field_Some _ _ _ Ed) as [[Hdi _] _].
  unfold point_float in *. rewrite Ex in Hx. rewrite Ey in Hy. rewrite Ez in Hz.
  injection Hx as <-. injection Hy as <-. injection Hz as <-.
  cbv zeta.
  rewrite !(result_lookup fadd fmul stray transform in_ out fx fy fz Hok Ex Dx Ey Dy Ez Dz),
          Ex, Ey, Ez, Ed.
  rewrite !(result_float fadd fmul stray transform in_ out fx fy fz i
              Hok Ex Dx Ey Dy Ez Dz Hi) by (try lia; intros fv Ev; apply (Hv fv Ev)).
  offsets_first i in_.
  assert (Hdpo : wrap_i32 (wrap_size_t
                   (i * point_step in_
                    + offset (field_at stray (fields in_) (getFieldIndex in_ "distance"))))
                 = offset fd + i * point_step in_).
  { rewrite (field_at_lookup stray _ _ _ Ed).
    rewrite wrap_size_t_small, wrap_i32_small by lia. lia. }
  rewrite transform_point_max_range;
    [ | exact Hnf | exact Hdi | rewrite Hdpo; exact Hdf ].
  cbv zeta. rewrite !Hdpo.
  split; [exists F32.quiet_NaN; split; [|reflexivity]|repeat split];
    f_equal; read_back; reflexivity.
Qed.

(** C3, as amended. A point that is not finite and has no usable
    [distance]: every byte of its record outside the viewpoint group is the
    byte of the input record.  (The viewpoint group is transformed for every
    point, whatever its validity.) *)
Theorem transformPointCloud_invalid_point
    (fadd fmul : float32 -> float32 -> float32) (stray : PointField)
    (transform : Matrix4f) (in_ out : PointCloud2) (i : Z) (x y z : float32) :
  buffer_ok in_ = true ->
  has_xyz in_ = true ->
  0 <= i < point_count in_ ->
  point_float in_ "x" i = Some x ->
  point_float in_ "y" i = Some y ->
  point_float in_ "z" i = Some z ->
  F32.isfinite x && F32.isfinite y && F32.isfinite z = false ->
  (point_float in_ "distance" i = None
   \/ exists d, point_float in_ "distance" i = Some d /\ F32.isfinite d = false) ->
  let out' := fst (transformPointCloud fadd fmul stray transform in_ out) in
  forall k, 0 <= k < point_step in_ -> in_viewpoint in_ k = false ->
    record_byte out' i k = record_byte in_ i k.
Proof.
  intros Hok Hxyz Hi Hx Hy Hz Hnf Hd out' k Hk Hvp.
  destruct (has_xyz_fields _ Hxyz) as (fx & fy & fz & [Ex Dx] & [Ey Dy] & [Ez Dz]).
  pose proof (buffer_ok_layout _ _ _ _ Hok Ex Ey Ez) as L.
  pose proof (record_inside in_ fx fy fz i Hok Ex Ey Ez Hi) as Hin.
  unfold out'.
  rewrite (result_byte fadd fmul stray transform in_ out fx fy fz i
             Hok Ex Dx Ey Dy Ez Dz Hi k Hk Hvp).
  unfold point_float in Hx, Hy, Hz. rewrite Ex in Hx. rewrite Ey in Hy. rewrite Ez in Hz.
  injection Hx as <-. injection Hy as <-. injection Hz as <-.
  offsets_first i in_.
  rewrite transform_point_invalid.
  - rewrite !store_float_load. reflexivity.
  - exact Hnf.
  - unfold point_float in Hd.
    destruct (lookup_field in_ "distance") as [fd|] eqn:Ed.
    + right. destruct Hd as [Hd|(d & Hd & Hdf)]; [discriminate|].
      injection Hd as <-.
      destruct L as [_ Lsmall _ _ _ _ _ _ _ _ Ld _].
      specialize (Ld _ eq_refl). destruct Ld as (Ld & _).
      rewrite (field_at_lookup stray _ _ _ Ed).
      rewrite wrap_size_t_small, wrap_i32_small by lia. exact Hdf.
    + left. apply lookup_field_None in Ed. lia.
Qed.

Import Reference.

(** A point [(1, 1, 1)] under the translation by [(2, 0, 0)]. *)
Lemma transformPointCloud_finite_point_witness :
  let in_ := one_point "A" 1 f1 in
  let transform := toEigen4f34 (translation f2 f0 f0) in
  let out' := fst (transformPointCloud F32.add F32.mul garbage transform in_ empty_cloud) in
  let p := matvec F32.add F32.mul transform (Vec4 f1 f1 f1 F32.one) in
  point_float out' "x" 0 = Some (v0 p)
  /\ point_float out' "y" 0 = Some (v1 p)
  /\ point_float out' "z" 0 = Some (v2 p).
Proof.
  apply (transformPointCloud_finite_point F32.add F32.mul garbage
           (toEigen4f34 (translation f2 f0 f0)) (one_point "A" 1 f1)
           empty_cloud 0 f1 f1 f1).
  - reflexivity.
  - reflexivity.
  - vm_compute. split; [discriminate | reflexivity].
  - reflexivity.
  - reflexivity.
  - reflexivity.
  - reflexivity.
Defined.

(** The third scenario of the specification: [x] a NaN, [distance] 5, under
    the translation by [(2, 0, 0)]. *)
Lemma transformPointCloud_max_range_point_witness :
  let in_ := max_range_cloud in
  let transform := toEigen4f34 (translation f2 f0 f0) in
  let out' := fst (transformPointCloud F32.add F32.mul garbage transform in_ empty_cloud) in
  let p := matvec F32.add F32.mul transform (Vec4 f5 f0 f0 F32.one) in
  (exists x', point_float out' "x" 0 = Some x' /\ F32.isnan x' = true)
  /\ point_float out' "distance" 0 = Some (v0 p)
  /\ point_float out' "y" 0 = Some (v1 p)
  /\ point_float out' "z" 0 = Some (v2 p).
Proof.
  apply (transformPointCloud_max_range_point F32.add F32.mul garbage
           (toEigen4f34 (translation f2 f0 f0)) (max_range_cloud)
           empty_cloud 0 fNaN f0 f0 f5).
  - reflexivity.
  - reflexivity.
  - vm_compute. split; [discriminate | reflexivity].
  - reflexivity.
  - reflexivity.
  - reflexivity.
  - reflexivity.
  - reflexivity.
  - reflexivity.
Defined.

Example scenario_3 :
  let in_ := max_range_cloud in
  let out' := fst (transformPointCloud F32.add F32.mul garbage
                     (toEigen4f34 (translation f2 f0 f0)) in_ empty_cloud) in
  point_float out' "distance" 0 = Some f7 /\ point_float out' "x" 0 = Some fNaN.
Proof. vm_compute. split; reflexivity. Qed.

(** An invalid point: [x] and [distance] are NaNs.  Byte 2 of the record,
    the third byte of [x], is unchanged. *)
Lemma transformPointCloud_invalid_point_witness :
  let in_ := invalid_cloud in
  let out' := fst (transformPointCloud F32.add F32.mul garbage
                     (toEigen4f34 (translation f2 f0 f0)) in_ empty_cloud) in
  record_byte out' 0 2 = record_byte in_ 0 2.
Proof.
  apply (transformPointCloud_invalid_point F32.add F32.mul garbage
           (toEigen4f34 (translation f2 f0 f0)) (invalid_cloud)
           empty_cloud 0 fNaN f1 f2).
  - reflexivity.
  - reflexivity.
  - vm_compute. split; [discriminate | reflexivity].
  - reflexivity.
  - reflexivity.
  - reflexivity.
  - reflexivity.
  - right. exists fNaN. split; reflexivity.
  - vm_compute. split; [discriminate | reflexivity].
  - reflexivity.
Defined.

(** C3, as stated, fails: with a viewpoint group in the records, the record
    of an invalid point is not the input record.  Here the point is
    [(NaN, 0, 0)] with a NaN for [distance] and the viewpoint [(0, 0, 0)];
    the translation by [(1, 0, 0)] moves the viewpoint to [(1, 0, 0)], and
    byte 18 of the record, the third of [vp_x], changes. *)
Lemma transformPointCloud_invalid_point_record_changes :
  ~ (forall (fadd fmul : float32 -> float32 -> float32) (stray : PointField)
            (transform : Matrix4f) (in_ out : PointCloud2) (i : Z) (x y z : float32),
        buffer_ok in_ = true ->
        has_xyz in_ = true ->
        0 <= i < point_count in_ ->
        point_float in_ "x" i = Some x ->
        point_float in_ "y" i = Some y ->
        point_float in_ "z" i = Some z ->
        F32.isfinite x && F32.isfinite y && F32.isfinite z = false ->
        (point_float in_ "distance" i = None
         \/ exists d, point_float in_ "distance" i = Some d /\ F32.isfinite d = false) ->
        let out' := fst (transformPointCloud fadd fmul stray transform in_ out) in
        forall k, 0 <= k < point_step in_ -> record_byte out' i k = record_byte in_ i k).
Proof.
  intros H.
  pose (in_ := invalid_cloud_vp).
  specialize (H F32.add F32.mul garbage (toEigen4f34 (translation f1 f0 f0))
                in_ empty_cloud 0 fNaN f0 f0 eq_refl eq_refl).
  assert (Hi : 0 <= 0 < point_count in_).
  { vm_compute. split; [discriminate | reflexivity]. }
  specialize (H Hi eq_refl eq_refl eq_refl eq_refl
                (or_intror (ex_intro _ fNaN (conj eq_refl eq_refl))) 18).
  assert (Hk : 0 <= 18 < point_step in_).
  { vm_compute. split; [discriminate | reflexivity]. }
  specialize (H Hk). vm_compute in H. discriminate H.
Qed.

(** ** The trace of [combineClouds] *)

Section AggregatorFacts.
Context {P : Platform}.

Lemma events_bind {A B} (m : M A) (f : A -> M B) :
  events (bind m f) = events m ++ events (f (value m)).
Proof. destruct m as [w a]. unfold bind, events, value. cbn. destruct (f a). reflexivity. Qed.

Lemma value_bind {A B} (m : M A) (f : A -> M B) :
  value (bind m f) = value (f (value m)).
Proof. destruct m as [w a]. unfold bind, events, value. cbn. destruct (f a). reflexivity. Qed.

Lemma M_eta {A} (m : M A) : m = (events m, value m).
Proof. destruct m. reflexivity. Qed.

Lemma published_app evs evs' : published (evs ++ evs') = published evs ++ published evs'.
Proof.
  induction evs as [|e evs IH]; [reflexivity|].
  destruct e; cbn; rewrite ?IH; reflexivity.
Qed.

Lemma string_empty_false s : s <> "" -> string_empty s = false.
Proof. intros H. apply String.eqb_neq, H. Qed.

Lemma Time_eqb_false a b : a <> b -> Time_eqb a b = false.
Proof.
  intros H. unfold Time_eqb. destruct a as [s n], b as [s' n']; cbn.
  destruct (s =? s') eqn:E1; [|reflexivity].
  destruct (n =? n') eqn:E2; [|reflexivity].
  apply Z.eqb_eq in E1, E2. congruence.
Qed.

(** *** The first cloud *)

Lemma align_reference_resolved env node cloud0 :
  reference_resolved env node cloud0 = true ->
  exists evs output,
    align_reference env node cloud0 = (evs, Some (output, reference_frame node cloud0))
    /\ published evs = [].
Proof.
  unfold reference_resolved, align_reference, reference_frame. intros H.
  destruct (string_empty (frameId_ node)) eqn:E1; cbn [negb andb].
  - eexists _, _. split; reflexivity.
  - destruct (String.eqb (frameId_ node) (frame_id (header cloud0))) eqn:E2; cbn [negb].
    + apply String.eqb_eq in E2. rewrite <- E2. eexists _, _. split; reflexivity.
    + cbn [orb] in H. apply negb_true_iff in H.
      unfold lookup, transform_cloud, bind, emit, ret. rewrite H.
      eexists _, _. split; reflexivity.
Qed.

Lemma align_reference_fails env node cloud0 :
  frameId_ node <> "" ->
  frameId_ node <> frame_id (header cloud0) ->
  isNull (getTransform env (frameId_ node) (frame_id (header cloud0))
                       (stamp (header cloud0))) = true ->
  align_reference env node cloud0
  = ([LookupTransform (frameId_ node) (frame_id (header cloud0)) (stamp (header cloud0))],
     None).
Proof.
  intros H1 H2 H3. unfold align_reference.
  rewrite (string_empty_false _ H1), (proj2 (String.eqb_neq _ _) H2). cbn [negb andb].
  unfold lookup, bind, emit, ret. rewrite H3. reflexivity.
Qed.

Lemma align_reference_frame env node cloud0 evs output frameId :
  align_reference env node cloud0 = (evs, Some (output, frameId)) ->
  frameId = reference_frame node cloud0 /\ published evs = [].
Proof.
  unfold align_reference, reference_frame.
  destruct (string_empty (frameId_ node)) eqn:E1; cbn [negb andb].
  - intros [= <- _ <-]. split; reflexivity.
  - destruct (String.eqb (frameId_ node) (frame_id (header cloud0))) eqn:E2; cbn [negb].
    + apply String.eqb_eq in E2. intros [= <- _ <-]. split; [congruence | reflexivity].
    + unfold lookup, transform_cloud, bind, emit, ret.
      destruct (isNull _); [discriminate|].
      intros [= <- _ <-]. split; reflexivity.
Qed.

Lemma align_reference_unpublished env node cloud0 :
  published (events (align_reference env node cloud0)) = [].
Proof.
  unfold align_reference.
  destruct (negb _ && negb _); [|reflexivity].
  unfold lookup, transform_cloud, bind, emit, ret.
  destruct (isNull _); reflexivity.
Qed.

(** *** The clouds that follow *)

Lemma align_cloud_unpublished env node frameId cloud0 cloud_i :
  published (events (align_cloud env node frameId cloud0 cloud_i)) = [].
Proof.
  unfold align_cloud, lookup_displacement, lookup, transform_cloud, bind, emit, ret.
  destruct (negb _ && negb _); destruct (negb (String.eqb _ _));
    destruct (negb (isNull _)); reflexivity.
Qed.

Lemma combine_step_unpublished env node frameId cloud0 output cloud_i :
  published (events (combine_step env node frameId cloud0 output cloud_i)) = [].
Proof.
  unfold combine_step. rewrite events_bind, published_app, align_cloud_unpublished.
  reflexivity.
Qed.

Lemma combine_loop_unpublished env node frameId cloud0 rest : forall output,
  published (events (combine_loop env node frameId cloud0 output rest)) = [].
Proof.
  induction rest as [|c rest IH]; intros output; [reflexivity|].
  cbn [combine_loop]. rewrite events_bind, published_app, combine_step_unpublished, IH.
  reflexivity.
Qed.

(** The loop over [pre ++ cloud_i :: post] runs the loop over [pre], the
    body on [cloud_i], then the loop over [post]. *)
Lemma combine_loop_app env node frameId cloud0 pre cloud_i post : forall output,
  let m1 := combine_loop env node frameId cloud0 output pre in
  let m2 := combine_step env node frameId cloud0 (value m1) cloud_i in
  let m3 := combine_loop env node frameId cloud0 (value m2) post in
  combine_loop env node frameId cloud0 output (pre ++ cloud_i :: post)
  = (events m1 ++ events m2 ++ events m3, value m3).
Proof.
  induction pre as [|c pre IH]; intros output; cbv zeta.
  - cbn [app combine_loop]. rewrite (M_eta (bind _ _)), events_bind, value_bind.
    reflexivity.
  - cbn [app combine_loop]. rewrite (M_eta (bind _ _)), events_bind, value_bind.
    rewrite (M_eta (bind (combine_step env node frameId cloud0 output c) _)),
            events_bind, value_bind.
    cbn [fst snd events value]. rewrite IH. cbn [events value fst snd].
    rewrite <- !app_assoc. reflexivity.
Qed.

(** *** The whole call *)

Lemma combineClouds_fused env node cloud0 c1 rest :
  get_subscription_count env <> 0%nat ->
  reference_resolved env node cloud0 = true ->
  exists evs output,
    align_reference env (called node) cloud0 = (evs, Some (output, reference_frame node cloud0))
    /\ published evs = []
    /\ let m := combine_loop env (called node) (reference_frame node cloud0) cloud0 output
                  (c1 :: rest) in
       combineClouds env node (cloud0 :: c1 :: rest)
       = (evs ++ events m
              ++ [Publish (with_header (moveFromPCL (value m))
                             (mkHeader (stamp (header cloud0)) (reference_frame node cloud0)))],
          (called node, Returned)).
Proof.
  intros Hn Hr.
  destruct (align_reference_resolved env (called node) cloud0 Hr) as (evs & output & Ha & Hp).
  exists evs, output. split; [exact Ha|]. split; [exact Hp|].
  cbv zeta. unfold combineClouds.
  rewrite (proj2 (Nat.eqb_neq _ _) Hn). cbn [negb].
  rewrite Ha. unfold bind at 1.
  change (reference_frame (called node) cloud0) with (reference_frame node cloud0).
  destruct (combine_loop env (called node) (reference_frame node cloud0) cloud0 output
              (c1 :: rest)) as [w o].
  reflexivity.
Qed.

End AggregatorFacts.

(** ** Claims about [combineClouds] *)

(** C5. A reference frame is set, it differs from the frame of the first
    cloud, and the lookup answers a null transform: [combineClouds] looks the
    transform up (when the sink has a consumer), publishes nothing,
    transforms and concatenates nothing, and returns; the tuples delivered
    afterwards are processed as they would be after any other call. *)
Theorem combineClouds_reference_lookup_fails
    (P : Platform) (env : Env) (node : Node) (cloud0 c1 : PointCloud2)
    (rest : list PointCloud2) :
  frameId_ node <> "" ->
  frameId_ node <> frame_id (header cloud0) ->
  isNull (getTransform env (frameId_ node) (frame_id (header cloud0))
                       (stamp (header cloud0))) = true ->
  let r := combineClouds env node (cloud0 :: c1 :: rest) in
  events r
  = (if Nat.eqb (get_subscription_count env) 0 then []
     else [LookupTransform (frameId_ node) (frame_id (header cloud0))
                           (stamp (header cloud0))])
  /\ published (events r) = []
  /\ forallb (fun e => negb (is_fusion_work e)) (events r) = true
  /\ value r = (called node, Returned)
  /\ forall later,
       deliver node ((env, cloud0 :: c1 :: rest) :: later)
       = (events r ++ events (deliver (called node) later),
          value (deliver (called node) later)).
Proof.
  intros H1 H2 H3.
  assert (E : combineClouds env node (cloud0 :: c1 :: rest)
              = (if Nat.eqb (get_subscription_count env) 0 then []
                 else [LookupTransform (frameId_ node) (frame_id (header cloud0))
                                       (stamp (header cloud0))],
                 (called node, Returned))).
  { unfold combineClouds. destruct (Nat.eqb (get_subscription_count env) 0); cbn [negb].
    - reflexivity.
    - rewrite (align_reference_fails env (called node) cloud0 H1 H2 H3). reflexivity. }
  cbv zeta. rewrite E. cbn [events value fst snd].
  repeat split.
  - destruct (Nat.eqb _ _); reflexivity.
  - destruct (Nat.eqb _ _); reflexivity.
  - intros later. cbn [deliver]. rewrite E. unfold bind.
    destruct (deliver (called node) later) as [w v]. reflexivity.
Qed.

(** C7. Without a consumer [combineClouds] calls no collaborator: nothing
    is looked up, transformed, concatenated or published.  A call that does
    any of these had at least one consumer. *)
Theorem combineClouds_gated_by_consumers
    (P : Platform) (env : Env) (node : Node) (cloudMsgs : list PointCloud2) :
  (get_subscription_count env = 0%nat ->
   events (combineClouds env node cloudMsgs) = []
   /\ fst (value (combineClouds env node cloudMsgs)) = called node)
  /\ (forall e, In e (events (combineClouds env node cloudMsgs)) ->
        (1 <= get_subscription_count env)%nat).
Proof.
  assert (H0 : get_subscription_count env = 0%nat ->
               events (combineClouds env node cloudMsgs) = []
               /\ fst (value (combineClouds env node cloudMsgs)) = called node).
  { intros H. unfold combineClouds. rewrite H. cbn [Nat.eqb negb].
    destruct cloudMsgs as [|c0 [|c1 rest]]; split; reflexivity. }
  split; [exact H0|].
  intros e He. destruct (get_subscription_count env) as [|n] eqn:E; [|lia].
  destruct (H0 eq_refl) as [Hev _]. rewrite Hev in He. destruct He.
Qed.

(** C8, as amended. The published cloud carries the stamp of the first
    cloud, and as frame id the reference frame: [frame_id_] when it is set,
    the frame of the first cloud otherwise. *)
Theorem combineClouds_output_header
    (P : Platform) (env : Env) (node : Node) (cloud0 : PointCloud2)
    (rest : list PointCloud2) (c : PointCloud2) :
  In c (published (events (combineClouds env node (cloud0 :: rest)))) ->
  stamp (header c) = stamp (header cloud0)
  /\ frame_id (header c) = reference_frame node cloud0.
Proof.
  unfold combineClouds. destruct rest as [|c1 rest]; [intros []|].
  destruct (negb (Nat.eqb (get_subscription_count env) 0)); [|intros []].
  destruct (align_reference env (called node) cloud0) as [evs [[output frameId]|]] eqn:Ea.
  - destruct (align_reference_frame _ _ _ _ _ _ Ea) as [-> Hp].
    unfold bind at 1.
    destruct (bind (combine_loop _ _ _ _ _ _) _) as [w v] eqn:Eb.
    apply (f_equal events) in Eb. rewrite events_bind in Eb.
    cbn [events fst] in Eb |- *. subst w.
    rewrite !published_app, Hp, combine_loop_unpublished.
    unfold publish, bind, emit, ret. cbn.
    intros [<-|[]]. split; reflexivity.
  - pose proof (align_reference_unpublished env (called node) cloud0) as Hp.
    rewrite Ea in Hp. unfold bind, ret. cbn [events fst] in *.
    rewrite app_nil_r, Hp. intros [].
Qed.

Lemma combineClouds_fused_trace
    (P : Platform) (env : Env) (node : Node) (cloud0 : PointCloud2)
    (pre : list PointCloud2) (cloud_i : PointCloud2) (post : list PointCloud2) :
  get_subscription_count env <> 0%nat ->
  reference_resolved env node cloud0 = true ->
  exists before output after c,
    events (combineClouds env node (cloud0 :: pre ++ cloud_i :: post))
    = before
      ++ events (combine_step env (called node) (reference_frame node cloud0) cloud0
                   output cloud_i)
      ++ after ++ [Publish c]
    /\ published before = [] /\ published after = [].
Proof.
  intros Hn Hr.
  assert (Hfused : exists evs output,
             published evs = []
             /\ let m := combine_loop env (called node) (reference_frame node cloud0) cloud0
                           output (pre ++ cloud_i :: post) in
                exists c,
                  combineClouds env node (cloud0 :: pre ++ cloud_i :: post)
                  = (evs ++ events m ++ [Publish c], (called node, Returned))).
  { destruct pre as [|c1 pre'].
    - destruct (combineClouds_fused env node cloud0 cloud_i post Hn Hr)
        as (evs & output & _ & Hp & E).
      exists evs, output. split; [exact Hp|]. cbv zeta. eexists. exact E.
    - destruct (combineClouds_fused env node cloud0 c1 (pre' ++ cloud_i :: post) Hn Hr)
        as (evs & output & _ & Hp & E).
      exists evs, output. split; [exact Hp|]. cbv zeta. eexists. exact E. }
  destruct Hfused as (evs & output & Hp & c & E). cbv zeta in E.
  rewrite combine_loop_app in E. cbn [events fst] in E.
  set (m1 := combine_loop env (called node) (reference_frame node cloud0) cloud0 output pre) in *.
  set (m2 := combine_step env (called node) (reference_frame node cloud0) cloud0
               (value m1) cloud_i) in *.
  set (m3 := combine_loop env (called node) (reference_frame node cloud0) cloud0
               (value m2) post) in *.
  exists (evs ++ events m1), (value m1), (events m3), c.
  rewrite E. cbn [events fst]. fold m2.
  repeat split.
  - rewrite <- !app_assoc. reflexivity.
  - rewrite published_app, Hp. unfold m1. apply combine_loop_unpublished.
  - unfold m3. apply combine_loop_unpublished.
Qed.

(** C6. A fixed frame is set, the stamp of cloud [i] differs from the stamp
    of the first cloud, and the displacement lookup answers a null transform:
    the body of the loop applies no displacement; it looks up and applies the
    transform between the frames when the frame of the cloud differs from the
    reference frame, and hands the cloud to the concatenation.  The call goes
    on to publish. *)
Theorem combineClouds_displacement_lookup_fails
    (P : Platform) (env : Env) (node : Node) (cloud0 : PointCloud2)
    (pre : list PointCloud2) (cloud_i : PointCloud2) (post : list PointCloud2) :
  fixedFrameId_ node <> "" ->
  stamp (header cloud0) <> stamp (header cloud_i) ->
  isNull (getTransformFixed env (reference_frame node cloud0) (fixedFrameId_ node)
                            (stamp (header cloud_i)) (stamp (header cloud0))) = true ->
  let frameId := reference_frame node cloud0 in
  let displacement :=
    LookupDisplacement frameId (fixedFrameId_ node)
                       (stamp (header cloud_i)) (stamp (header cloud0)) in
  (forall output,
     combine_step env (called node) frameId cloud0 output cloud_i
     = if String.eqb frameId (frame_id (header cloud_i))
       then ([displacement; Concatenate output (toPCL cloud_i)],
             concatenatePointCloud output (toPCL cloud_i))
       else
         let t := getTransform env frameId (frame_id (header cloud_i))
                               (stamp (header cloud_i)) in
         let tmp := fst (transformPointCloud float_add float_mul stray_field
                           (toEigen4f t) cloud_i empty_cloud) in
         ([displacement;
           LookupTransform frameId (frame_id (header cloud_i)) (stamp (header cloud_i));
           TransformCloud (toEigen4f t) cloud_i;
           Concatenate output (toPCL tmp)],
          concatenatePointCloud output (toPCL tmp)))
  /\ (get_subscription_count env <> 0%nat ->
      reference_resolved env node cloud0 = true ->
      exists before output after c,
        events (combineClouds env node (cloud0 :: pre ++ cloud_i :: post))
        = before
          ++ events (combine_step env (called node) frameId cloud0 output cloud_i)
          ++ after ++ [Publish c]).
Proof.
  intros Hf Hs Hnull. cbv zeta. split.
  - intros output. unfold combine_step, align_cloud.
    change (fixedFrameId_ (called node)) with (fixedFrameId_ node).
    rewrite (string_empty_false _ Hf), (Time_eqb_false _ _ Hs). cbn [negb andb].
    unfold lookup_displacement, lookup, transform_cloud, concatenate, bind, emit, ret.
    rewrite Hnull. cbn [negb].
    destruct (String.eqb (reference_frame node cloud0) (frame_id (header cloud_i)));
      reflexivity.
  - intros Hn Hr.
    destruct (combineClouds_fused_trace P env node cloud0 pre cloud_i post Hn Hr)
      as (before & output & after & c & E & _).
    exists before, output, after, c. exact E.
Qed.


(** C4, as amended. A cloud without three float fields [x], [y], [z]:
    [transformPointCloud] returns before it touches [out] (nothing is
    transformed in part), and reports nothing to its caller.
    [combineClouds] is not cancelled: with a consumer and the reference frame
    resolved, the tuple is published all the same. *)
Theorem missing_xyz_not_propagated
    (P : Platform) (env : Env) (node : Node) (cloud0 c1 : PointCloud2)
    (rest : list PointCloud2) (bad : PointCloud2) (transform : Matrix4f)
    (out : PointCloud2) :
  In bad (cloud0 :: c1 :: rest) ->
  has_xyz bad = false ->
  fst (transformPointCloud float_add float_mul stray_field transform bad out) = out
  /\ (get_subscription_count env <> 0%nat ->
      reference_resolved env node cloud0 = true ->
      exists c, published (events (combineClouds env node (cloud0 :: c1 :: rest))) = [c]).
Proof.
  intros _ Hbad. split.
  - apply transformPointCloud_rejects, Hbad.
  - intros Hn Hr.
    destruct (combineClouds_fused env node cloud0 c1 rest Hn Hr) as (evs & output & _ & Hp & E).
    cbv zeta in E. rewrite E. cbn [events fst].
    rewrite !published_app, Hp, combine_loop_unpublished. eexists. reflexivity.
Qed.

(** ** The subscripts of the field table *)

Section FieldReads.
Variables fadd fmul : float32 -> float32 -> float32.
Variable stray : PointField.
Variable transform : Matrix4f.

Lemma points_loop_reads in_ dist_idx n : forall i st,
  field_reads (points_loop fadd fmul stray transform in_ dist_idx n i st)
  = field_reads st ++ repeat dist_idx n.
Proof.
  induction n as [|n IH]; intros i st; cbn [points_loop repeat].
  - rewrite app_nil_r. reflexivity.
  - rewrite IH, transform_point_reads, <- app_assoc. reflexivity.
Qed.

Lemma viewpoints_loop_reads out vp_idx n : forall i st,
  snd (viewpoints_loop fadd fmul stray transform out vp_idx n i st)
  = snd st ++ repeat vp_idx n.
Proof.
  induction n as [|n IH]; intros i st; cbn [viewpoints_loop repeat].
  - rewrite app_nil_r. reflexivity.
  - rewrite IH. destruct st as [d reads]. cbn [transform_viewpoint snd].
    rewrite <- app_assoc. reflexivity.
Qed.

(** A cloud with float [x], [y], [z], no [distance] and at least one point:
    [transformPointCloud] subscripts the field table at [-1]. *)
Lemma transformPointCloud_stray_read in_ out :
  has_xyz in_ = true ->
  lookup_field in_ "distance" = None ->
  0 < wrap_u32 (width in_ * height in_) ->
  In (-1) (snd (transformPointCloud fadd fmul stray transform in_ out)).
Proof.
  intros Hxyz Hd Hn.
  destruct (has_xyz_fields _ Hxyz) as (fx & fy & fz & [Ex Dx] & [Ey Dy] & [Ez Dz]).
  rewrite (transformPointCloud_unfold fadd fmul stray transform in_ out fx fy fz
             Ex Dx Ey Dy Ez Dz).
  cbv zeta. rewrite (lookup_field_None _ _ Hd).
  destruct (Z.to_nat (wrap_u32 (width in_ * height in_))) as [|n] eqn:En; [lia|].
  destruct (lookup_field in_ "vp_x"); cbn [snd].
  - rewrite viewpoints_loop_reads. cbn [snd]. rewrite points_loop_reads.
    cbn [field_reads repeat]. rewrite !in_app_iff. left. right. left. reflexivity.
  - rewrite points_loop_reads. cbn [field_reads repeat].
    rewrite !in_app_iff. right. left. reflexivity.
Qed.

End FieldReads.

(** C9 fails on the code.  On a cloud of one point with float [x], [y],
    [z] and no [distance], the field table, which has three entries, is
    subscripted at [-1]: line 92 evaluates [in.fields[dist_idx].offset]
    before line 93 tests [dist_idx < 0]. *)
Theorem transformPointCloud_subscripts_field_table_at_minus_one :
  let in_ := cloud_without_distance in
  has_xyz in_ = true
  /\ lookup_field in_ "distance" = None
  /\ length (fields in_) = 3%nat
  /\ snd (transformPointCloud F32.add F32.mul garbage
            (toEigen4f34 (translation f2 f0 f0)) in_ empty_cloud)
     = [0; 1; 2; 0; 1; 2; -1]
  /\ valid_field_index in_ (-1) = false.
Proof. vm_compute. repeat split; reflexivity. Qed.

(** ** Concrete runs *)

(** C4, as stated, fails: the first cloud has no [x], its frame is not the
    reference frame, and a cloud is published. *)
Lemma missing_xyz_still_published :
  ~ (forall (P : Platform) (env : Env) (node : Node) (cloudMsgs : list PointCloud2)
            (bad : PointCloud2),
        In bad cloudMsgs -> has_xyz bad = false ->
        published (events (combineClouds env node cloudMsgs)) = []).
Proof.
  intros H.
  specialize (H platform (env_const 1 (translation f1 f0 f0)) (mkNode "base" "" false)
                [cloud_without_x; one_point "base" 1 f1]
                (cloud_without_x) (or_introl eq_refl) eq_refl).
  vm_compute in H. discriminate H.
Qed.

Lemma missing_xyz_not_propagated_witness :
  let bad := cloud_without_x in
  let c1 := one_point "base" 1 f1 in
  let env := env_const 1 (translation f1 f0 f0) in
  let node := mkNode "base" "" false in
  fst (transformPointCloud (@float_add platform) (@float_mul platform) (@stray_field platform)
         (toEigen4f34 (translation f1 f0 f0)) bad empty_cloud) = empty_cloud
  /\ exists c, published (events (combineClouds env node [bad; c1])) = [c].
Proof.
  destruct (missing_xyz_not_propagated platform (env_const 1 (translation f1 f0 f0))
              (mkNode "base" "" false) (cloud_without_x)
              (one_point "base" 1 f1) [] (cloud_without_x)
              (toEigen4f34 (translation f1 f0 f0)) empty_cloud
              (or_introl eq_refl) eq_refl) as [Hout Hpub].
  split.
  - exact Hout.
  - apply Hpub; [discriminate | reflexivity].
Defined.

(** The fourth scenario of the specification: the lookup for the first
    cloud answers the null transform. *)
Lemma combineClouds_reference_lookup_fails_witness :
  let env := env_const 1 null34 in
  let node := mkNode "base" "" false in
  let cloud0 := one_point "A" 1 f1 in
  let c1 := one_point "base" 1 f2 in
  let r := combineClouds env node [cloud0; c1] in
  events r = [LookupTransform "base" "A" (mkTime 1 0)]
  /\ published (events r) = []
  /\ value r = (called node, Returned).
Proof.
  destruct (combineClouds_reference_lookup_fails platform (env_const 1 null34)
              (mkNode "base" "" false) (one_point "A" 1 f1)
              (one_point "base" 1 f2) []
              ltac:(discriminate) ltac:(discriminate) eq_refl)
    as (Hev & Hpub & _ & Hval & _).
  repeat split; assumption.
Defined.

(** The fifth scenario of the specification: no consumer. *)
Lemma combineClouds_gated_by_consumers_witness :
  let env := env_const 0 (translation f1 f0 f0) in
  let node := mkNode "base" "" false in
  events (combineClouds env node
            [one_point "A" 1 f1; one_point "base" 1 f2]) = [].
Proof.
  apply (proj1 (combineClouds_gated_by_consumers platform (env_const 0 (translation f1 f0 f0))
                  (mkNode "base" "" false)
                  [one_point "A" 1 f1; one_point "base" 1 f2])
               eq_refl).
Defined.

(** The first scenario of the specification: two clouds of one point in the
    same frame. *)
Lemma combineClouds_output_header_witness :
  let env := env_const 1 (translation f1 f0 f0) in
  let node := mkNode "" "" false in
  let cloud0 := one_point "A" 1 f1 in
  let c1 := one_point "A" 1 f2 in
  let c := hd empty_cloud (published (events (combineClouds env node [cloud0; c1]))) in
  stamp (header c) = stamp (header cloud0)
  /\ frame_id (header c) = reference_frame node cloud0.
Proof.
  apply (combineClouds_output_header platform (env_const 1 (translation f1 f0 f0))
           (mkNode "" "" false) (one_point "A" 1 f1)
           [one_point "A" 1 f2]).
  vm_compute. left. reflexivity.
Defined.

Example scenario_1 :
  let env := env_const 1 (translation f1 f0 f0) in
  let cloud0 := one_point "A" 1 f1 in
  let c1 := one_point "A" 1 f2 in
  exists c,
    published (events (combineClouds env (mkNode "" "" false) [cloud0; c1])) = [c]
    /\ width c = 2 /\ header c = header cloud0.
Proof. eexists. vm_compute. repeat split; reflexivity. Qed.

(** C8, as stated, fails: with the reference frame [base] set and the first
    cloud in frame [A], the published cloud is in frame [base]. *)
Lemma combineClouds_output_frame_is_reference :
  ~ (forall (P : Platform) (env : Env) (node : Node) (cloud0 : PointCloud2)
            (rest : list PointCloud2) (c : PointCloud2),
        In c (published (events (combineClouds env node (cloud0 :: rest)))) ->
        stamp (header c) = stamp (header cloud0)
        /\ frame_id (header c) = frame_id (header cloud0)).
Proof.
  intros H.
  assert (Hin : In (hd empty_cloud
                      (published (events (@combineClouds platform
                         (env_const 1 (translation f1 f0 f0)) (mkNode "base" "" false)
                         [one_point "A" 1 f1; one_point "base" 1 f2]))))
                   (published (events (@combineClouds platform
                      (env_const 1 (translation f1 f0 f0)) (mkNode "base" "" false)
                      [one_point "A" 1 f1; one_point "base" 1 f2])))).
  { vm_compute. left. reflexivity. }
  apply (H platform) in Hin. destruct Hin as [_ Hframe].
  vm_compute in Hframe. discriminate Hframe.
Qed.

(** The displacement lookup fails for a cloud in another frame, stamped
    later than the first. *)
Lemma combineClouds_displacement_lookup_fails_witness :
  let env := env_of 1 (translation f1 f0 f0) null34 in
  let node := mkNode "" "odom" false in
  let cloud0 := one_point "A" 1 f1 in
  let cloud_i := one_point "B" 2 f2 in
  exists before output after c,
    events (combineClouds env node [cloud0; cloud_i])
    = before ++ events (combine_step env (called node) "A" cloud0 output cloud_i)
      ++ after ++ [Publish c].
Proof.
  apply (combineClouds_displacement_lookup_fails platform
           (env_of 1 (translation f1 f0 f0) null34) (mkNode "" "odom" false)
           (one_point "A" 1 f1) [] (one_point "B" 2 f2) []
           ltac:(discriminate) ltac:(discriminate) eq_refl);
    [discriminate | reflexivity].
Defined.


(** The second scenario of the specification: the second cloud is in frame
    [B], and the transform from [B] to [A] is the translation by [(1, 0, 0)]. *)
Example scenario_2 :
  let cloud_i := one_point "B" 1 f0 in
  let tmp := fst (transformPointCloud F32.add F32.mul garbage
                    (toEigen4f34 (translation f1 f0 f0)) cloud_i empty_cloud) in
  point_float tmp "x" 0 = Some f1 /\ point_float tmp "y" 0 = Some f0
  /\ point_float tmp "z" 0 = Some f0.
Proof. vm_compute. repeat split; reflexivity. Qed.

(** ** More about [transformPointCloud] *)

Section Lengths.
Variables fadd fmul : float32 -> float32 -> float32.
Variable stray : PointField.
Variable transform : Matrix4f.

Lemma points_loop_length in_ dist_idx n : forall i st,
  length (out_data (points_loop fadd fmul stray transform in_ dist_idx n i st))
  = length (out_data st).
Proof.
  induction n as [|n IH]; intros i st; cbn [points_loop]; [reflexivity|].
  rewrite IH. apply transform_point_length.
Qed.

Lemma viewpoints_loop_length out vp_idx n : forall i st,
  length (fst (viewpoints_loop fadd fmul stray transform out vp_idx n i st))
  = length (fst st).
Proof.
  induction n as [|n IH]; intros i st; cbn [viewpoints_loop]; [reflexivity|].
  rewrite IH. destruct st as [d reads]. unfold transform_viewpoint. cbn [fst].
  rewrite !length_store_float. reflexivity.
Qed.

End Lengths.

Lemma with_data_same c : with_data c (data c) = c.
Proof. destruct c. reflexivity. Qed.

(** X1. A cloud with float [x], [y], [z]: the result has the header, the
    dimensions, the field table, the steps and the flags of the input, and as
    many bytes of data, whatever [out] held and whatever the bytes are. *)
Theorem transformPointCloud_keeps_metadata
    (fadd fmul : float32 -> float32 -> float32) (stray : PointField)
    (transform : Matrix4f) (in_ out : PointCloud2) :
  has_xyz in_ = true ->
  let r := fst (transformPointCloud fadd fmul stray transform in_ out) in
  header r = header in_
  /\ height r = height in_
  /\ width r = width in_
  /\ fields r = fields in_
  /\ is_bigendian r = is_bigendian in_
  /\ point_step r = point_step in_
  /\ row_step r = row_step in_
  /\ is_dense r = is_dense in_
  /\ length (data r) = length (data in_).
Proof.
  intros Hxyz.
  destruct (has_xyz_fields _ Hxyz) as (fx & fy & fz & [Ex Dx] & [Ey Dy] & [Ez Dz]).
  rewrite (transformPointCloud_unfold fadd fmul stray transform in_ out fx fy fz
             Ex Dx Ey Dy Ez Dz).
  cbv zeta.
  destruct (lookup_field in_ "vp_x"); cbn [fst with_data header height width fields
    is_bigendian point_step row_step is_dense data]; repeat split.
  - rewrite viewpoints_loop_length. cbn [fst]. apply points_loop_length.
  - apply points_loop_length.
Qed.

Lemma transformPointCloud_keeps_metadata_witness :
  let r := fst (transformPointCloud F32.add F32.mul garbage
                  (toEigen4f34 (translation f2 f0 f0)) max_range_cloud (one_point "B" 7 f3)) in
  header r = header max_range_cloud
  /\ height r = height max_range_cloud
  /\ width r = width max_range_cloud
  /\ fields r = fields max_range_cloud
  /\ is_bigendian r = is_bigendian max_range_cloud
  /\ point_step r = point_step max_range_cloud
  /\ row_step r = row_step max_range_cloud
  /\ is_dense r = is_dense max_range_cloud
  /\ length (data r) = length (data max_range_cloud).
Proof.
  apply (transformPointCloud_keeps_metadata F32.add F32.mul garbage
           (toEigen4f34 (translation f2 f0 f0)) max_range_cloud (one_point "B" 7 f3)).
  reflexivity.
Defined.

(** X2. A cloud with float [x], [y], [z] and no point: the result is the
    input, whatever [out] held. *)
Theorem transformPointCloud_empty
    (fadd fmul : float32 -> float32 -> float32) (stray : PointField)
    (transform : Matrix4f) (in_ out : PointCloud2) :
  has_xyz in_ = true ->
  point_count in_ = 0 ->
  fst (transformPointCloud fadd fmul stray transform in_ out) = in_.
Proof.
  intros Hxyz Hn.
  destruct (has_xyz_fields _ Hxyz) as (fx & fy & fz & [Ex Dx] & [Ey Dy] & [Ez Dz]).
  rewrite (transformPointCloud_unfold fadd fmul stray transform in_ out fx fy fz
             Ex Dx Ey Dy Ez Dz).
  cbv zeta. unfold point_count in Hn. rewrite Hn.
  change (Z.to_nat (wrap_u32 0)) with 0%nat.
  destruct (lookup_field in_ "vp_x"); cbn [points_loop viewpoints_loop fst out_data];
    apply with_data_same.
Qed.

Lemma transformPointCloud_empty_witness :
  fst (transformPointCloud F32.add F32.mul garbage (toEigen4f34 (translation f2 f0 f0))
         (cloud_of "A" 1 xyzd []) (one_point "B" 7 f3))
  = cloud_of "A" 1 xyzd [].
Proof.
  apply (transformPointCloud_empty F32.add F32.mul garbage
           (toEigen4f34 (translation f2 f0 f0)) (cloud_of "A" 1 xyzd [])
           (one_point "B" 7 f3)); reflexivity.
Defined.

Lemma in_spatial_extent_false c k e :
  in_spatial_extent c k = false -> In e (spatial_extents c) ->
  k < fst e \/ fst e + snd e <= k.
Proof.
  intros H Hin.
  destruct (fst e <=? k) eqn:E1; [|apply Z.leb_gt in E1; lia].
  destruct (k <? fst e + snd e) eqn:E2; [|apply Z.ltb_ge in E2; lia].
  assert (Ht : in_spatial_extent c k = true).
  { apply existsb_exists. exists e. split; [exact Hin|]. rewrite E1, E2. reflexivity. }
  congruence.
Qed.

Lemma extent_in c nm size f :
  lookup_field c nm = Some f -> In (offset f, size) (extent c nm size).
Proof. intros H. unfold extent. rewrite H. left. reflexivity. Qed.

Lemma spatial_extents_in c f :
  (lookup_field c "x" = Some f -> In (offset f, 4) (spatial_extents c))
  /\ (lookup_field c "y" = Some f -> In (offset f, 4) (spatial_extents c))
  /\ (lookup_field c "z" = Some f -> In (offset f, 4) (spatial_extents c))
  /\ (lookup_field c "distance" = Some f -> In (offset f, 4) (spatial_extents c))
  /\ (lookup_field c "vp_x" = Some f -> In (offset f, 12) (spatial_extents c)).
Proof.
  unfold spatial_extents. repeat split; intros H; rewrite !in_app_iff.
  - left. apply extent_in, H.
  - right; left. apply extent_in, H.
  - right; right; left. apply extent_in, H.
  - right; right; right; left. apply extent_in, H.
  - right; right; right; right. apply extent_in, H.
Qed.

Section PointResultMore.
Variables fadd fmul : float32 -> float32 -> float32.
Variable stray : PointField.
Variable transform : Matrix4f.
Variables in_ out : PointCloud2.
Variables fx fy fz : PointField.
Variable i : Z.

Hypothesis Hok : buffer_ok in_ = true.
Hypothesis Ex : lookup_field in_ "x" = Some fx.
Hypothesis Dx : datatype fx = FLOAT32.
Hypothesis Ey : lookup_field in_ "y" = Some fy.
Hypothesis Dy : datatype fy = FLOAT32.
Hypothesis Ez : lookup_field in_ "z" = Some fz.
Hypothesis Dz : datatype fz = FLOAT32.
Hypothesis Hi : 0 <= i < point_count in_.

Abbreviation stored_i :=
  (out_data
     (transform_point fadd fmul stray transform in_ (getFieldIndex in_ "distance") i
        (mkLoopState (data in_)
           (Arr4 (offset fx + i * point_step in_) (offset fy + i * point_step in_)
                 (offset fz + i * point_step in_) (i * point_step in_)) []))).

(** What iteration [i] leaves outside [x], [y], [z] and [distance]. *)
Lemma stored_untouched k :
  (k < offset fx \/ offset fx + 4 <= k) ->
  (k < offset fy \/ offset fy + 4 <= k) ->
  (k < offset fz \/ offset fz + 4 <= k) ->
  (forall fd, lookup_field in_ "distance" = Some fd ->
              k < offset fd \/ offset fd + 4 <= k) ->
  load_byte stored_i (i * point_step in_ + k) = load_byte (data in_) (i * point_step in_ + k).
Proof.
  intros Hx Hy Hz Hd.
  pose proof (buffer_ok_layout _ _ _ _ Hok Ex Ey Ez) as L.
  pose proof (record_inside in_ fx fy fz i Hok Ex Ey Ez Hi) as Hin.
  destruct (transform_point_stores fadd fmul stray transform in_
              (getFieldIndex in_ "distance") i
              (Arr4 (offset fx + i * point_step in_) (offset fy + i * point_step in_)
                    (offset fz + i * point_step in_) (i * point_step in_)))
    as (ws & Hws & Hoff).
  rewrite Hws. apply apply_stores_frame.
  eapply Forall_impl; [exact Hoff|].
  cbn [a0 a1 a2]. intros w [E|[E|[E|[Hdi E]]]]; cbn beta in *.
  - lia.
  - lia.
  - lia.
  - destruct (getFieldIndex_nonneg _ _ Hdi) as (fd & Ed).
    rewrite (field_at_lookup stray _ _ _ Ed) in E.
    destruct L as [_ Lsmall _ _ _ _ _ _ _ _ Ld _]. rewrite Ed in Ld.
    specialize (Ld _ eq_refl). destruct Ld as (Ld & _).
    rewrite wrap_size_t_small, wrap_i32_small in E by lia.
    specialize (Hd fd Ed). lia.
Qed.

End PointResultMore.

(** X3. Under the buffer invariant, every byte of a record that lies
    outside [x], [y], [z], [distance] and the viewpoint group is copied from
    the input: the other fields of a point pass through the transform. *)
Theorem transformPointCloud_other_fields_copied
    (fadd fmul : float32 -> float32 -> float32) (stray : PointField)
    (transform : Matrix4f) (in_ out : PointCloud2) (i k : Z) :
  buffer_ok in_ = true ->
  has_xyz in_ = true ->
  0 <= i < point_count in_ ->
  0 <= k < point_step in_ ->
  in_spatial_extent in_ k = false ->
  record_byte (fst (transformPointCloud fadd fmul stray transform in_ out)) i k
  = record_byte in_ i k.
Proof.
  intros Hok Hxyz Hi Hk Hext.
  destruct (has_xyz_fields _ Hxyz) as (fx & fy & fz & [Ex Dx] & [Ey Dy] & [Ez Dz]).
  destruct (spatial_extents_in in_ fx) as (Inx & _).
  destruct (spatial_extents_in in_ fy) as (_ & Iny & _).
  destruct (spatial_extents_in in_ fz) as (_ & _ & Inz & _).
  assert (Hvp : in_viewpoint in_ k = false).
  { unfold in_viewpoint. destruct (lookup_field in_ "vp_x") as [fv|] eqn:Ev; [|reflexivity].
    destruct (spatial_extents_in in_ fv) as (_ & _ & _ & _ & Inv).
    pose proof (in_spatial_extent_false _ _ _ Hext (Inv Ev)) as H. cbn [fst snd] in H.
    destruct (offset fv <=? k) eqn:E1; [|reflexivity].
    destruct (k <? offset fv + 12) eqn:E2; [|reflexivity].
    apply Z.leb_le in E1. apply Z.ltb_lt in E2. lia. }
  rewrite (result_byte fadd fmul stray transform in_ out fx fy fz i
             Hok Ex Dx Ey Dy Ez Dz Hi k Hk Hvp).
  apply (stored_untouched fadd fmul stray transform in_ fx fy fz i Hok Ex Ey Ez Hi).
  - apply (in_spatial_extent_false _ _ _ Hext (Inx Ex)).
  - apply (in_spatial_extent_false _ _ _ Hext (Iny Ey)).
  - apply (in_spatial_extent_false _ _ _ Hext (Inz Ez)).
  - intros fd Ed. destruct (spatial_extents_in in_ fd) as (_ & _ & _ & Ind & _).
    apply (in_spatial_extent_false _ _ _ Hext (Ind Ed)).
Qed.

(** X4. A point whose [x], [y], [z] are finite keeps its [distance]: the
    field is rewritten for max-range points only. *)
Theorem transformPointCloud_finite_point_keeps_distance
    (fadd fmul : float32 -> float32 -> float32) (stray : PointField)
    (transform : Matrix4f) (in_ out : PointCloud2) (i : Z) (x y z : float32) :
  buffer_ok in_ = true ->
  has_xyz in_ = true ->
  0 <= i < point_count in_ ->
  point_float in_ "x" i = Some x ->
  point_float in_ "y" i = Some y ->
  point_float in_ "z" i = Some z ->
  F32.isfinite x && F32.isfinite y && F32.isfinite z = true ->
  point_float (fst (transformPointCloud fadd fmul stray transform in_ out)) "distance" i
  = point_float in_ "distance" i.
Proof.
  intros Hok Hxyz Hi Hx Hy Hz Hfin.
  destruct (has_xyz_fields _ Hxyz) as (fx & fy & fz & [Ex Dx] & [Ey Dy] & [Ez Dz]).
  pose proof (buffer_ok_layout _ _ _ _ Hok Ex Ey Ez) as L.
  pose proof (record_inside in_ fx fy fz i Hok Ex Ey Ez Hi) as Hin.
  unfold point_float in *. rewrite Ex in Hx. rewrite Ey in Hy. rewrite Ez in Hz.
  injection Hx as <-. injection Hy as <-. injection Hz as <-.
  rewrite (result_lookup fadd fmul stray transform in_ out fx fy fz Hok Ex Dx Ey Dy Ez Dz).
  destruct (lookup_field in_ "distance") as [fd|] eqn:Ed; [|reflexivity].
  destruct L as [_ _ _ _ Lx Ly Lz _ _ _ Ld Lv].
  specialize (Ld _ eq_refl). destruct Ld as (Ld & Ldx & Ldy & Ldz).
  f_equal.
  rewrite (result_float fadd fmul stray transform in_ out fx fy fz i
             Hok Ex Dx Ey Dy Ez Dz Hi); [|lia|lia|].
  - offsets_first i in_.
    rewrite transform_point_finite by exact Hfin. cbv zeta.
    read_back. reflexivity.
  - intros fv Ev. rewrite Ev in Lv. specialize (Lv _ eq_refl).
    destruct Lv as (_ & _ & _ & _ & Lvd). apply (Lvd _ eq_refl).
Qed.

Lemma transformPointCloud_other_fields_copied_witness :
  let in_ := cloud_of "A" 1 ["x"; "y"; "z"; "intensity"] [[f1; f2; f3; f7]] in
  record_byte (fst (transformPointCloud F32.add F32.mul garbage
                      (toEigen4f34 (translation f2 f0 f0)) in_ empty_cloud)) 0 14
  = record_byte in_ 0 14.
Proof.
  apply (transformPointCloud_other_fields_copied F32.add F32.mul garbage
           (toEigen4f34 (translation f2 f0 f0))
           (cloud_of "A" 1 ["x"; "y"; "z"; "intensity"] [[f1; f2; f3; f7]]) empty_cloud 0 14).
  - reflexivity.
  - reflexivity.
  - vm_compute. split; [discriminate | reflexivity].
  - vm_compute. split; [discriminate | reflexivity].
  - reflexivity.
Defined.

Lemma transformPointCloud_finite_point_keeps_distance_witness :
  point_float (fst (transformPointCloud F32.add F32.mul garbage
                      (toEigen4f34 (translation f2 f0 f0)) (one_point "A" 1 f1) empty_cloud))
              "distance" 0
  = point_float (one_point "A" 1 f1) "distance" 0.
Proof.
  apply (transformPointCloud_finite_point_keeps_distance F32.add F32.mul garbage
           (toEigen4f34 (translation f2 f0 f0)) (one_point "A" 1 f1) empty_cloud 0 f1 f1 f1).
  - reflexivity.
  - reflexivity.
  - vm_compute. split; [discriminate | reflexivity].
  - reflexivity.
  - reflexivity.
  - reflexivity.
  - reflexivity.
Defined.

(** ** The values the second loop leaves *)

Section ViewpointValue.
Variables fadd fmul : float32 -> float32 -> float32.
Variable stray : PointField.
Variable transform : Matrix4f.
Variable out : PointCloud2.
Variable vp_idx : Z.
Variable N : Z.

Abbreviation wps := (point_step out).
Abbreviation woff := (offset (field_at stray (fields out) vp_idx)).
Abbreviation wstep := (transform_viewpoint fadd fmul stray transform out vp_idx).
Abbreviation wloop := (viewpoints_loop fadd fmul stray transform out vp_idx).

Hypothesis Hv : 0 <= woff /\ woff + 12 <= wps.
Hypothesis Hsize : 0 <= N /\ N * wps < 2^31.

Lemma transform_viewpoint_value i d reads :
  0 <= i < N -> N * wps <= Z.of_nat (length d) ->
  let o := i * wps + woff in
  let p := matvec fadd fmul transform
             (Vec4 (load_float d o) (load_float d (o + 4)) (load_float d (o + 8)) F32.one) in
  load_float (fst (wstep i (d, reads))) o = v0 p
  /\ load_float (fst (wstep i (d, reads))) (o + 4) = v1 p
  /\ load_float (fst (wstep i (d, reads))) (o + 8) = v2 p.
Proof.
  intros Hi Hlen. cbv zeta.
  assert (Hb : 0 <= i * wps /\ (i + 1) * wps <= N * wps) by (split; nia).
  unfold transform_viewpoint. cbn [fst].
  rewrite wrap_size_t_small by lia.
  repeat split; read_back; reflexivity.
Qed.

Lemma viewpoints_loop_value n : forall i st j,
  0 <= i -> i + Z.of_nat n <= N -> i <= j < i + Z.of_nat n ->
  N * wps <= Z.of_nat (length (fst st)) ->
  let o := j * wps + woff in
  let p := matvec fadd fmul transform
             (Vec4 (load_float (fst st) o) (load_float (fst st) (o + 4))
                   (load_float (fst st) (o + 8)) F32.one) in
  load_float (fst (wloop n i st)) o = v0 p
  /\ load_float (fst (wloop n i st)) (o + 4) = v1 p
  /\ load_float (fst (wloop n i st)) (o + 8) = v2 p.
Proof.
  induction n as [|n IH]; intros i st j Hi Hn Hj Hlen; [lia|].
  cbn [viewpoints_loop]. cbv zeta.
  destruct (transform_viewpoint_frame fadd fmul stray transform out vp_idx N Hv Hsize
              i st ltac:(lia)) as (Hlen1 & Hframe1 & _).
  assert (Hb : 0 <= j * wps /\ (j + 1) * wps <= N * wps) by (split; nia).
  destruct (Z.eq_dec j i) as [->|Hne].
  - destruct (viewpoints_loop_frame fadd fmul stray transform out vp_idx N Hv Hsize
                n (i + 1) (wstep i st) ltac:(lia) ltac:(lia)) as (_ & Hframe & _).
    assert (Hsame : forall k, i * wps + woff <= k < i * wps + woff + 12 ->
              load_byte (fst (wloop n (i + 1) (wstep i st))) k
              = load_byte (fst (wstep i st)) k).
    { intros k Hk. apply Hframe. intros j' Hj'. nia. }
    rewrite !(load_float_ext (fst (wloop n (i + 1) (wstep i st))) (fst (wstep i st)))
      by (intros k' Hk'; apply Hsame; lia).
    destruct st as [d reads]. cbn [fst] in Hlen |- *.
    apply (transform_viewpoint_value i d reads); [lia | exact Hlen].
  - rewrite <- !(load_float_ext (fst (wstep i st)) (fst st))
      by (intros k' Hk'; apply Hframe1; nia).
    apply (IH (i + 1) (wstep i st) j); [lia | lia | lia |].
    rewrite Hlen1. exact Hlen.
Qed.

End ViewpointValue.

Section TwoPasses.
Variables fadd fmul : float32 -> float32 -> float32.
Variable stray : PointField.
Variable transform : Matrix4f.
Variables in_ out : PointCloud2.
Variables fx fy fz : PointField.

Hypothesis Hok : buffer_ok in_ = true.
Hypothesis Ex : lookup_field in_ "x" = Some fx.
Hypothesis Dx : datatype fx = FLOAT32.
Hypothesis Ey : lookup_field in_ "y" = Some fy.
Hypothesis Dy : datatype fy = FLOAT32.
Hypothesis Ez : lookup_field in_ "z" = Some fz.
Hypothesis Dz : datatype fz = FLOAT32.

(** The buffer between the two loops: record [j] holds what iteration [j]
    stores into the bytes of [in_]. *)
Lemma transformPointCloud_first_pass :
  exists d1 reads1,
    length d1 = length (data in_)
    /\ (forall j k,
          0 <= j < point_count in_ -> 0 <= k < point_step in_ ->
          load_byte d1 (j * point_step in_ + k)
          = load_byte
              (out_data
                 (transform_point fadd fmul stray transform in_ (getFieldIndex in_ "distance") j
                    (mkLoopState (data in_)
                       (Arr4 (offset fx + j * point_step in_) (offset fy + j * point_step in_)
                             (offset fz + j * point_step in_) (j * point_step in_)) [])))
              (j * point_step in_ + k))
    /\ data (fst (transformPointCloud fadd fmul stray transform in_ out))
       = match lookup_field in_ "vp_x" with
         | Some _ =>
             fst (viewpoints_loop fadd fmul stray transform in_ (getFieldIndex in_ "vp_x")
                    (Z.to_nat (point_count in_)) 0 (d1, reads1))
         | None => d1
         end.
Proof.
  pose proof (buffer_ok_layout _ _ _ _ Hok Ex Ey Ez) as L.
  destruct (point_count_bounds _ _ _ _ _ _ L) as (HN0 & HNps & Hwrap).
  rewrite (transformPointCloud_unfold fadd fmul stray transform in_ out fx fy fz
             Ex Dx Ey Dy Ez Dz).
  cbv zeta. rewrite Hwrap.
  set (di := getFieldIndex in_ "distance").
  assert (Hd : 0 <= di ->
               0 <= offset (field_at stray (fields in_) di)
               /\ offset (field_at stray (fields in_) di) + 4 <= point_step in_).
  { intros Hdi. destruct (getFieldIndex_nonneg _ _ Hdi) as (fd & Ed).
    unfold di. rewrite (field_at_lookup stray _ _ _ Ed).
    apply (lay_d _ _ _ _ _ _ L). rewrite Ed. reflexivity. }
  pose proof (points_loop_inv fadd fmul stray transform in_ di
                (offset fx) (offset fy) (offset fz) (point_count in_)
                (lay_x _ _ _ _ _ _ L) (lay_y _ _ _ _ _ _ L) (lay_z _ _ _ _ _ _ L)
                Hd (conj HN0 HNps) (Z.to_nat (point_count in_)) 0
                (mkLoopState (data in_)
                   (Arr4 (wrap_i32 (offset fx)) (wrap_i32 (offset fy)) (wrap_i32 (offset fz)) 0)
                   [getFieldIndex in_ "x"; getFieldIndex in_ "y"; getFieldIndex in_ "z";
                    getFieldIndex in_ "x"; getFieldIndex in_ "y"; getFieldIndex in_ "z"])
                ltac:(lia) ltac:(lia) ltac:(symmetry; apply offsets_at_0))
    as (Hlen & _ & Hrec & _).
  set (st := points_loop _ _ _ _ _ _ _ _ _) in *.
  cbn [out_data] in Hlen, Hrec.
  exists (out_data st), (field_reads st). split; [exact Hlen|]. split.
  - intros j k Hj Hk. rewrite (Hrec j) by lia.
    rewrite (offsets_at_exact in_ (offset fx) (offset fy) (offset fz) (point_count in_)
               (lay_x _ _ _ _ _ _ L) (lay_y _ _ _ _ _ _ L) (lay_z _ _ _ _ _ _ L)
               (conj HN0 HNps) j Hj).
    reflexivity.
  - destruct (lookup_field in_ "vp_x"); reflexivity.
Qed.

End TwoPasses.

(** X5. Under the buffer invariant, in a cloud with a viewpoint group the
    three floats that start at the offset of [vp_x] are replaced, for every
    point and whatever its [x], [y], [z], by the first three components of
    [transform * (vp, 1)]. *)
Theorem transformPointCloud_viewpoint
    (fadd fmul : float32 -> float32 -> float32) (stray : PointField)
    (transform : Matrix4f) (in_ out : PointCloud2) (i : Z) (vp : Vector4f) :
  buffer_ok in_ = true ->
  has_xyz in_ = true ->
  0 <= i < point_count in_ ->
  viewpoint in_ i = Some vp ->
  let p := matvec fadd fmul transform vp in
  viewpoint (fst (transformPointCloud fadd fmul stray transform in_ out)) i
  = Some (Vec4 (v0 p) (v1 p) (v2 p) F32.one).
Proof.
  intros Hok Hxyz Hi Hvp.
  destruct (has_xyz_fields _ Hxyz) as (fx & fy & fz & [Ex Dx] & [Ey Dy] & [Ez Dz]).
  pose proof (buffer_ok_layout _ _ _ _ Hok Ex Ey Ez) as L.
  destruct (point_count_bounds _ _ _ _ _ _ L) as (HN0 & HNps & _).
  pose proof (record_inside in_ fx fy fz i Hok Ex Ey Ez Hi) as Hin.
  unfold viewpoint in *.
  rewrite (result_lookup fadd fmul stray transform in_ out fx fy fz Hok Ex Dx Ey Dy Ez Dz).
  rewrite (proj2 (result_fields fadd fmul stray transform in_ out fx fy fz
                    Hok Ex Dx Ey Dy Ez Dz)).
  destruct (lookup_field in_ "vp_x") as [fv|] eqn:Ev; [|discriminate].
  injection Hvp as <-. cbv zeta.
  destruct (transformPointCloud_first_pass fadd fmul stray transform in_ out fx fy fz
              Hok Ex Dx Ey Dy Ez Dz) as (d1 & reads1 & Hlen1 & Hrec1 & Hdata).
  rewrite Ev in Hdata. rewrite Hdata.
  assert (Lv := lay_v _ _ _ _ _ _ L). specialize (Lv _ eq_refl).
  destruct Lv as (Lvin & Lvx & Lvy & Lvz & Lvd).
  assert (Hv : 0 <= offset (field_at stray (fields in_) (getFieldIndex in_ "vp_x"))
               /\ offset (field_at stray (fields in_) (getFieldIndex in_ "vp_x")) + 12
                  <= point_step in_).
  { rewrite (field_at_lookup stray _ _ _ Ev). exact Lvin. }
  assert (Hlen : point_count in_ * point_step in_ <= Z.of_nat (length d1)).
  { rewrite Hlen1, (lay_len _ _ _ _ _ _ L). lia. }
  pose proof (viewpoints_loop_value fadd fmul stray transform in_ (getFieldIndex in_ "vp_x")
                (point_count in_) Hv (conj HN0 HNps) (Z.to_nat (point_count in_)) 0
                (d1, reads1) i ltac:(lia) ltac:(lia) ltac:(lia) Hlen) as Hval.
  cbv zeta in Hval. cbn [fst] in Hval.
  rewrite (field_at_lookup stray _ _ _ Ev) in Hval.
  assert (Hsame : forall k, offset fv <= k < offset fv + 12 ->
            load_byte d1 (i * point_step in_ + k) = load_byte (data in_) (i * point_step in_ + k)).
  { intros k Hk. rewrite Hrec1 by lia.
    apply (stored_untouched fadd fmul stray transform in_ fx fy fz i Hok Ex Ey Ez Hi);
      try lia.
    intros fd Ed. specialize (Lvd _ (f_equal (fmap offset) Ed)). lia. }
  rewrite !(load_float_ext d1 (data in_)) in Hval
    by (intros k' Hk';
        replace k' with (i * point_step in_ + (k' - i * point_step in_)) by lia;
        apply Hsame; lia).
  destruct Hval as (H0 & H1 & H2). rewrite H0, H1, H2. reflexivity.
Qed.

Lemma transformPointCloud_viewpoint_witness :
  let transform := toEigen4f34 (translation f2 f0 f0) in
  let p := matvec F32.add F32.mul transform (Vec4 f0 f0 f0 F32.one) in
  viewpoint (fst (transformPointCloud F32.add F32.mul garbage transform
                    invalid_cloud_vp empty_cloud)) 0
  = Some (Vec4 (v0 p) (v1 p) (v2 p) F32.one).
Proof.
  apply (transformPointCloud_viewpoint F32.add F32.mul garbage
           (toEigen4f34 (translation f2 f0 f0)) invalid_cloud_vp empty_cloud 0
           (Vec4 f0 f0 f0 F32.one)).
  - reflexivity.
  - reflexivity.
  - vm_compute. split; [discriminate | reflexivity].
  - reflexivity.
Defined.

(** ** Which subscripts of the field table are valid *)

Lemma valid_field_index_lookup c nm f :
  lookup_field c nm = Some f -> valid_field_index c (getFieldIndex c nm) = true.
Proof.
  intros H. apply lookup_field_Some in H as [[Hlo Hhi] _]. unfold valid_field_index.
  rewrite (proj2 (Z.leb_le _ _) Hlo), (proj2 (Z.ltb_lt _ _) Hhi). reflexivity.
Qed.

Lemma Forall_repeat_same {A} (Q : A -> Prop) x n : Q x -> Forall Q (repeat x n).
Proof. intros H. induction n; cbn [repeat]; constructor; assumption. Qed.

Section ReadsValid.
Variables fadd fmul : float32 -> float32 -> float32.
Variable stray : PointField.
Variable transform : Matrix4f.
Variables in_ out : PointCloud2.

Abbreviation reads_of := (snd (transformPointCloud fadd fmul stray transform in_ out)).
Abbreviation valid := (fun idx => valid_field_index in_ idx = true).

Lemma rejected_reads_valid : has_xyz in_ = false -> Forall valid reads_of.
Proof.
  intros H. unfold transformPointCloud. cbv zeta. rewrite !getFieldIndex_eqb.
  unfold has_xyz, is_float32_field in H.
  destruct (lookup_field in_ "x") as [fx|] eqn:Ex; [|constructor].
  destruct (lookup_field in_ "y") as [fy|] eqn:Ey; [|constructor].
  destruct (lookup_field in_ "z") as [fz|] eqn:Ez; [|constructor].
  cbn [orb].
  rewrite (field_at_lookup stray _ _ _ Ex), (field_at_lookup stray _ _ _ Ey),
          (field_at_lookup stray _ _ _ Ez).
  pose proof (valid_field_index_lookup _ _ _ Ex) as Vx.
  pose proof (valid_field_index_lookup _ _ _ Ey) as Vy.
  pose proof (valid_field_index_lookup _ _ _ Ez) as Vz.
  destruct (datatype fx =? FLOAT32); cbn [negb orb snd]; [|split_Forall; assumption].
  destruct (datatype fy =? FLOAT32); cbn [negb orb snd]; [|split_Forall; assumption].
  destruct (datatype fz =? FLOAT32); cbn [negb orb snd]; [discriminate|].
  split_Forall; assumption.
Qed.

Lemma accepted_reads_valid :
  has_xyz in_ = true ->
  (lookup_field in_ "distance" = None -> wrap_u32 (width in_ * height in_) <= 0) ->
  Forall valid reads_of.
Proof.
  intros Hxyz Hd.
  destruct (has_xyz_fields _ Hxyz) as (fx & fy & fz & [Ex Dx] & [Ey Dy] & [Ez Dz]).
  rewrite (transformPointCloud_unfold fadd fmul stray transform in_ out fx fy fz
             Ex Dx Ey Dy Ez Dz).
  cbv zeta.
  pose proof (valid_field_index_lookup _ _ _ Ex) as Vx.
  pose proof (valid_field_index_lookup _ _ _ Ey) as Vy.
  pose proof (valid_field_index_lookup _ _ _ Ez) as Vz.
  assert (Hfirst : Forall valid
            (field_reads
               (points_loop fadd fmul stray transform in_ (getFieldIndex in_ "distance")
                  (Z.to_nat (wrap_u32 (width in_ * height in_))) 0
                  (mkLoopState (data in_)
                     (Arr4 (wrap_i32 (offset fx)) (wrap_i32 (offset fy))
                           (wrap_i32 (offset fz)) 0)
                     [getFieldIndex in_ "x"; getFieldIndex in_ "y"; getFieldIndex in_ "z";
                      getFieldIndex in_ "x"; getFieldIndex in_ "y"; getFieldIndex in_ "z"])))).
  { rewrite points_loop_reads. cbn [field_reads]. apply Forall_app. split.
    - split_Forall; assumption.
    - destruct (lookup_field in_ "distance") as [fd|] eqn:Ed.
      + apply Forall_repeat_same. apply (valid_field_index_lookup _ _ _ Ed).
      + specialize (Hd eq_refl).
        replace (Z.to_nat (wrap_u32 (width in_ * height in_))) with 0%nat by lia.
        constructor. }
  destruct (lookup_field in_ "vp_x") as [fv|] eqn:Ev; cbn [snd].
  - rewrite viewpoints_loop_reads. cbn [snd]. apply Forall_app. split; [exact Hfirst|].
    apply Forall_repeat_same. apply (valid_field_index_lookup _ _ _ Ev).
  - exact Hfirst.
Qed.

End ReadsValid.

(** X6. Every subscript of the field table made by [transformPointCloud]
    is inside the table, except in one case: the cloud has float [x], [y],
    [z], no [distance], and at least one point. *)
Theorem transformPointCloud_field_reads_valid
    (fadd fmul : float32 -> float32 -> float32) (stray : PointField)
    (transform : Matrix4f) (in_ out : PointCloud2) :
  Forall (fun idx => valid_field_index in_ idx = true)
         (snd (transformPointCloud fadd fmul stray transform in_ out))
  <-> ~ (has_xyz in_ = true
         /\ lookup_field in_ "distance" = None
         /\ 0 < wrap_u32 (width in_ * height in_)).
Proof.
  split.
  - intros Hall (Hxyz & Hd & Hn).
    pose proof (transformPointCloud_stray_read fadd fmul stray transform in_ out Hxyz Hd Hn)
      as Hin.
    pose proof (proj1 (List.Forall_forall _ _) Hall _ Hin) as H.
    unfold valid_field_index in H. cbn [Z.leb Z.compare andb] in H. discriminate H.
  - intros Hnot. destruct (has_xyz in_) eqn:Hxyz.
    + apply accepted_reads_valid; [exact Hxyz|].
      intros Hd. destruct (Z_lt_le_dec 0 (wrap_u32 (width in_ * height in_))) as [Hn|Hn];
        [|exact Hn].
      exfalso. apply Hnot. repeat split; assumption.
    + apply rejected_reads_valid, Hxyz.
Qed.

(** X7. What the subscript at [-1] reads never reaches the result: the
    function returns the same cloud and makes the same subscripts whatever
    field a read outside the table yields. *)
Theorem transformPointCloud_ignores_stray_read
    (fadd fmul : float32 -> float32 -> float32) (stray stray' : PointField)
    (transform : Matrix4f) (in_ out : PointCloud2) :
  transformPointCloud fadd fmul stray transform in_ out
  = transformPointCloud fadd fmul stray' transform in_ out.
Proof. apply transformPointCloud_stray. Qed.

(** ** More about [combineClouds] *)

Section AggregatorCounts.
Context {P : Platform}.

Lemma count_if_app {A} (p : A -> bool) l l' :
  count_if p (l ++ l') = (count_if p l + count_if p l')%nat.
Proof. unfold count_if. rewrite List.filter_app, length_app. reflexivity. Qed.

(** The trace of a call, for every input. *)
Lemma combineClouds_events env node cloudMsgs :
  events (combineClouds env node cloudMsgs)
  = match cloudMsgs with
    | cloud0 :: ((_ :: _) as rest) =>
        if Nat.eqb (get_subscription_count env) 0 then []
        else
          let r := align_reference env (called node) cloud0 in
          events r
          ++ match value r with
             | None => []
             | Some (output, frameId) =>
                 let m := combine_loop env (called node) frameId cloud0 output rest in
                 events m
                 ++ [Publish (with_header (moveFromPCL (value m))
                                (mkHeader (stamp (header cloud0)) frameId))]
             end
    | _ => []
    end.
Proof.
  unfold combineClouds. destruct cloudMsgs as [|cloud0 [|c1 rest]]; try reflexivity.
  destruct (Nat.eqb (get_subscription_count env) 0); cbn [negb]; [reflexivity|].
  rewrite events_bind. cbv zeta. f_equal.
  destruct (value (align_reference env (called node) cloud0)) as [[output frameId]|];
    [|reflexivity].
  rewrite events_bind. f_equal.
Qed.

Lemma combineClouds_node env node cloudMsgs :
  fst (value (combineClouds env node cloudMsgs)) = called node.
Proof.
  unfold combineClouds. destruct cloudMsgs as [|cloud0 [|c1 rest]]; try reflexivity.
  destruct (Nat.eqb (get_subscription_count env) 0); cbn [negb]; [reflexivity|].
  rewrite value_bind.
  destruct (value (align_reference env (called node) cloud0)) as [[output frameId]|];
    [|reflexivity].
  rewrite value_bind. reflexivity.
Qed.

Lemma align_reference_counts env node cloud0 :
  let evs := events (align_reference env node cloud0) in
  (count_if is_lookup evs <= 1)%nat
  /\ (count_if is_transform evs <= 1)%nat
  /\ count_if is_concatenate evs = 0%nat
  /\ count_if is_displacement_lookup evs = 0%nat.
Proof.
  unfold align_reference.
  destruct (negb _ && negb _); [|cbn; lia].
  unfold lookup, transform_cloud, bind, emit, ret.
  destruct (isNull _); cbn; lia.
Qed.

Lemma align_cloud_counts env node frameId cloud0 cloud_i :
  let evs := events (align_cloud env node frameId cloud0 cloud_i) in
  (count_if is_lookup evs <= 2)%nat
  /\ (count_if is_transform evs <= 2)%nat
  /\ count_if is_concatenate evs = 0%nat.
Proof.
  unfold align_cloud, lookup_displacement, lookup, transform_cloud, bind, emit, ret.
  destruct (negb _ && negb _); destruct (negb (String.eqb _ _));
    destruct (negb (isNull _)); cbn; lia.
Qed.

Lemma combine_step_counts env node frameId cloud0 output cloud_i :
  let evs := events (combine_step env node frameId cloud0 output cloud_i) in
  (count_if is_lookup evs <= 2)%nat
  /\ (count_if is_transform evs <= 2)%nat
  /\ count_if is_concatenate evs = 1%nat.
Proof.
  cbv zeta. unfold combine_step. rewrite events_bind, !count_if_app.
  pose proof (align_cloud_counts env node frameId cloud0 cloud_i) as H. cbv zeta in H.
  unfold concatenate, bind, emit, ret. cbn [events fst app].
  change (count_if is_lookup [Concatenate _ _]) with 0%nat.
  change (count_if is_transform [Concatenate _ _]) with 0%nat.
  change (count_if is_concatenate [Concatenate _ _]) with 1%nat.
  lia.
Qed.

Lemma combine_loop_counts env node frameId cloud0 rest : forall output,
  let evs := events (combine_loop env node frameId cloud0 output rest) in
  (count_if is_lookup evs <= 2 * length rest)%nat
  /\ (count_if is_transform evs <= 2 * length rest)%nat
  /\ count_if is_concatenate evs = length rest.
Proof.
  induction rest as [|c rest IH]; intros output; cbv zeta.
  - cbn. lia.
  - cbn [combine_loop]. rewrite events_bind, !count_if_app.
    pose proof (combine_step_counts env node frameId cloud0 output c) as H1. cbv zeta in H1.
    pose proof (IH (value (combine_step env node frameId cloud0 output c))) as H2.
    cbv zeta in H2. cbn [length]. lia.
Qed.

End AggregatorCounts.

(** X8. A call of [combineClouds] on [N] clouds makes at most [2N - 1]
    transform lookups, transforms at most [2N - 1] clouds, and publishes at
    most once; when it publishes it has concatenated exactly [N - 1] times. *)
Theorem combineClouds_work_bounded
    (P : Platform) (env : Env) (node : Node) (cloudMsgs : list PointCloud2) :
  let evs := events (combineClouds env node cloudMsgs) in
  (count_if is_lookup evs <= 2 * length cloudMsgs - 1)%nat
  /\ (count_if is_transform evs <= 2 * length cloudMsgs - 1)%nat
  /\ (length (published evs) <= 1)%nat
  /\ (count_if is_concatenate evs
      = if Nat.eqb (length (published evs)) 1 then length cloudMsgs - 1 else 0)%nat.
Proof.
  cbv zeta. rewrite combineClouds_events.
  destruct cloudMsgs as [|cloud0 [|c1 rest]]; [cbn; lia | cbn; lia |].
  destruct (Nat.eqb (get_subscription_count env) 0); [cbn; lia|].
  cbv zeta.
  pose proof (align_reference_counts env (called node) cloud0) as H0. cbv zeta in H0.
  pose proof (align_reference_unpublished env (called node) cloud0) as Hp0.
  destruct (value (align_reference env (called node) cloud0)) as [[output frameId]|].
  - pose proof (combine_loop_counts env (called node) frameId cloud0 (c1 :: rest) output)
      as H1. cbv zeta in H1.
    rewrite !count_if_app, !published_app, Hp0, combine_loop_unpublished.
    cbn [app published length Nat.eqb].
    change (count_if is_lookup [Publish _]) with 0%nat.
    change (count_if is_transform [Publish _]) with 0%nat.
    change (count_if is_concatenate [Publish _]) with 0%nat.
    cbn [length] in *. lia.
  - rewrite app_nil_r, Hp0. cbn [length Nat.eqb]. cbn [length]. lia.
Qed.

Section AggregatorOrder.
Context {P : Platform}.

Lemma combine_loop_value env node frameId cloud0 rest : forall output,
  value (combine_loop env node frameId cloud0 output rest)
  = fold_left concatenatePointCloud
      (map (fun c => value (align_cloud env node frameId cloud0 c)) rest) output.
Proof.
  induction rest as [|c rest IH]; intros output; [reflexivity|].
  cbn [combine_loop map fold_left]. rewrite value_bind, IH. f_equal.
  unfold combine_step. rewrite value_bind. reflexivity.
Qed.

Lemma align_reference_value env node cloud0 :
  reference_resolved env node cloud0 = true ->
  value (align_reference env node cloud0)
  = Some (if string_empty (frameId_ node)
             || String.eqb (frameId_ node) (frame_id (header cloud0))
          then toPCL cloud0
          else toPCL (fst (transformPointCloud float_add float_mul stray_field
                             (toEigen4f (getTransform env (frameId_ node)
                                           (frame_id (header cloud0))
                                           (stamp (header cloud0))))
                             cloud0 empty_cloud)),
          reference_frame node cloud0).
Proof.
  unfold reference_resolved, align_reference, reference_frame. intros H.
  destruct (string_empty (frameId_ node)) eqn:E1; cbn [negb andb orb]; [reflexivity|].
  destruct (String.eqb (frameId_ node) (frame_id (header cloud0))) eqn:E2; cbn [negb].
  - apply String.eqb_eq in E2. rewrite <- E2. reflexivity.
  - cbn [orb] in H. apply negb_true_iff in H.
    unfold lookup, transform_cloud, bind, emit, ret. rewrite H. reflexivity.
Qed.

Lemma Time_eqb_refl a : Time_eqb a a = true.
Proof. unfold Time_eqb. rewrite !Z.eqb_refl. reflexivity. Qed.

Lemma align_cloud_no_displacement_lookup env node frameId cloud0 cloud_i :
  fixedFrameId_ node = "" \/ stamp (header cloud_i) = stamp (header cloud0) ->
  count_if is_displacement_lookup (events (align_cloud env node frameId cloud0 cloud_i))
  = 0%nat.
Proof.
  intros H. unfold align_cloud.
  assert (E : negb (string_empty (fixedFrameId_ node))
              && negb (Time_eqb (stamp (header cloud0)) (stamp (header cloud_i))) = false).
  { destruct H as [->| ->]; [reflexivity|]. rewrite Time_eqb_refl. apply andb_false_r. }
  rewrite E. unfold lookup, transform_cloud, bind, emit, ret.
  destruct (negb (String.eqb _ _)); destruct (negb (isNull _)); reflexivity.
Qed.

Lemma combine_loop_no_displacement_lookup env node frameId cloud0 rest : forall output,
  fixedFrameId_ node = ""
  \/ Forall (fun c => stamp (header c) = stamp (header cloud0)) rest ->
  count_if is_displacement_lookup (events (combine_loop env node frameId cloud0 output rest))
  = 0%nat.
Proof.
  induction rest as [|c rest IH]; intros output H; [reflexivity|].
  cbn [combine_loop]. rewrite events_bind, count_if_app.
  unfold combine_step at 1. rewrite events_bind, count_if_app.
  rewrite align_cloud_no_displacement_lookup, IH.
  - unfold concatenate, bind, emit, ret. reflexivity.
  - destruct H as [H|H]; [left; exact H|right]. inversion H; assumption.
  - destruct H as [H|H]; [left; exact H|right]. inversion H; assumption.
Qed.

(** A cloud in the reference frame for which no displacement is looked up
    goes to the concatenation as it is. *)
Lemma align_cloud_passthrough env node frameId cloud0 cloud_i :
  isNull Transform_default = true ->
  fixedFrameId_ node = "" \/ stamp (header cloud_i) = stamp (header cloud0) ->
  frame_id (header cloud_i) = frameId ->
  align_cloud env node frameId cloud0 cloud_i = ([], toPCL cloud_i).
Proof.
  intros Hnull H Hf. unfold align_cloud.
  assert (E : negb (string_empty (fixedFrameId_ node))
              && negb (Time_eqb (stamp (header cloud0)) (stamp (header cloud_i))) = false).
  { destruct H as [->| ->]; [reflexivity|]. rewrite Time_eqb_refl. apply andb_false_r. }
  rewrite E, <- Hf, String.eqb_refl. unfold bind, ret. rewrite Hnull. reflexivity.
Qed.

Lemma combine_loop_passthrough env node frameId cloud0 rest : forall output,
  isNull Transform_default = true ->
  fixedFrameId_ node = ""
  \/ Forall (fun c => stamp (header c) = stamp (header cloud0)) rest ->
  Forall (fun c => frame_id (header c) = frameId) rest ->
  let m := combine_loop env node frameId cloud0 output rest in
  count_if is_lookup (events m) = 0%nat
  /\ count_if is_transform (events m) = 0%nat
  /\ value m = fold_left concatenatePointCloud (map toPCL rest) output.
Proof.
  induction rest as [|c rest IH]; intros output Hnull H Hf; cbv zeta.
  - repeat split; reflexivity.
  - apply Forall_cons_1 in Hf as [Hfc Hfrest].
    assert (Hc : fixedFrameId_ node = "" \/ stamp (header c) = stamp (header cloud0)).
    { destruct H as [H|H]; [left; exact H|right]. inversion H; assumption. }
    assert (Hrest : fixedFrameId_ node = ""
                    \/ Forall (fun c => stamp (header c) = stamp (header cloud0)) rest).
    { destruct H as [H|H]; [left; exact H|right]. inversion H; assumption. }
    cbn [combine_loop map fold_left]. rewrite events_bind, value_bind, !count_if_app.
    unfold combine_step.
    rewrite (align_cloud_passthrough env node _ cloud0 c Hnull Hc Hfc).
    unfold concatenate, bind, emit, ret. cbn [events value fst snd app].
    destruct (IH (concatenatePointCloud output (toPCL c)) Hnull Hrest Hfrest)
      as (H1 & H2 & H3).
    cbv zeta in H1, H2, H3. rewrite H1, H2, H3. repeat split; reflexivity.
Qed.

Lemma combineClouds_returns env node cloud0 c1 rest :
  snd (value (combineClouds env node (cloud0 :: c1 :: rest))) = Returned.
Proof.
  unfold combineClouds.
  destruct (Nat.eqb (get_subscription_count env) 0); cbn [negb]; [reflexivity|].
  rewrite value_bind.
  destruct (value (align_reference env (called node) cloud0)) as [[output frameId]|];
    [|reflexivity].
  rewrite value_bind. reflexivity.
Qed.

End AggregatorOrder.

Lemma Header_eta h : mkHeader (stamp h) (frame_id h) = h.
Proof. destruct h. reflexivity. Qed.

(** X9. With a consumer and the reference frame resolved, the published
    cloud is the concatenation, from the left and in the order of the
    tuple, of the first cloud brought to the reference frame and of each
    following cloud as the body of the loop aligns it, under the stamp of the
    first cloud and the reference frame. *)
Theorem combineClouds_fuses_in_order
    (P : Platform) (env : Env) (node : Node) (cloud0 c1 : PointCloud2)
    (rest : list PointCloud2) :
  get_subscription_count env <> 0%nat ->
  reference_resolved env node cloud0 = true ->
  let frameId := reference_frame node cloud0 in
  let output0 :=
    if string_empty (frameId_ node) || String.eqb (frameId_ node) (frame_id (header cloud0))
    then toPCL cloud0
    else toPCL (fst (transformPointCloud float_add float_mul stray_field
                       (toEigen4f (getTransform env (frameId_ node)
                                     (frame_id (header cloud0)) (stamp (header cloud0))))
                       cloud0 empty_cloud)) in
  let aligned :=
    map (fun c => value (align_cloud env (called node) frameId cloud0 c)) (c1 :: rest) in
  published (events (combineClouds env node (cloud0 :: c1 :: rest)))
  = [with_header (moveFromPCL (fold_left concatenatePointCloud aligned output0))
                 (mkHeader (stamp (header cloud0)) frameId)].
Proof.
  intros Hn Hr. cbv zeta.
  destruct (combineClouds_fused env node cloud0 c1 rest Hn Hr) as (evs & output & Ha & Hp & E).
  cbv zeta in E. rewrite E. cbn [events fst].
  rewrite !published_app, Hp, combine_loop_unpublished. cbn [app published].
  rewrite combine_loop_value.
  pose proof (align_reference_value env (called node) cloud0 Hr) as Hv.
  rewrite Ha in Hv. cbn [value snd] in Hv. injection Hv as ->.
  reflexivity.
Qed.

(** X10. No displacement is looked up when no fixed frame is set, nor when
    every cloud carries the stamp of the first. *)
Theorem combineClouds_no_displacement_lookup
    (P : Platform) (env : Env) (node : Node) (cloud0 : PointCloud2)
    (rest : list PointCloud2) :
  fixedFrameId_ node = ""
  \/ Forall (fun c => stamp (header c) = stamp (header cloud0)) rest ->
  count_if is_displacement_lookup (events (combineClouds env node (cloud0 :: rest))) = 0%nat.
Proof.
  intros H. rewrite combineClouds_events.
  destruct rest as [|c1 rest]; [reflexivity|].
  destruct (Nat.eqb (get_subscription_count env) 0); [reflexivity|].
  cbv zeta. rewrite count_if_app.
  pose proof (align_reference_counts env (called node) cloud0) as H0. cbv zeta in H0.
  destruct H0 as (_ & _ & _ & H0). rewrite H0.
  destruct (value (align_reference env (called node) cloud0)) as [[output frameId]|];
    [|reflexivity].
  rewrite count_if_app, combine_loop_no_displacement_lookup by exact H.
  reflexivity.
Qed.

(** X11. Clouds that are all in the reference frame, for which no
    displacement is looked up, are concatenated as they are: nothing is
    looked up, nothing is transformed, and the published cloud is the
    concatenation of the inputs under the header of the first.  (The
    default-constructed transform is null.) *)
Theorem combineClouds_passthrough
    (P : Platform) (env : Env) (node : Node) (cloud0 c1 : PointCloud2)
    (rest : list PointCloud2) :
  isNull Transform_default = true ->
  get_subscription_count env <> 0%nat ->
  frameId_ node = "" \/ frameId_ node = frame_id (header cloud0) ->
  Forall (fun c => frame_id (header c) = frame_id (header cloud0)) (c1 :: rest) ->
  fixedFrameId_ node = ""
  \/ Forall (fun c => stamp (header c) = stamp (header cloud0)) (c1 :: rest) ->
  let evs := events (combineClouds env node (cloud0 :: c1 :: rest)) in
  count_if is_lookup evs = 0%nat
  /\ count_if is_transform evs = 0%nat
  /\ published evs
     = [with_header
          (moveFromPCL (fold_left concatenatePointCloud (map toPCL (c1 :: rest))
                                  (toPCL cloud0)))
          (header cloud0)].
Proof.
  intros Hnull Hn Hframe Hall Hstamps. cbv zeta.
  assert (Hcond : negb (string_empty (frameId_ node))
                  && negb (String.eqb (frameId_ node) (frame_id (header cloud0))) = false).
  { destruct Hframe as [->| ->]; [reflexivity|]. rewrite String.eqb_refl. apply andb_false_r. }
  rewrite combineClouds_events. rewrite (proj2 (Nat.eqb_neq _ _) Hn). cbv zeta.
  unfold align_reference. change (frameId_ (called node)) with (frameId_ node).
  rewrite Hcond. cbn [events value fst snd ret app].
  destruct (combine_loop_passthrough env (called node) (frame_id (header cloud0)) cloud0
              (c1 :: rest) (toPCL cloud0) Hnull Hstamps Hall) as (H1 & H2 & H3).
  cbv zeta in H1, H2, H3.
  rewrite !count_if_app, !published_app, combine_loop_unpublished, H1, H2, H3.
  cbn [app published]. rewrite Header_eta. repeat split; reflexivity.
Qed.

Lemma combineClouds_fuses_in_order_witness :
  let env := env_const 1 (translation f1 f0 f0) in
  let node := mkNode "" "" false in
  let cloud0 := one_point "A" 1 f1 in
  let c1 := one_point "B" 1 f2 in
  published (events (combineClouds env node [cloud0; c1]))
  = [with_header
       (pcl_concatenate (to_microseconds cloud0)
          (value (align_cloud env (called node) "A" cloud0 c1)))
       (mkHeader (mkTime 1 0) "A")].
Proof.
  apply (combineClouds_fuses_in_order platform (env_const 1 (translation f1 f0 f0))
           (mkNode "" "" false) (one_point "A" 1 f1) (one_point "B" 1 f2) []);
    [discriminate | reflexivity].
Defined.

Lemma combineClouds_no_displacement_lookup_witness :
  count_if is_displacement_lookup
    (events (combineClouds (env_const 1 (translation f1 f0 f0)) (mkNode "base" "" false)
               [one_point "A" 1 f1; one_point "B" 2 f2])) = 0%nat.
Proof.
  apply (combineClouds_no_displacement_lookup platform (env_const 1 (translation f1 f0 f0))
           (mkNode "base" "" false) (one_point "A" 1 f1) [one_point "B" 2 f2]).
  left. reflexivity.
Defined.

Lemma combineClouds_passthrough_witness :
  let env := env_const 1 (translation f1 f0 f0) in
  let node := mkNode "A" "odom" false in
  let cloud0 := one_point "A" 1 f1 in
  let c1 := one_point "A" 1 f2 in
  let evs := events (combineClouds env node [cloud0; c1]) in
  count_if is_lookup evs = 0%nat
  /\ count_if is_transform evs = 0%nat
  /\ published evs
     = [with_header (pcl_concatenate (to_microseconds cloud0) (to_microseconds c1))
                    (header cloud0)].
Proof.
  apply (combineClouds_passthrough platform (env_const 1 (translation f1 f0 f0))
           (mkNode "A" "odom" false) (one_point "A" 1 f1) (one_point "A" 1 f2) []).
  - reflexivity.
  - discriminate.
  - right. reflexivity.
  - constructor; [reflexivity | constructor].
  - right. constructor; [reflexivity | constructor].
Defined.

(** X12. When a displacement is looked up and is not null, and the frame
    of the cloud differs from the reference frame, the displacement is looked
    up first and applied last: the cloud is transformed into the reference
    frame, and the displacement is applied to the result. *)
Theorem align_cloud_displacement_after_frame
    (P : Platform) (env : Env) (node : Node) (frameId : string)
    (cloud0 cloud_i : PointCloud2) :
  fixedFrameId_ node <> "" ->
  stamp (header cloud0) <> stamp (header cloud_i) ->
  frame_id (header cloud_i) <> frameId ->
  isNull (getTransformFixed env frameId (fixedFrameId_ node)
                            (stamp (header cloud_i)) (stamp (header cloud0))) = false ->
  let t := getTransform env frameId (frame_id (header cloud_i)) (stamp (header cloud_i)) in
  let d := getTransformFixed env frameId (fixedFrameId_ node)
                             (stamp (header cloud_i)) (stamp (header cloud0)) in
  let tmp := fst (transformPointCloud float_add float_mul stray_field
                    (toEigen4f t) cloud_i empty_cloud) in
  let tmp2 := fst (transformPointCloud float_add float_mul stray_field
                     (toEigen4f d) tmp empty_cloud) in
  align_cloud env node frameId cloud0 cloud_i
  = ([LookupDisplacement frameId (fixedFrameId_ node)
                         (stamp (header cloud_i)) (stamp (header cloud0));
      LookupTransform frameId (frame_id (header cloud_i)) (stamp (header cloud_i));
      TransformCloud (toEigen4f t) cloud_i;
      TransformCloud (toEigen4f d) tmp],
     toPCL tmp2).
Proof.
  intros Hf Hs Hframe Hd. cbv zeta. unfold align_cloud.
  rewrite (string_empty_false _ Hf), (Time_eqb_false _ _ Hs). cbn [negb andb].
  assert (Hneq : String.eqb frameId (frame_id (header cloud_i)) = false).
  { apply String.eqb_neq. congruence. }
  rewrite Hneq. cbn [negb].
  unfold lookup_displacement, lookup, transform_cloud, bind, emit, ret.
  rewrite Hd. reflexivity.
Qed.

Lemma align_cloud_displacement_after_frame_witness :
  let env := env_of 1 (translation f1 f0 f0) (translation f0 f2 f0) in
  let node := mkNode "" "odom" false in
  let cloud0 := one_point "A" 1 f1 in
  let cloud_i := one_point "B" 2 f2 in
  let tmp := fst (transformPointCloud F32.add F32.mul garbage
                    (toEigen4f34 (translation f1 f0 f0)) cloud_i empty_cloud) in
  let tmp2 := fst (transformPointCloud F32.add F32.mul garbage
                     (toEigen4f34 (translation f0 f2 f0)) tmp empty_cloud) in
  align_cloud env node "A" cloud0 cloud_i
  = ([LookupDisplacement "A" "odom" (mkTime 2 0) (mkTime 1 0);
      LookupTransform "A" "B" (mkTime 2 0);
      TransformCloud (toEigen4f34 (translation f1 f0 f0)) cloud_i;
      TransformCloud (toEigen4f34 (translation f0 f2 f0)) tmp],
     to_microseconds tmp2).
Proof.
  apply (align_cloud_displacement_after_frame platform
           (env_of 1 (translation f1 f0 f0) (translation f0 f2 f0))
           (mkNode "" "odom" false) "A" (one_point "A" 1 f1) (one_point "B" 2 f2));
    [discriminate | discriminate | discriminate | reflexivity].
Defined.

Lemma combineClouds_published_length (P : Platform) (env : Env) (node : Node)
    (cloudMsgs : list PointCloud2) :
  (length (published (events (combineClouds env node cloudMsgs))) <= 1)%nat.
Proof.
  rewrite combineClouds_events.
  destruct cloudMsgs as [|cloud0 [|c1 rest]]; [cbn; lia | cbn; lia |].
  destruct (Nat.eqb (get_subscription_count env) 0); [cbn; lia|].
  cbv zeta. rewrite published_app, align_reference_unpublished.
  destruct (value (align_reference env (called node) cloud0)) as [[output frameId]|].
  - rewrite published_app, combine_loop_unpublished. cbn. lia.
  - cbn. lia.
Qed.

(** X13. A run of the callback over a sequence of tuples publishes at most
    one cloud for each tuple, never changes [frame_id_] or
    [fixed_frame_id_], and leaves [callbackCalled_] set as soon as one tuple
    was delivered. *)
Theorem deliver_keeps_configuration
    (P : Platform) (tuples : list (Env * list PointCloud2)) (node : Node) :
  let r := deliver node tuples in
  (length (published (events r)) <= length tuples)%nat
  /\ frameId_ (fst (value r)) = frameId_ node
  /\ fixedFrameId_ (fst (value r)) = fixedFrameId_ node
  /\ (tuples <> [] -> callbackCalled_ (fst (value r)) = true).
Proof.
  cbv zeta. revert node.
  assert (Hgen : forall node,
            (length (published (events (deliver node tuples))) <= length tuples)%nat
            /\ frameId_ (fst (value (deliver node tuples))) = frameId_ node
            /\ fixedFrameId_ (fst (value (deliver node tuples))) = fixedFrameId_ node
            /\ (callbackCalled_ node = true \/ tuples <> [] ->
                callbackCalled_ (fst (value (deliver node tuples))) = true)).
  { induction tuples as [|[env msgs] tuples IH]; intros node.
    - cbn. repeat split; try lia. intros [H|H]; [exact H | congruence].
    - cbn [deliver]. rewrite events_bind, value_bind, published_app, length_app.
      pose proof (combineClouds_published_length P env node msgs) as Hp.
      pose proof (combineClouds_node env node msgs) as Hnode.
      destruct (value (combineClouds env node msgs)) as [node' outcome].
      cbn [fst] in Hnode. subst node'.
      destruct outcome.
      + destruct (IH (called node)) as (H1 & H2 & H3 & H4).
        cbn [length]. repeat split.
        * lia.
        * rewrite H2. reflexivity.
        * rewrite H3. reflexivity.
        * intros _. apply H4. left. reflexivity.
      + cbn [events value fst snd ret published length].
        repeat split; try reflexivity; lia. }
  intros node. destruct (Hgen node) as (H1 & H2 & H3 & H4).
  repeat split; try assumption. intros Hne. apply H4. right. exact Hne.
Qed.

(** ** The constructor *)

(** X14. Whatever the parameters, the constructor leaves exactly one of
    the six synchronizer members not null.  That synchronizer is connected to
    the subscribers the constructor subscribed, and to no other: four on
    [cloud1] to [cloud4] when [count] is 4, three when it is 3, and the two on
    [cloud1] and [cloud2] for every other value of [count].  Its policy is
    the one [approx_sync] selects, and [queue_size] is handed to it as it is. *)
Theorem PointCloudAggregator_one_synchronizer (options : Overrides) :
  let a := PointCloudAggregator options in
  let count := declare_parameter (count_override options) 2 in
  let n := if count =? 4 then 4%nat else if count =? 3 then 3%nat else 2%nat in
  exists s,
    synchronizers a = [s]
    /\ sync_inputs s = map fst (subscriptions a)
    /\ map snd (subscriptions a) = take n ["cloud1"; "cloud2"; "cloud3"; "cloud4"]
    /\ sync_inputs s = take n [cloudSub_1_; cloudSub_2_; cloudSub_3_; cloudSub_4_]
    /\ sync_policy s
       = (if declare_parameter (approx_sync_override options) true
          then ApproximateTime else ExactTime)
    /\ sync_queue_size s = declare_parameter (queue_size_override options) 5.
Proof.
  cbv zeta. unfold PointCloudAggregator.
  destruct (declare_parameter (count_override options) 2 =? 4);
    [|destruct (declare_parameter (count_override options) 2 =? 3)];
    destruct (declare_parameter (approx_sync_override options) true);
    eexists; repeat split.
Qed.

(** X15. The assertion of [combineClouds] cannot fail in the node: for
    every setting of the parameters, a tuple signalled by the synchronizer the
    constructor created reaches [combineClouds] through the registered
    callback with two, three or four clouds, and the call returns with
    [callbackCalled_] set. *)
Theorem signalled_tuple_passes_assertion
    (P : Platform) (options : Overrides) (s : Synchronizer) (env : Env) (node : Node)
    (msgs : list PointCloud2) :
  In s (synchronizers (PointCloudAggregator options)) ->
  length msgs = length (sync_inputs s) ->
  exists r,
    signal s env node msgs = Some r
    /\ r = combineClouds env node msgs
    /\ (2 <= length msgs <= 4)%nat
    /\ value r = (called node, Returned).
Proof.
  intros Hs Hlen.
  assert (Hval : forall c0 c1 rest,
            value (combineClouds env node (c0 :: c1 :: rest)) = (called node, Returned)).
  { intros c0 c1 rest.
    pose proof (combineClouds_node env node (c0 :: c1 :: rest)) as H1.
    pose proof (combineClouds_returns env node c0 c1 rest) as H2.
    destruct (value (combineClouds env node (c0 :: c1 :: rest))) as [n o].
    cbn [fst snd] in H1, H2. subst. reflexivity. }
  unfold PointCloudAggregator in Hs.
  destruct (declare_parameter (count_override options) 2 =? 4);
    [|destruct (declare_parameter (count_override options) 2 =? 3)];
    destruct (declare_parameter (approx_sync_override options) true);
    cbn in Hs; destruct Hs as [<-|[]]; cbn [sync_inputs length] in Hlen;
    unfold signal; rewrite Hlen; cbn [sync_inputs sync_callback length Nat.eqb];
    do 5 (try destruct msgs as [|? msgs]); try discriminate Hlen;
    (eexists; split; [reflexivity|]; split; [reflexivity|]; split;
     [cbn [length]; lia | apply Hval]).
Qed.

Lemma signalled_tuple_passes_assertion_witness :
  let s := mkSynchronizer ApproximateTime 5 [cloudSub_1_; cloudSub_2_] bound_clouds2_callback in
  let env := env_const 0 null34 in
  let node := mkNode "" "" false in
  let msgs := [one_point "A" 1 f1; one_point "B" 1 f2] in
  exists r,
    signal s env node msgs = Some r
    /\ r = combineClouds env node msgs
    /\ (2 <= length msgs <= 4)%nat
    /\ value r = (called node, Returned).
Proof.
  apply (signalled_tuple_passes_assertion platform (mkOverrides None None None None None)
           (mkSynchronizer ApproximateTime 5 [cloudSub_1_; cloudSub_2_] bound_clouds2_callback)
           (env_const 0 null34) (mkNode "" "" false)
           [one_point "A" 1 f1; one_point "B" 1 f2]).
  - left. reflexivity.
  - reflexivity.
Defined.

(** ** The invariant is kept, and transforms compose *)

Lemma buffer_ok_with_data c d :
  length d = length (data c) -> buffer_ok (with_data c d) = buffer_ok c.
Proof.
  intros H. unfold buffer_ok, point_count, spatial_extents, extent, inside_record,
    lookup_field, getFieldIndex.
  cbn [with_data data fields point_step width height]. rewrite H. reflexivity.
Qed.

Lemma has_xyz_with_data c d : has_xyz (with_data c d) = has_xyz c.
Proof. reflexivity. Qed.

Lemma transformPointCloud_shape
    (fadd fmul : float32 -> float32 -> float32) (stray : PointField)
    (transform : Matrix4f) (in_ out : PointCloud2) :
  has_xyz in_ = true ->
  exists d,
    fst (transformPointCloud fadd fmul stray transform in_ out) = with_data in_ d
    /\ length d = length (data in_).
Proof.
  intros Hxyz.
  destruct (has_xyz_fields _ Hxyz) as (fx & fy & fz & [Ex Dx] & [Ey Dy] & [Ez Dz]).
  rewrite (transformPointCloud_unfold fadd fmul stray transform in_ out fx fy fz
             Ex Dx Ey Dy Ez Dz).
  cbv zeta. destruct (lookup_field in_ "vp_x"); cbn [fst]; eexists; split; try reflexivity.
  - rewrite viewpoints_loop_length. cbn [fst]. apply points_loop_length.
  - apply points_loop_length.
Qed.

(** X16. The result of [transformPointCloud] on a cloud with float [x],
    [y], [z] satisfies the buffer invariant exactly when the input does, has
    float [x], [y], [z] and as many points: it can be transformed again. *)
Theorem transformPointCloud_keeps_invariant
    (fadd fmul : float32 -> float32 -> float32) (stray : PointField)
    (transform : Matrix4f) (in_ out : PointCloud2) :
  has_xyz in_ = true ->
  let r := fst (transformPointCloud fadd fmul stray transform in_ out) in
  buffer_ok r = buffer_ok in_
  /\ has_xyz r = true
  /\ point_count r = point_count in_.
Proof.
  intros Hxyz. cbv zeta.
  destruct (transformPointCloud_shape fadd fmul stray transform in_ out Hxyz) as (d & -> & Hlen).
  repeat split.
  - apply buffer_ok_with_data, Hlen.
  - exact Hxyz.
Qed.

Lemma transformPointCloud_keeps_invariant_witness :
  let r := fst (transformPointCloud F32.add F32.mul garbage
                  (toEigen4f34 (translation f2 f0 f0)) max_range_cloud empty_cloud) in
  buffer_ok r = buffer_ok max_range_cloud
  /\ has_xyz r = true
  /\ point_count r = point_count max_range_cloud.
Proof.
  apply (transformPointCloud_keeps_invariant F32.add F32.mul garbage
           (toEigen4f34 (translation f2 f0 f0)) max_range_cloud empty_cloud).
  reflexivity.
Defined.

Section PointClasses.
Variables fadd fmul : float32 -> float32 -> float32.
Variable stray : PointField.
Variable transform : Matrix4f.
Variables in_ out : PointCloud2.
Variable i : Z.

Hypothesis Hok : buffer_ok in_ = true.
Hypothesis Hxyz : has_xyz in_ = true.
Hypothesis Hi : 0 <= i < point_count in_.

Abbreviation out' := (fst (transformPointCloud fadd fmul stray transform in_ out)).

(** The [x], [y], [z] of the record in the result, in the three cases. *)
Lemma point_result x y z :
  point_float in_ "x" i = Some x ->
  point_float in_ "y" i = Some y ->
  point_float in_ "z" i = Some z ->
  exists x' y' z',
    point_float out' "x" i = Some x'
    /\ point_float out' "y" i = Some y'
    /\ point_float out' "z" i = Some z'
    /\ (if F32.isfinite x && F32.isfinite y && F32.isfinite z
        then
          let p := matvec fadd fmul transform (Vec4 x y z F32.one) in
          x' = v0 p /\ y' = v1 p /\ z' = v2 p
        else
          x' = F32.quiet_NaN \/ (x' = x /\ y' = y /\ z' = z)).
Proof.
  intros Hx Hy Hz.
  destruct (has_xyz_fields _ Hxyz) as (fx & fy & fz & [Ex Dx] & [Ey Dy] & [Ez Dz]).
  pose proof (buffer_ok_layout _ _ _ _ Hok Ex Ey Ez) as L.
  pose proof (record_inside in_ fx fy fz i Hok Ex Ey Ez Hi) as Hin.
  destruct L as [_ Lsmall _ _ Lx Ly Lz Lxy Lxz Lyz Ld Lv].
  assert (Hv : forall fv, lookup_field in_ "vp_x" = Some fv ->
                 (offset fx + 4 <= offset fv \/ offset fv + 12 <= offset fx)
                 /\ (offset fy + 4 <= offset fv \/ offset fv + 12 <= offset fy)
                 /\ (offset fz + 4 <= offset fv \/ offset fv + 12 <= offset fz)).
  { intros fv Ev. rewrite Ev in Lv. specialize (Lv _ eq_refl). tauto. }
  unfold point_float in *. rewrite Ex in Hx. rewrite Ey in Hy. rewrite Ez in Hz.
  injection Hx as <-. injection Hy as <-. injection Hz as <-.
  rewrite !(result_lookup fadd fmul stray transform in_ out fx fy fz Hok Ex Dx Ey Dy Ez Dz),
          Ex, Ey, Ez.
  rewrite !(result_float fadd fmul stray transform in_ out fx fy fz i
              Hok Ex Dx Ey Dy Ez Dz Hi) by (try lia; intros fv Ev; apply (Hv fv Ev)).
  offsets_first i in_.
  eexists _, _, _. split; [reflexivity|]. split; [reflexivity|]. split; [reflexivity|].
  destruct (F32.isfinite (load_float (data in_) (offset fx + i * point_step in_))
            && F32.isfinite (load_float (data in_) (offset fy + i * point_step in_))
            && F32.isfinite (load_float (data in_) (offset fz + i * point_step in_)))
    eqn:Hfin.
  - rewrite transform_point_finite by exact Hfin. cbv zeta.
    repeat split; read_back; reflexivity.
  - destruct (Z_lt_le_dec (getFieldIndex in_ "distance") 0) as [Hdi|Hdi].
    + right. rewrite transform_point_invalid; [|exact Hfin|left; exact Hdi].
      rewrite !store_float_load. repeat split; reflexivity.
    + destruct (F32.isfinite
                  (load_float (data in_)
                     (wrap_i32 (wrap_size_t
                        (i * point_step in_
                         + offset (field_at stray (fields in_)
                                     (getFieldIndex in_ "distance")))))))
        eqn:Hd.
      * left.
        destruct (getFieldIndex_nonneg _ _ Hdi) as (fd & Ed).
        rewrite Ed in Ld. specialize (Ld _ eq_refl). destruct Ld as (Ld & Ldx & Ldy & Ldz).
        assert (Hdpo : wrap_i32 (wrap_size_t
                         (i * point_step in_
                          + offset (field_at stray (fields in_)
                                      (getFieldIndex in_ "distance"))))
                       = offset fd + i * point_step in_).
        { rewrite (field_at_lookup stray _ _ _ Ed).
          rewrite wrap_size_t_small, wrap_i32_small by lia. lia. }
        rewrite transform_point_max_range; [|exact Hfin|exact Hdi|exact Hd].
        cbv zeta. rewrite !Hdpo. read_back. reflexivity.
      * right. rewrite transform_point_invalid; [|exact Hfin|right; exact Hd].
        rewrite !store_float_load. repeat split; reflexivity.
Qed.

End PointClasses.

Lemma isfinite_quiet_NaN : F32.isfinite F32.quiet_NaN = false.
Proof. reflexivity. Qed.

(** X17. A point that is not finite in the input is not finite in the
    result: an invalid or a max-range point never becomes a valid point
    (under the buffer invariant). *)
Theorem transformPointCloud_keeps_points_not_finite
    (fadd fmul : float32 -> float32 -> float32) (stray : PointField)
    (transform : Matrix4f) (in_ out : PointCloud2) (i : Z) (x y z : float32) :
  buffer_ok in_ = true ->
  has_xyz in_ = true ->
  0 <= i < point_count in_ ->
  point_float in_ "x" i = Some x ->
  point_float in_ "y" i = Some y ->
  point_float in_ "z" i = Some z ->
  F32.isfinite x && F32.isfinite y && F32.isfinite z = false ->
  let out' := fst (transformPointCloud fadd fmul stray transform in_ out) in
  exists x' y' z',
    point_float out' "x" i = Some x'
    /\ point_float out' "y" i = Some y'
    /\ point_float out' "z" i = Some z'
    /\ F32.isfinite x' && F32.isfinite y' && F32.isfinite z' = false.
Proof.
  intros Hok Hxyz Hi Hx Hy Hz Hnf. cbv zeta.
  destruct (point_result fadd fmul stray transform in_ out i Hok Hxyz Hi x y z Hx Hy Hz)
    as (x' & y' & z' & Hx' & Hy' & Hz' & Hcase).
  rewrite Hnf in Hcase.
  exists x', y', z'. repeat split; try assumption.
  destruct Hcase as [->|(-> & -> & ->)]; [|exact Hnf].
  rewrite isfinite_quiet_NaN. reflexivity.
Qed.

Lemma transformPointCloud_keeps_points_not_finite_witness :
  let out' := fst (transformPointCloud F32.add F32.mul garbage
                     (toEigen4f34 (translation f2 f0 f0)) max_range_cloud empty_cloud) in
  exists x' y' z',
    point_float out' "x" 0 = Some x'
    /\ point_float out' "y" 0 = Some y'
    /\ point_float out' "z" 0 = Some z'
    /\ F32.isfinite x' && F32.isfinite y' && F32.isfinite z' = false.
Proof.
  apply (transformPointCloud_keeps_points_not_finite F32.add F32.mul garbage
           (toEigen4f34 (translation f2 f0 f0)) max_range_cloud empty_cloud 0 fNaN f0 f0).
  - reflexivity.
  - reflexivity.
  - vm_compute. split; [discriminate | reflexivity].
  - reflexivity.
  - reflexivity.
  - reflexivity.
  - reflexivity.
Defined.

(** X18. Two transforms in a row, as [combineClouds] makes them when it
    applies the displacement to a cloud it has brought to the reference
    frame: a finite point [p] whose image [transform * p] is finite ends at
    [displacement * (transform * p)], each product taken in single
    precision. *)
Theorem transformPointCloud_twice
    (fadd fmul : float32 -> float32 -> float32) (stray : PointField)
    (transform displacement : Matrix4f) (in_ out out2 : PointCloud2) (i : Z)
    (x y z : float32) :
  buffer_ok in_ = true ->
  has_xyz in_ = true ->
  0 <= i < point_count in_ ->
  point_float in_ "x" i = Some x ->
  point_float in_ "y" i = Some y ->
  point_float in_ "z" i = Some z ->
  F32.isfinite x && F32.isfinite y && F32.isfinite z = true ->
  let p := matvec fadd fmul transform (Vec4 x y z F32.one) in
  F32.isfinite (v0 p) && F32.isfinite (v1 p) && F32.isfinite (v2 p) = true ->
  let tmp := fst (transformPointCloud fadd fmul stray transform in_ out) in
  let tmp2 := fst (transformPointCloud fadd fmul stray displacement tmp out2) in
  let q := matvec fadd fmul displacement (Vec4 (v0 p) (v1 p) (v2 p) F32.one) in
  point_float tmp2 "x" i = Some (v0 q)
  /\ point_float tmp2 "y" i = Some (v1 q)
  /\ point_float tmp2 "z" i = Some (v2 q).
Proof.
  intros Hok Hxyz Hi Hx Hy Hz Hfin p Hfin' tmp tmp2 q.
  destruct (point_result fadd fmul stray transform in_ out i Hok Hxyz Hi x y z Hx Hy Hz)
    as (x' & y' & z' & Hx' & Hy' & Hz' & Hcase).
  rewrite Hfin in Hcase. cbv zeta in Hcase. destruct Hcase as (-> & -> & ->).
  destruct (transformPointCloud_shape fadd fmul stray transform in_ out Hxyz)
    as (d & Htmp & Hlen).
  fold tmp in Hx', Hy', Hz', Htmp.
  assert (Hok' : buffer_ok tmp = true).
  { rewrite Htmp, buffer_ok_with_data by exact Hlen. exact Hok. }
  assert (Hxyz' : has_xyz tmp = true).
  { rewrite Htmp. exact Hxyz. }
  assert (Hi' : 0 <= i < point_count tmp).
  { rewrite Htmp. exact Hi. }
  destruct (point_result fadd fmul stray displacement tmp out2 i Hok' Hxyz' Hi'
              _ _ _ Hx' Hy' Hz') as (x'' & y'' & z'' & Hx'' & Hy'' & Hz'' & Hcase).
  fold p in Hcase. rewrite Hfin' in Hcase. cbv zeta in Hcase.
  destruct Hcase as (-> & -> & ->).
  repeat split; assumption.
Qed.

Lemma transformPointCloud_twice_witness :
  let transform := toEigen4f34 (translation f1 f0 f0) in
  let displacement := toEigen4f34 (translation f0 f2 f0) in
  let in_ := one_point "B" 2 f2 in
  let p := matvec F32.add F32.mul transform (Vec4 f2 f2 f2 F32.one) in
  let tmp := fst (transformPointCloud F32.add F32.mul garbage transform in_ empty_cloud) in
  let tmp2 := fst (transformPointCloud F32.add F32.mul garbage displacement tmp empty_cloud) in
  let q := matvec F32.add F32.mul displacement (Vec4 (v0 p) (v1 p) (v2 p) F32.one) in
  point_float tmp2 "x" 0 = Some (v0 q)
  /\ point_float tmp2 "y" 0 = Some (v1 q)
  /\ point_float tmp2 "z" 0 = Some (v2 q).
Proof.
  apply (transformPointCloud_twice F32.add F32.mul garbage
           (toEigen4f34 (translation f1 f0 f0)) (toEigen4f34 (translation f0 f2 f0))
           (one_point "B" 2 f2) empty_cloud empty_cloud 0 f2 f2 f2).
  - reflexivity.
  - reflexivity.
  - vm_compute. split; [discriminate | reflexivity].
  - reflexivity.
  - reflexivity.
  - reflexivity.
  - reflexivity.
  - reflexivity.
Defined.

(** X19. A call on two clouds or more publishes exactly when the sink has
    a consumer and the first cloud is brought to the reference frame: no
    reference frame is set, or the cloud is in it, or the lookup answers a
    transform that is not null.  In every other case nothing is published. *)
Theorem combineClouds_publishes_iff
    (P : Platform) (env : Env) (node : Node) (cloud0 c1 : PointCloud2)
    (rest : list PointCloud2) :
  let evs := events (combineClouds env node (cloud0 :: c1 :: rest)) in
  (length (published evs) = 1%nat
   <-> get_subscription_count env <> 0%nat /\ reference_resolved env node cloud0 = true)
  /\ (length (published evs) = 0%nat
      <-> get_subscription_count env = 0%nat \/ reference_resolved env node cloud0 = false).
Proof.
  cbv zeta.
  assert (Hcases : (get_subscription_count env <> 0%nat
                    /\ reference_resolved env node cloud0 = true
                    /\ length (published (events (combineClouds env node
                                                    (cloud0 :: c1 :: rest)))) = 1%nat)
                   \/ ((get_subscription_count env = 0%nat
                        \/ reference_resolved env node cloud0 = false)
                       /\ length (published (events (combineClouds env node
                                                       (cloud0 :: c1 :: rest)))) = 0%nat)).
  { destruct (Nat.eq_dec (get_subscription_count env) 0%nat) as [Hn|Hn].
    - right. split; [left; exact Hn|].
      rewrite combineClouds_events, Hn. reflexivity.
    - destruct (reference_resolved env node cloud0) eqn:Hr.
      + left. split; [exact Hn|]. split; [reflexivity|].
        destruct (combineClouds_fused env node cloud0 c1 rest Hn Hr)
          as (evs & output & _ & Hp & E).
        cbv zeta in E. rewrite E. cbn [events fst].
        rewrite !published_app, Hp, combine_loop_unpublished. reflexivity.
      + right. split; [right; reflexivity|].
        unfold reference_resolved in Hr.
        apply orb_false_elim in Hr as [Hr Hnull]. apply orb_false_elim in Hr as [He Hf].
        apply negb_false_iff in Hnull.
        assert (H1 : frameId_ node <> "").
        { intros H. unfold string_empty in He. rewrite H in He. discriminate He. }
        assert (H2 : frameId_ node <> frame_id (header cloud0)).
        { apply String.eqb_neq. exact Hf. }
        rewrite combineClouds_events. rewrite (proj2 (Nat.eqb_neq _ _) Hn). cbv zeta.
        rewrite (align_reference_fails env (called node) cloud0 H1 H2 Hnull).
        reflexivity. }
  destruct Hcases as [(Hn & Hr & Hlen)|([Hn|Hr] & Hlen)]; rewrite Hlen; split; split;
    try (intros; discriminate); try (intros; congruence); try tauto;
    try (intros [? ?]; congruence); try (intros [?|?]; congruence).
Qed.
